(** * Scholarship finder: scraping orchestration and normalization pipeline

    A shallow embedding of the TypeScript sources of the scholarship
    finder (retry handler, rate limiter, orchestrator, data normalizer,
    amount parser, deadline calculator, validator, filter state, filter
    engine, the search route and the filters of the page) and the
    properties proved about it.

    Conventions of the embedding.
    - A JavaScript string is the list of its UTF-16 code units
      ([jsstring := list N]); [lit] turns an ASCII literal into one.
      [length] is therefore the [.length] of the source.
    - Case mapping ([toLowerCase], [toUpperCase]) acts on the letters
      A-Z / a-z and leaves every other code unit unchanged; all tables
      and keywords of the program are ASCII.
    - Regular expressions of the source are written as terms of [Regex.re]
      and run by a greedy backtracking matcher.
    - Numbers that the source keeps as doubles are exact: integers are [Z],
      fractions are [Q] in lowest terms; [jsnum] adds NaN and the
      infinities where the source can produce or receive them.
    - A time value is the number of milliseconds since the epoch, an
      unbounded [Z]; the local time zone is a fixed offset from UTC. *)

From Stdlib Require Import List String Ascii Bool Arith ZArith NArith QArith Lia.
From Stdlib Require Import Qreduction Qround Lqa.
Import ListNotations.

Open Scope Z_scope.

(* ===================================================================== *)
(** ** JavaScript strings *)
(* ===================================================================== *)

Module JsString.

Definition jsstring := list N.

(** An ASCII literal as a list of code units. *)
Fixpoint lit (s : string) : jsstring :=
  match s with
  | EmptyString => []
  | String a s' => N_of_ascii a :: lit s'
  end.

Fixpoint streq (a b : jsstring) : bool :=
  match a, b with
  | [], [] => true
  | x :: a', y :: b' => N.eqb x y && streq a' b'
  | _, _ => false
  end.

Definition isUpper (c : N) : bool := (N.leb 65 c && N.leb c 90)%bool.
Definition isLower (c : N) : bool := (N.leb 97 c && N.leb c 122)%bool.
Definition isDigit (c : N) : bool := (N.leb 48 c && N.leb c 57)%bool.

Definition lowerUnit (c : N) : N := if isUpper c then (c + 32)%N else c.
Definition upperUnit (c : N) : N := if isLower c then (c - 32)%N else c.

Definition toLowerCase (s : jsstring) : jsstring := map lowerUnit s.
Definition toUpperCase (s : jsstring) : jsstring := map upperUnit s.

(** WhiteSpace and LineTerminator code units of ECMAScript: what [trim]
    strips and what [\s] matches. *)
Definition isSpace (c : N) : bool :=
  ((N.leb 9 c && N.leb c 13) || N.eqb c 32 || N.eqb c 160 || N.eqb c 5760
   || (N.leb 8192 c && N.leb c 8202) || N.eqb c 8232 || N.eqb c 8233
   || N.eqb c 8239 || N.eqb c 8287 || N.eqb c 12288 || N.eqb c 65279)%bool.

Fixpoint trimStart (s : jsstring) : jsstring :=
  match s with
  | c :: s' => if isSpace c then trimStart s' else s
  | [] => []
  end.

Definition trimEnd (s : jsstring) : jsstring := rev (trimStart (rev s)).

Definition trim (s : jsstring) : jsstring := trimEnd (trimStart s).

Fixpoint startsWith (s prefix : jsstring) : bool :=
  match prefix, s with
  | [], _ => true
  | p :: prefix', c :: s' => N.eqb p c && startsWith s' prefix'
  | _ :: _, [] => false
  end.

(** [s.includes(x)]: [x] occurs in [s] as a contiguous substring. *)
Fixpoint includes (s x : jsstring) : bool :=
  startsWith s x ||
  match s with
  | [] => false
  | _ :: s' => includes s' x
  end.

(** [s.split(' ')]: split on one code unit, keeping empty pieces. *)
Fixpoint splitOn (sep : N) (s : jsstring) : list jsstring :=
  match s with
  | [] => [[]]
  | c :: s' =>
      if N.eqb c sep then [] :: splitOn sep s'
      else match splitOn sep s' with
           | w :: ws => (c :: w) :: ws
           | [] => [[c]]
           end
  end.

(** [parts.join(sep)]. *)
Fixpoint join (sep : jsstring) (parts : list jsstring) : jsstring :=
  match parts with
  | [] => []
  | [p] => p
  | p :: ps => p ++ sep ++ join sep ps
  end.

(** Decimal digits of a natural number, as [String(n)] prints them. *)
Fixpoint digitsFuel (fuel : nat) (n : N) (acc : jsstring) : jsstring :=
  match fuel with
  | O => acc
  | S f =>
      let acc' := (48 + N.modulo n 10)%N :: acc in
      if N.ltb n 10 then acc' else digitsFuel f (N.div n 10) acc'
  end.

Definition ofN (n : N) : jsstring := digitsFuel (S (N.to_nat (N.log2 n))) n [].

(** Value of a run of decimal digits ([parseInt] on such a run). *)
Definition digitsValue (s : jsstring) : N :=
  fold_left (fun acc c => (10 * acc + (c - 48))%N) s 0%N.

Fixpoint takeDigits (s : jsstring) : jsstring :=
  match s with
  | c :: s' => if isDigit c then c :: takeDigits s' else []
  | [] => []
  end.

Fixpoint dropDigits (s : jsstring) : jsstring :=
  match s with
  | c :: s' => if isDigit c then dropDigits s' else s
  | [] => []
  end.

(** Left-pad with zeros to [w] digits ([padStart(w, '0')]). *)
Definition padZeros (w : nat) (s : jsstring) : jsstring :=
  repeat 48%N (w - List.length s)%nat ++ s.

End JsString.

Export JsString.

(* ===================================================================== *)
(** ** Regular expressions *)
(* ===================================================================== *)

(** The regular expressions of the source, as terms, and the matcher that
    runs them: greedy quantifiers, ordered alternation, backtracking, as
    the ECMAScript matcher (without the [u], [m] and [s] flags). *)
Module Regex.

(** An item of a character class [[...]]. *)
Inductive citem : Type :=
  | IChar (c : N)
  | IRange (lo hi : N)
  | IDigit.

Inductive re : Type :=
  | Eps
  | Chr (c : N)                (* a literal character *)
  | Cls (items : list citem)   (* [...] *)
  | Dot                        (* .   any unit but a line terminator *)
  | Digit                      (* \d *)
  | Space                      (* \s *)
  | Seq (r1 r2 : re)
  | Alt (r1 r2 : re)           (* r1|r2 *)
  | Star (r : re)              (* r*  greedy *)
  | Bol                        (* ^ *)
  | Eol                        (* $ *)
  | WordB                      (* \b *)
  | Group (r : re).            (* (r) capturing *)

Definition Plus (r : re) : re := Seq r (Star r).
Definition Opt (r : re) : re := Alt r Eps.

(** [r{n}] and [r{lo,hi}]. *)
Fixpoint Times (n : nat) (r : re) : re :=
  match n with
  | O => Eps
  | S n' => Seq r (Times n' r)
  end.

Fixpoint AtMost (n : nat) (r : re) : re :=
  match n with
  | O => Eps
  | S n' => Opt (Seq r (AtMost n' r))
  end.

Definition Rep (lo hi : nat) (r : re) : re := Seq (Times lo r) (AtMost (hi - lo) r).

(** A sequence [r1 r2 ... rn]. *)
Fixpoint seql (rs : list re) : re :=
  match rs with
  | [] => Eps
  | [r] => r
  | r :: rs' => Seq r (seql rs')
  end.

(** The characters of a literal word, in sequence. *)
Definition Word (w : string) : re := seql (map Chr (lit w)).

(** A position in the subject: the units before it (nearest first), the
    units from it on, and the captures closed so far (latest first). *)
Record ctx : Type := mkCtx {
  before : list N;
  rest : list N;
  caps : list jsstring
}.

Definition start (s : jsstring) : ctx := mkCtx [] s [].

Definition isWordUnit (c : N) : bool :=
  (isUpper c || isLower c || isDigit c || N.eqb c 95)%bool.

Definition isLineTerminator (c : N) : bool :=
  (N.eqb c 10 || N.eqb c 13 || N.eqb c 8232 || N.eqb c 8233)%bool.

Definition itemHas (it : citem) (x : N) : bool :=
  match it with
  | IChar c => N.eqb c x
  | IRange lo hi => (N.leb lo x && N.leb x hi)%bool
  | IDigit => isDigit x
  end.

(** With the [i] flag two units match when they have the same upper-case
    form. *)
Definition unitEq (ci : bool) (c x : N) : bool :=
  if ci then N.eqb (upperUnit c) (upperUnit x) else N.eqb c x.

Definition clsHas (ci : bool) (items : list citem) (x : N) : bool :=
  existsb (fun it => itemHas it x
                     || (ci && (itemHas it (lowerUnit x) || itemHas it (upperUnit x))))%bool
          items.

Definition isWordAt (o : option N) : bool :=
  match o with
  | Some c => isWordUnit c
  | None => false
  end.

(** Consume one unit satisfying [p]. *)
Definition eat {A : Type} (p : N -> bool) (c : ctx) (k : ctx -> option A) : option A :=
  match rest c with
  | x :: xs => if p x then k (mkCtx (x :: before c) xs (caps c)) else None
  | [] => None
  end.

(** [rmatch ci r c k]: match [r] at [c], then continue with [k]; the
    first way that makes [k] succeed wins. *)
Fixpoint rmatch {A : Type} (ci : bool) (r : re) (c : ctx) (k : ctx -> option A)
    {struct r} : option A :=
  match r with
  | Eps => k c
  | Chr ch => eat (unitEq ci ch) c k
  | Cls items => eat (clsHas ci items) c k
  | Dot => eat (fun x => negb (isLineTerminator x)) c k
  | Digit => eat isDigit c k
  | Space => eat isSpace c k
  | Seq r1 r2 => rmatch ci r1 c (fun c' => rmatch ci r2 c' k)
  | Alt r1 r2 =>
      match rmatch ci r1 c k with
      | Some a => Some a
      | None => rmatch ci r2 c k
      end
  | Star r1 =>
      (fix loop (n : nat) (c0 : ctx) {struct n} : option A :=
         match n with
         | O => k c0
         | S n' =>
             match rmatch ci r1 c0
                     (fun c' =>
                        if (List.length (rest c') <? List.length (rest c0))%nat
                        then loop n' c' else None) with
             | Some a => Some a
             | None => k c0
             end
         end) (List.length (rest c)) c
  | Bol => match before c with [] => k c | _ :: _ => None end
  | Eol => match rest c with [] => k c | _ :: _ => None end
  | WordB =>
      if xorb (isWordAt (hd_error (before c))) (isWordAt (hd_error (rest c)))
      then k c else None
  | Group r1 =>
      rmatch ci r1 c
        (fun c' =>
           let n := (List.length (before c') - List.length (before c))%nat in
           k (mkCtx (before c') (rest c') (rev (firstn n (before c')) :: caps c')))
  end.

(** A match starting exactly at [c]: the position where it ends. *)
Definition matchAt (ci : bool) (r : re) (c : ctx) : option ctx :=
  rmatch ci r c (fun c' => Some c').

Definition step1 (c : ctx) : ctx :=
  match rest c with
  | x :: xs => mkCtx (x :: before c) xs (caps c)
  | [] => c
  end.

(** The leftmost match at or after a position: where it starts and ends. *)
Fixpoint searchFrom (ci : bool) (r : re) (bef rst : list N) : option (ctx * ctx) :=
  match matchAt ci r (mkCtx bef rst []) with
  | Some c' => Some (mkCtx bef rst [], c')
  | None =>
      match rst with
      | [] => None
      | x :: rst' => searchFrom ci r (x :: bef) rst'
      end
  end.

(** The text between two positions of one subject. *)
Definition between (c0 c1 : ctx) : jsstring :=
  firstn (List.length (rest c0) - List.length (rest c1)) (rest c0).

(** [r.test(s)]. *)
Definition test (ci : bool) (r : re) (s : jsstring) : bool :=
  match searchFrom ci r [] s with
  | Some _ => true
  | None => false
  end.

(** [s.match(r)] without the [g] flag: the whole match, then the groups. *)
Definition exec (ci : bool) (r : re) (s : jsstring) : option (list jsstring) :=
  match searchFrom ci r [] s with
  | Some (c0, c1) => Some (between c0 c1 :: rev (caps c1))
  | None => None
  end.

(** [s.match(r)] with the [g] flag: all matches, left to right, each
    search resuming where the previous match ended (one unit further
    after an empty match). *)
Fixpoint matchAllFrom (fuel : nat) (ci : bool) (r : re) (c : ctx) : list jsstring :=
  match fuel with
  | O => []
  | S f =>
      match searchFrom ci r (before c) (rest c) with
      | None => []
      | Some (c0, c1) =>
          between c0 c1 ::
            (if (List.length (rest c1) <? List.length (rest c0))%nat
             then matchAllFrom f ci r c1
             else match rest c1 with
                  | [] => []
                  | _ :: _ => matchAllFrom f ci r (step1 c1)
                  end)
      end
  end.

Definition matchAll (ci : bool) (r : re) (s : jsstring) : list jsstring :=
  matchAllFrom (S (S (List.length s))) ci r (start s).

(** [s.replace(r, repl)] with the [g] flag and a constant replacement. *)
Fixpoint replaceFrom (fuel : nat) (ci : bool) (r : re) (repl : jsstring) (c : ctx)
    : jsstring :=
  match fuel with
  | O => rest c
  | S f =>
      match searchFrom ci r (before c) (rest c) with
      | None => rest c
      | Some (c0, c1) =>
          between c c0 ++ repl ++
            (if (List.length (rest c1) <? List.length (rest c0))%nat
             then replaceFrom f ci r repl c1
             else match rest c1 with
                  | [] => []
                  | x :: _ => x :: replaceFrom f ci r repl (step1 c1)
                  end)
      end
  end.

Definition replaceAll (ci : bool) (r : re) (repl s : jsstring) : jsstring :=
  replaceFrom (S (List.length s)) ci r repl (start s).

(** [s.split(r)] for a separator without groups: the pieces between the
    matches.  [p] is where the current piece began, [q] the position
    tried next; a match that ends where the piece began is skipped. *)
Fixpoint splitFrom (fuel : nat) (ci : bool) (r : re) (p q : ctx) : list jsstring :=
  match fuel with
  | O => [rest p]
  | S f =>
      match rest q with
      | [] => [rest p]
      | _ :: _ =>
          match matchAt ci r (mkCtx (before q) (rest q) []) with
          | None => splitFrom f ci r p (step1 q)
          | Some e =>
              if (List.length (rest e) =? List.length (rest p))%nat
              then splitFrom f ci r p (step1 q)
              else between p q :: splitFrom f ci r e e
          end
      end
  end.

Definition split (ci : bool) (r : re) (s : jsstring) : list jsstring :=
  match s with
  | [] => match matchAt ci r (start s) with Some _ => [] | None => [s] end
  | _ :: _ => splitFrom (S (List.length s)) ci r (start s) (start s)
  end.

End Regex.

(* ===================================================================== *)
(** ** Numbers *)
(* ===================================================================== *)

Module JsNum.

(** A JavaScript number: a finite value, NaN or an infinity.  Finite
    values are kept in lowest terms, so equal numbers are equal terms. *)
Inductive jsnum : Type :=
  | Num (q : Q)
  | NaN
  | PosInf
  | NegInf.

Definition ofZ (z : Z) : jsnum := Num (inject_Z z).

Definition sgn (q : Q) : Z := Z.sgn (Qnum q).

(** [a / b]. *)
Definition div (a b : jsnum) : jsnum :=
  match a, b with
  | NaN, _ | _, NaN => NaN
  | Num x, Num y =>
      if Qeq_bool y 0 then
        match sgn x with
        | 0 => NaN
        | Zpos _ => PosInf
        | Zneg _ => NegInf
        end
      else Num (Qred (x / y))
  | Num _, _ => Num 0
  | PosInf, Num y => if Qle_bool 0 y then PosInf else NegInf
  | NegInf, Num y => if Qle_bool 0 y then NegInf else PosInf
  | _, _ => NaN
  end.

(** [a * b]. *)
Definition mul (a b : jsnum) : jsnum :=
  match a, b with
  | NaN, _ | _, NaN => NaN
  | Num x, Num y => Num (Qred (x * y))
  | Num x, PosInf | PosInf, Num x =>
      match sgn x with 0 => NaN | Zpos _ => PosInf | Zneg _ => NegInf end
  | Num x, NegInf | NegInf, Num x =>
      match sgn x with 0 => NaN | Zpos _ => NegInf | Zneg _ => PosInf end
  | PosInf, PosInf | NegInf, NegInf => PosInf
  | _, _ => NegInf
  end.

(** [a - b]. *)
Definition sub (a b : jsnum) : jsnum :=
  match a, b with
  | NaN, _ | _, NaN => NaN
  | Num x, Num y => Num (Qred (x - y))
  | PosInf, PosInf | NegInf, NegInf => NaN
  | PosInf, _ | _, NegInf => PosInf
  | NegInf, _ | _, PosInf => NegInf
  end.

(** [Math.ceil(a)]. *)
Definition ceil (a : jsnum) : jsnum :=
  match a with
  | Num x => ofZ (Qceiling x)
  | _ => a
  end.

(** [a < b]; false as soon as one side is NaN. *)
Definition lt (a b : jsnum) : bool :=
  match a, b with
  | NaN, _ | _, NaN => false
  | Num x, Num y => negb (Qle_bool y x)
  | NegInf, NegInf | PosInf, _ => false
  | NegInf, _ | _, PosInf => true
  | _, NegInf => false
  end.

(** [a <= b]; false as soon as one side is NaN. *)
Definition le (a b : jsnum) : bool :=
  match a, b with
  | NaN, _ | _, NaN => false
  | NegInf, _ => true
  | _, PosInf => true
  | Num x, Num y => Qle_bool x y
  | _, _ => false
  end.

(** [a >= b]. *)
Definition ge (a b : jsnum) : bool := le b a.

End JsNum.

Import JsNum.

(* ===================================================================== *)
(** ** Dates *)
(* ===================================================================== *)

(** The parts of the ECMAScript [Date] object that the program uses.  A
    time value is a number of milliseconds since 1970-01-01T00:00:00Z;
    a [Date] is [Some] time value, or [None] for an invalid date. *)
Module JsDate.

Definition msPerDay : Z := 86400000.

Definition isLeap (y : Z) : bool :=
  ((y mod 4 =? 0) && (negb (y mod 100 =? 0) || (y mod 400 =? 0)))%bool.

(** Day number of 1 January of year [y]. *)
Definition dayFromYear (y : Z) : Z :=
  365 * (y - 1970) + (y - 1969) / 4 - (y - 1901) / 100 + (y - 1601) / 400.

(** Days of the year before month [m] (0 = January). *)
Definition daysBeforeMonth (leap : bool) (m : Z) : Z :=
  let l := if leap then 1 else 0 in
  match m with
  | 0 => 0
  | 1 => 31
  | 2 => 59 + l
  | 3 => 90 + l
  | 4 => 120 + l
  | 5 => 151 + l
  | 6 => 181 + l
  | 7 => 212 + l
  | 8 => 243 + l
  | 9 => 273 + l
  | 10 => 304 + l
  | _ => 334 + l
  end.

(** [MakeDay(year, month, date)]: months beyond 0..11 carry into the
    year, days beyond the month carry into the following days. *)
Definition makeDay (year month date : Z) : Z :=
  let ym := year + month / 12 in
  let mn := month mod 12 in
  dayFromYear ym + daysBeforeMonth (isLeap ym) mn + date - 1.

(** Year, month (1..12) and day of the month of day [doe] (from 0) of
    the 400-year era number [era]; eras begin on 1 March. *)
Definition civilOfEra (era doe : Z) : Z * Z * Z :=
  let yoe := (doe - doe / 1460 + doe / 36524 - doe / 146096) / 365 in
  let doy := doe - (365 * yoe + yoe / 4 - yoe / 100) in
  let mp := (5 * doy + 2) / 153 in
  let d := doy - (153 * mp + 2) / 5 + 1 in
  let m := if mp <? 10 then mp + 3 else mp - 9 in
  let y := yoe + era * 400 + (if m <=? 2 then 1 else 0) in
  (y, m, d).

(** Year, month (1..12) and day of the month of a day number. *)
Definition civilFromDays (days : Z) : Z * Z * Z :=
  let z := days + 719468 in
  let era := z / 146097 in
  civilOfEra era (z - era * 146097).

(** The local time zone: minutes east of UTC, the same all year. *)
Definition localOfUTC (tzMinutes t : Z) : Z := t + tzMinutes * 60000.
Definition utcOfLocal (tzMinutes t : Z) : Z := t - tzMinutes * 60000.

(** A [Date] object: its time value, [None] when the date is invalid. *)
Definition date : Type := option Z.

(** [TimeClip]: a time value beyond 100,000,000 days from the epoch is
    invalid. *)
Definition timeClip (t : Z) : date :=
  if Z.abs t <=? 8640000000000000 then Some t else None.

(** [new Date(year, monthIndex, day)]: local midnight of that day; a
    year from 0 to 99 stands for 1900 + year. *)
Definition newDateYMD (tzMinutes year monthIndex day : Z) : date :=
  let yr := if ((0 <=? year) && (year <=? 99))%bool then 1900 + year else year in
  timeClip (utcOfLocal tzMinutes (makeDay yr monthIndex day * msPerDay)).

(** [d.getTime()]: NaN for an invalid date. *)
Definition getTime (d : date) : jsnum :=
  match d with
  | Some t => ofZ t
  | None => NaN
  end.

Definition getFullYear (tzMinutes t : Z) : Z :=
  let '(y, _, _) := civilFromDays (localOfUTC tzMinutes t / msPerDay) in y.

(** [getMonth()]: 0 = January. *)
Definition getMonth (tzMinutes t : Z) : Z :=
  let '(_, m, _) := civilFromDays (localOfUTC tzMinutes t / msPerDay) in m - 1.

Definition getDate (tzMinutes t : Z) : Z :=
  let '(_, _, d) := civilFromDays (localOfUTC tzMinutes t / msPerDay) in d.

Definition pad (w : nat) (z : Z) : jsstring := padZeros w (ofN (Z.to_N z)).

(** The year of [toISOString]: four digits from 0 to 9999, otherwise a
    sign and six digits. *)
Definition isoYear (y : Z) : jsstring :=
  if ((0 <=? y) && (y <=? 9999))%bool then pad 4 y
  else (if y <? 0 then lit "-" else lit "+") ++ pad 6 (Z.abs y).

(** [toISOString()] of a valid date: [YYYY-MM-DDTHH:mm:ss.sssZ] in UTC. *)
Definition toISOString (t : Z) : jsstring :=
  let '(y, m, d) := civilFromDays (t / msPerDay) in
  let ms := t mod msPerDay in
  isoYear y ++ lit "-" ++ pad 2 m ++ lit "-" ++ pad 2 d ++ lit "T"
    ++ pad 2 (ms / 3600000) ++ lit ":" ++ pad 2 (ms / 60000 mod 60) ++ lit ":"
    ++ pad 2 (ms / 1000 mod 60) ++ lit "." ++ pad 3 (ms mod 1000) ++ lit "Z".

End JsDate.

(** A value that may be [undefined] or [null]. *)
Inductive nullable (A : Type) : Type :=
  | Undefined
  | Null
  | Val (a : A).

Arguments Undefined {A}.
Arguments Null {A}.
Arguments Val {A} a.

(* ===================================================================== *)
(** ** AmountParser *)
(* ===================================================================== *)

Module AmountParser.

Import Regex.

Record ParsedAmount : Type := mkParsedAmount {
  value : option Q;          (* number | null *)
  isRange : bool;
  isFullTuition : bool;
  isVariable : bool;
  originalText : jsstring
}.

Definition fullCoverageKeywords : list jsstring :=
  [ lit "full tuition";
    lit "full coverage";
    lit "full funding";
    lit "fully funded";
    lit "complete funding";
    lit "total coverage" ].

Definition variableKeywords : list jsstring :=
  [ lit "varies";
    lit "variable";
    lit "tbd";
    lit "to be determined";
    lit "not specified";
    lit "contact";
    lit "inquire" ].

(** The currency signs: dollar, pound, euro, yen, rupee. *)
Definition currencySigns : list citem :=
  [IChar 36; IChar 163; IChar 8364; IChar 165; IChar 8377].

(** [/\d[\d,]*\s*-\s*[\$£€¥₹]?\d/], [/\d\s+to\s+\d/i], [/up\s+to/i],
    [/between\s+/i], each with its [i] flag. *)
Definition rangePatterns : list (bool * re) :=
  [ (false, seql [Digit; Star (Cls [IDigit; IChar 44]); Star Space; Chr 45;
                  Star Space; Opt (Cls currencySigns); Digit]);
    (true, seql [Digit; Plus Space; Word "to"; Plus Space; Digit]);
    (true, seql [Word "up"; Plus Space; Word "to"]);
    (true, seql [Word "between"; Plus Space]) ].

(** [/\d+(?:,\d{3})*(?:\.\d+)?/g] *)
Definition numberPattern : re :=
  seql [Plus Digit; Star (Seq (Chr 44) (Times 3 Digit));
        Opt (Seq (Chr 46) (Plus Digit))].

(** [!text] for a string: it is empty. *)
Definition falsy (text : jsstring) : bool :=
  match text with [] => true | _ :: _ => false end.

Definition isRangeFormat (text : jsstring) : bool :=
  if falsy text then false
  else existsb (fun p => test (fst p) (snd p) text) rangePatterns.

(** [parseFloat] on a run of digits with an optional fraction, the shape
    of every match of [numberPattern] once its commas are removed;
    [None] is NaN. *)
Definition parseFloat (s : jsstring) : option Q :=
  let ip := takeDigits s in
  let fp := match dropDigits s with
            | 46%N :: t => takeDigits t
            | _ => []
            end in
  match ip ++ fp with
  | [] => None
  | ds => Some (Qred (Z.of_N (digitsValue ds)
                      # Z.to_pos (10 ^ Z.of_nat (List.length fp))))
  end.

(** The values of an array after [.filter(n => n !== null)]. *)
Fixpoint dropNulls {A : Type} (l : list (option A)) : list A :=
  match l with
  | [] => []
  | Some a :: l' => a :: dropNulls l'
  | None :: l' => dropNulls l'
  end.

Definition extractAllNumericValues (text : jsstring) : list Q :=
  if falsy text then []
  else
    let cleaned := replaceAll false (Cls currencySigns) [] text in
    let matches := matchAll false numberPattern cleaned in
    dropNulls (map (fun m => parseFloat (replaceAll false (Chr 44) [] m)) matches).

(** [Math.max(a, b)] *)
Definition max2 (a b : Q) : Q := if Qle_bool a b then b else a.

(** [Math.max(...numbers)] on a non-empty array. *)
Definition maxOf (first : Q) (others : list Q) : Q := fold_left max2 others first.

Definition extractMaxFromRange (rangeString : jsstring) : option Q :=
  if falsy rangeString then None
  else
    match extractAllNumericValues rangeString with
    | [] => None
    | [n] => Some n
    | n :: ns => Some (maxOf n ns)
    end.

Definition extractNumericValue (text : jsstring) : option Q :=
  if falsy text then None
  else
    match extractAllNumericValues text with
    | [] => None
    | n :: _ => Some n
    end.

Definition isFullCoverage (text : jsstring) : bool :=
  if falsy text then false
  else
    let normalizedText := trim (toLowerCase text) in
    existsb (fun keyword => includes normalizedText keyword) fullCoverageKeywords.

Definition hasVariableKeyword (normalizedText : jsstring) : bool :=
  existsb (fun keyword => includes normalizedText keyword) variableKeywords.

Definition parse (amountString : nullable jsstring) : ParsedAmount :=
  match amountString with
  | Undefined | Null => mkParsedAmount None false false false []
  | Val text =>
      if falsy text then mkParsedAmount None false false false []
      else
        let normalizedText := trim (toLowerCase text) in
        if isFullCoverage normalizedText then
          mkParsedAmount None false true false text
        else if hasVariableKeyword normalizedText then
          mkParsedAmount None false false true text
        else
          let isRange := isRangeFormat text in
          let value := if isRange then extractMaxFromRange text
                       else extractNumericValue text in
          mkParsedAmount value isRange false false text
  end.

End AmountParser.

(* ===================================================================== *)
(** ** The host environment *)
(* ===================================================================== *)

(** What the program takes from its platform and libraries and this
    development leaves open: the local time zone, the date parser behind
    [new Date(text)], [parseISO] of date-fns, and the well-formedness
    check behind [new URL(text)]. *)
Record Env : Type := mkEnv {
  tzMinutes : Z;
  dateParse : jsstring -> JsDate.date;
  parseISO : jsstring -> JsDate.date;
  urlValid : jsstring -> bool
}.

(* ===================================================================== *)
(** ** DeadlineCalculator *)
(* ===================================================================== *)

Module DeadlineCalculator.

Import JsDate.

Inductive UrgencyCategory : Type := urgent | soon | later | none.

Definition URGENT_THRESHOLD : Z := 30.
Definition SOON_THRESHOLD : Z := 60.
Definition LATER_THRESHOLD : Z := 90.

(** A deadline as the methods receive it:
    [string | Date | null | undefined]. *)
Inductive deadline : Type :=
  | DlUndefined
  | DlNull
  | DlString (s : jsstring)
  | DlDate (d : date).

(** [new Date(d.getFullYear(), d.getMonth(), d.getDate())] *)
Definition midnightOf (env : Env) (t : Z) : date :=
  newDateYMD (tzMinutes env)
    (getFullYear (tzMinutes env) t) (getMonth (tzMinutes env) t)
    (getDate (tzMinutes env) t).

(** [daysUntil(deadline)] when the clock reads [now]: [None] is [null]. *)
Definition daysUntil (env : Env) (now : Z) (dl : deadline) : option jsnum :=
  let compute (deadlineDate : date) :=
    match deadlineDate with
    | None => None
    | Some t =>
        let nowMidnight := midnightOf env now in
        let deadlineMidnight := midnightOf env t in
        let diffMs := JsNum.sub (getTime deadlineMidnight) (getTime nowMidnight) in
        let diffDays := JsNum.ceil (JsNum.div diffMs (ofZ (1000 * 60 * 60 * 24))) in
        Some diffDays
    end in
  match dl with
  | DlUndefined | DlNull => None
  | DlString s =>
      match s with
      | [] => None
      | _ :: _ => compute (dateParse env s)
      end
  | DlDate d => compute d
  end.

Definition isWithinDays (env : Env) (now : Z) (dl : deadline) (days : jsnum) : bool :=
  match daysUntil env now dl with
  | None => false
  | Some daysUntilDeadline =>
      (JsNum.ge daysUntilDeadline (ofZ 0) && JsNum.le daysUntilDeadline days)%bool
  end.

Definition categorizeUrgency (env : Env) (now : Z) (dl : deadline) : UrgencyCategory :=
  match daysUntil env now dl with
  | None => none
  | Some daysUntilDeadline =>
      if JsNum.lt daysUntilDeadline (ofZ 0) then none
      else if JsNum.le daysUntilDeadline (ofZ URGENT_THRESHOLD) then urgent
      else if JsNum.le daysUntilDeadline (ofZ SOON_THRESHOLD) then soon
      else if JsNum.le daysUntilDeadline (ofZ LATER_THRESHOLD) then later
      else none
  end.

End DeadlineCalculator.

(* ===================================================================== *)
(** ** Logging *)
(* ===================================================================== *)

(** The calls to the logger are kept as a list of entries next to the
    value computed. *)
Module Log.

Inductive level : Type := info | warn | error.

Record entry : Type := mkEntry {
  lvl : level;
  text : jsstring
}.

Definition logged (A : Type) : Type := A * list entry.

Definition ret {A : Type} (a : A) : logged A := (a, []).

Definition bind {A B : Type} (m : logged A) (f : A -> logged B) : logged B :=
  let '(a, l1) := m in
  let '(b, l2) := f a in
  (b, l1 ++ l2).

Definition say (l : level) (msg : jsstring) : logged unit := (tt, [mkEntry l msg]).

(** [xs.map(f)] for a logging [f]: entries in the order of the calls. *)
Fixpoint mapM {A B : Type} (f : A -> logged B) (xs : list A) : logged (list B) :=
  match xs with
  | [] => ret []
  | x :: xs' =>
      bind (f x) (fun y => bind (mapM f xs') (fun ys => ret (y :: ys)))
  end.

End Log.

Notation "x <- m ;; k" := (Log.bind m (fun x => k))
  (at level 61, m at next level, right associativity).

(* ===================================================================== *)
(** ** DataNormalizer *)
(* ===================================================================== *)

Module DataNormalizer.

Import Regex JsDate Log.

(** [string | string[]] *)
Inductive oneOrMany : Type :=
  | One (s : jsstring)
  | Many (l : list jsstring).

(** [string | Date] *)
Inductive dateInput : Type :=
  | DateText (s : jsstring)
  | DateObject (d : date).

Record RawScholarship : Type := mkRaw {
  raw_name : jsstring;
  raw_source : jsstring;
  raw_country : oneOrMany;
  raw_degree : oneOrMany;
  raw_deadline : dateInput;
  raw_link : jsstring;
  raw_description : option jsstring;   (* absent when [None] *)
  raw_eligibility : option jsstring;
  raw_amount : option jsstring
}.

Record Scholarship : Type := mkScholarship {
  name : jsstring;
  source : jsstring;
  country : oneOrMany;
  degree : list jsstring;
  deadline : jsstring;
  link : jsstring;
  description : option jsstring;       (* [null] when [None] *)
  eligibility : option jsstring;
  amount : option jsstring;
  scrapedAt : jsstring
}.

(** The tables, in the order of their entries in the source. *)
Definition table : Type := list (jsstring * jsstring).

Definition entry (k v : string) : jsstring * jsstring := (lit k, lit v).

Definition degreeMapping : table :=
  [ entry "bachelor" "Bachelors";
    entry "bachelors" "Bachelors";
    entry "undergraduate" "Bachelors";
    entry "undergrad" "Bachelors";
    entry "bs" "Bachelors";
    entry "ba" "Bachelors";
    entry "bsc" "Bachelors";
    entry "master" "Masters";
    entry "masters" "Masters";
    entry "graduate" "Masters";
    entry "grad" "Masters";
    entry "ms" "Masters";
    entry "ma" "Masters";
    entry "msc" "Masters";
    entry "m.s." "Masters";
    entry "m.a." "Masters";
    entry "phd" "PhD";
    entry "ph.d." "PhD";
    entry "ph.d" "PhD";
    entry "doctorate" "PhD";
    entry "doctoral" "PhD";
    entry "doctor" "PhD";
    entry "postdoc" "Postdoc";
    entry "postdoctoral" "Postdoc";
    entry "post-doctoral" "Postdoc";
    entry "post-doc" "Postdoc" ].

Definition countryMapping : table :=
  [ entry "usa" "United States";
    entry "us" "United States";
    entry "united states of america" "United States";
    entry "uk" "United Kingdom";
    entry "britain" "United Kingdom";
    entry "great britain" "United Kingdom";
    entry "germany" "Germany";
    entry "deutschland" "Germany";
    entry "france" "France";
    entry "spain" "Spain";
    entry "italy" "Italy";
    entry "canada" "Canada";
    entry "australia" "Australia";
    entry "japan" "Japan";
    entry "china" "China";
    entry "india" "India";
    entry "brazil" "Brazil";
    entry "mexico" "Mexico";
    entry "netherlands" "Netherlands";
    entry "sweden" "Sweden";
    entry "norway" "Norway";
    entry "denmark" "Denmark";
    entry "finland" "Finland";
    entry "switzerland" "Switzerland";
    entry "austria" "Austria";
    entry "belgium" "Belgium";
    entry "poland" "Poland";
    entry "portugal" "Portugal";
    entry "greece" "Greece";
    entry "ireland" "Ireland";
    entry "new zealand" "New Zealand";
    entry "south korea" "South Korea";
    entry "singapore" "Singapore" ].

(** [table[key]] for a key among the entries of the table.  (The keys
    that every JavaScript object inherits, such as [constructor], are in
    neither table and are not modelled.) *)
Fixpoint lookup (t : table) (key : jsstring) : option jsstring :=
  match t with
  | [] => None
  | (k, v) :: t' => if streq k key then Some v else lookup t' key
  end.

Definition normalizeName (name : jsstring) : jsstring := trim name.

(** [word.charAt(0).toUpperCase() + word.slice(1).toLowerCase()] *)
Definition capitalizeWord (word : jsstring) : jsstring :=
  match word with
  | [] => []
  | c :: w => upperUnit c :: toLowerCase w
  end.

Definition capitalizeWords (str : jsstring) : jsstring :=
  join (lit " ") (map capitalizeWord (splitOn 32 str)).

Definition normalizeCountryName (country : jsstring) : jsstring :=
  let normalized := toLowerCase (trim country) in
  match lookup countryMapping normalized with
  | Some v => v
  | None => capitalizeWords (trim country)
  end.

Definition normalizeCountry (country : oneOrMany) : oneOrMany :=
  match country with
  | Many l => Many (map normalizeCountryName l)
  | One c => One (normalizeCountryName c)
  end.

(** [/[\/|&]|\band\b|\bor\b/i] *)
Definition degreeSeparator : re :=
  Alt (Cls [IChar 47; IChar 124; IChar 38])
      (Alt (seql [WordB; Word "and"; WordB])
           (seql [WordB; Word "or"; WordB])).

Definition nonEmpty (s : jsstring) : bool :=
  match s with [] => false | _ :: _ => true end.

Definition splitDegrees (degree : jsstring) : list jsstring :=
  filter nonEmpty (map trim (split true degreeSeparator degree)).

(** The first entry of the table, in its order, whose key occurs in
    [normalized]. *)
Fixpoint firstContained (t : table) (normalized : jsstring) : option jsstring :=
  match t with
  | [] => None
  | (key, value) :: t' =>
      if includes normalized key then Some value else firstContained t' normalized
  end.

Definition normalizeDegreeLevel (degree : jsstring) : logged (option jsstring) :=
  let normalized := toLowerCase (trim degree) in
  match lookup degreeMapping normalized with
  | Some v => ret (Some v)
  | None =>
      match firstContained degreeMapping normalized with
      | Some v => ret (Some v)
      | None =>
          _ <- say warn (lit "Unrecognized degree level: " ++ degree) ;;
          ret (Some (capitalizeWords degree))
      end
  end.

(** [[...new Set(xs)]]: the distinct values of [xs], each at the place
    of its first occurrence. *)
Fixpoint setAdd (seen : list jsstring) (xs : list jsstring) : list jsstring :=
  match xs with
  | [] => seen
  | x :: xs' =>
      if existsb (streq x) seen then setAdd seen xs'
      else setAdd (seen ++ [x]) xs'
  end.

Definition distinct (xs : list jsstring) : list jsstring := setAdd [] xs.

Definition normalizeDegree (degree : oneOrMany) : logged (list jsstring) :=
  let degrees := match degree with Many l => l | One d => [d] end in
  levels <- mapM normalizeDegreeLevel (flat_map splitDegrees degrees) ;;
  let normalized := AmountParser.dropNulls levels in
  ret (distinct normalized).

(** [/^(\d{1,2})\/(\d{1,2})\/(\d{4})$/], [/^(\d{1,2})-(\d{1,2})-(\d{4})$/],
    [/^(\d{4})-(\d{1,2})-(\d{1,2})$/] *)
Definition formats : list re :=
  [ seql [Bol; Group (Rep 1 2 Digit); Chr 47; Group (Rep 1 2 Digit); Chr 47;
          Group (Times 4 Digit); Eol];
    seql [Bol; Group (Rep 1 2 Digit); Chr 45; Group (Rep 1 2 Digit); Chr 45;
          Group (Times 4 Digit); Eol];
    seql [Bol; Group (Times 4 Digit); Chr 45; Group (Rep 1 2 Digit); Chr 45;
          Group (Rep 1 2 Digit); Eol] ].

(** [parseInt] on a run of digits. *)
Definition parseInt (s : jsstring) : Z := Z.of_N (digitsValue s).

(** The date read from the groups of one matching format. *)
Definition dateOfMatch (env : Env) (text : jsstring) (g1 g2 g3 : jsstring) : date :=
  if includes text (lit "/") then
    let '(month, day, year) := (g1, g2, g3) in
    newDateYMD (tzMinutes env) (parseInt year) (parseInt month - 1) (parseInt day)
  else if (includes text (lit "-") && (List.length g1 =? 4)%nat)%bool then
    let '(year, month, day) := (g1, g2, g3) in
    newDateYMD (tzMinutes env) (parseInt year) (parseInt month - 1) (parseInt day)
  else
    let '(day, month, year) := (g1, g2, g3) in
    newDateYMD (tzMinutes env) (parseInt year) (parseInt month - 1) (parseInt day).

(** The loop over [formats]: the first format that matches and gives a
    valid date. *)
Fixpoint tryFormats (env : Env) (text : jsstring) (fs : list re) : date :=
  match fs with
  | [] => None
  | formatRegex :: fs' =>
      match exec false formatRegex text with
      | Some [_; g1; g2; g3] =>
          match dateOfMatch env text g1 g2 g3 with
          | Some t => Some t
          | None => tryFormats env text fs'
          end
      | _ => tryFormats env text fs'
      end
  end.

Definition normalizeDate (env : Env) (d : dateInput) : logged jsstring :=
  match d with
  | DateObject (Some t) => ret (toISOString t)
  | DateObject None =>
      (* toISOString throws on an invalid date; the handler logs and
         returns String(date) *)
      _ <- say error (lit "Error normalizing date: Invalid Date") ;;
      ret (lit "Invalid Date")
  | DateText text =>
      match parseISO env text with
      | Some t => ret (toISOString t)
      | None =>
          match tryFormats env text formats with
          | Some t => ret (toISOString t)
          | None =>
              match dateParse env text with
              | Some t => ret (toISOString t)
              | None =>
                  _ <- say warn (lit "Unable to parse date: " ++ text) ;;
                  ret text
              end
          end
      end
  end.

Definition normalizeURL (env : Env) (url : jsstring) : logged jsstring :=
  let trimmed := trim url in
  if (negb (startsWith trimmed (lit "http://"))
      && negb (startsWith trimmed (lit "https://")))%bool then
    ret (lit "https://" ++ trimmed)
  else if urlValid env trimmed then
    ret trimmed
  else
    (* new URL(trimmed) throws; the handler logs and returns url *)
    _ <- say warn (lit "Invalid URL: " ++ url) ;;
    ret url.

(** [normalize(raw)] when the clock reads [now]. *)
Definition normalize (env : Env) (now : Z) (raw : RawScholarship) : logged Scholarship :=
  let name := normalizeName (raw_name raw) in
  let country := normalizeCountry (raw_country raw) in
  degree <- normalizeDegree (raw_degree raw) ;;
  deadline <- normalizeDate env (raw_deadline raw) ;;
  link <- normalizeURL env (raw_link raw) ;;
  ret (mkScholarship name (raw_source raw) country degree deadline link
         (raw_description raw) (raw_eligibility raw) (raw_amount raw)
         (toISOString now)).

End DataNormalizer.

(* ===================================================================== *)
(** ** ScholarshipValidator *)
(* ===================================================================== *)

Module ScholarshipValidator.

Import Regex.

(** The fields named by the schema. *)
Inductive field : Type :=
  | f_name | f_source | f_link
  | f_country | f_degree | f_deadline | f_description | f_eligibility | f_amount.

Definition fieldName (f : field) : jsstring :=
  match f with
  | f_name => lit "name"
  | f_source => lit "source"
  | f_link => lit "link"
  | f_country => lit "country"
  | f_degree => lit "degree"
  | f_deadline => lit "deadline"
  | f_description => lit "description"
  | f_eligibility => lit "eligibility"
  | f_amount => lit "amount"
  end.

(** What [scholarship[field]] can hold: nothing, [null], a string or an
    array of strings. *)
Inductive jsval : Type :=
  | VUndefined
  | VNull
  | VStr (s : jsstring)
  | VArr (l : list jsstring).

(** A record as the validator reads it: the value under each field. *)
Definition record : Type := field -> jsval.

Record constraint : Type := mkConstraint {
  minLength : option nat;
  maxLength : option nat;
  pattern : option re
}.

(** [/^https?:\/\/.+/] *)
Definition linkPattern : re :=
  seql [Bol; Word "http"; Opt (Chr 115); Chr 58; Chr 47; Chr 47; Plus Dot].

Module SCHOLARSHIP_SCHEMA.

Definition required : list field := [f_name; f_source; f_link].

Definition optional : list field :=
  [f_country; f_degree; f_deadline; f_description; f_eligibility; f_amount].

Definition constraints (f : field) : option constraint :=
  match f with
  | f_name => Some (mkConstraint (Some 3%nat) (Some 500%nat) None)
  | f_source => Some (mkConstraint (Some 2%nat) (Some 100%nat) None)
  | f_link => Some (mkConstraint None None (Some linkPattern))
  | f_description => Some (mkConstraint None (Some 5000%nat) None)
  | f_eligibility => Some (mkConstraint None (Some 3000%nat) None)
  | f_amount => Some (mkConstraint None (Some 200%nat) None)
  | f_country => Some (mkConstraint None (Some 200%nat) None)
  | f_degree => Some (mkConstraint None (Some 200%nat) None)
  | f_deadline => None
  end.

End SCHOLARSHIP_SCHEMA.

Inductive severity : Type := critical | major | minor.

Record ValidationError : Type := mkError {
  err_field : field;
  err_message : jsstring;
  err_severity : severity
}.

Record ValidationWarning : Type := mkWarning {
  warn_field : field;
  warn_message : jsstring;
  warn_suggestion : option jsstring
}.

Record ValidationResult : Type := mkResult {
  isValid : bool;
  errors : list ValidationError;
  warnings : list ValidationWarning
}.

(** [value === undefined || value === null || value === ''] *)
Definition missingOrEmpty (value : jsval) : bool :=
  match value with
  | VUndefined | VNull | VStr [] => true
  | _ => false
  end.

(** [String(value)] of a present value. *)
Definition stringOf (value : jsval) : jsstring :=
  match value with
  | VUndefined => lit "undefined"
  | VNull => lit "null"
  | VStr s => s
  | VArr l => join (lit ",") l
  end.

Definition ofNat (n : nat) : jsstring := ofN (N.of_nat n).

(** The two arrays that [validate] fills. *)
Definition reports : Type := list ValidationError * list ValidationWarning.

Definition pushError (e : ValidationError) (r : reports) : reports :=
  (fst r ++ [e], snd r).

Definition pushWarning (w : ValidationWarning) (r : reports) : reports :=
  (fst r, snd r ++ [w]).

Definition validateFieldConstraints (f : field) (value : jsval) (r : reports) : reports :=
  match SCHOLARSHIP_SCHEMA.constraints f with
  | None => r
  | Some c =>
      let stringValue := stringOf value in
      let r1 :=
        match minLength c with
        | Some m =>
            if (List.length stringValue <? m)%nat then
              pushError (mkError f
                (lit "Field '" ++ fieldName f ++ lit "' must be at least "
                   ++ ofNat m ++ lit " characters") major) r
            else r
        | None => r
        end in
      let r2 :=
        match maxLength c with
        | Some m =>
            if (m <? List.length stringValue)%nat then
              pushWarning (mkWarning f
                (lit "Field '" ++ fieldName f ++ lit "' exceeds maximum length of "
                   ++ ofNat m ++ lit " characters")
                (Some (lit "Value will be truncated"))) r1
            else r1
        | None => r1
        end in
      match pattern c with
      | Some p =>
          if negb (test false p stringValue) then
            pushError (mkError f
              (lit "Field '" ++ fieldName f ++ lit "' does not match required pattern")
              major) r2
          else r2
      | None => r2
      end
  end.

(** One turn of the loop over the required fields. *)
Definition checkRequired (scholarship : record) (r : reports) (f : field) : reports :=
  let value := scholarship f in
  if missingOrEmpty value then
    pushError (mkError f
      (lit "Required field '" ++ fieldName f ++ lit "' is missing or empty")
      critical) r
  else validateFieldConstraints f value r.

(** One turn of the loop over the optional fields. *)
Definition checkOptional (scholarship : record) (r : reports) (f : field) : reports :=
  let value := scholarship f in
  if negb (missingOrEmpty value) then validateFieldConstraints f value r
  else r.

Definition validate (scholarship : record) : ValidationResult :=
  let r0 : reports := ([], []) in
  let r1 := fold_left (checkRequired scholarship) SCHOLARSHIP_SCHEMA.required r0 in
  let r2 := fold_left (checkOptional scholarship) SCHOLARSHIP_SCHEMA.optional r1 in
  mkResult (match fst r2 with [] => true | _ :: _ => false end) (fst r2) (snd r2).

(** The record view of a normalized scholarship. *)
Definition view (s : DataNormalizer.Scholarship) : record :=
  fun f =>
    let opt (o : option jsstring) :=
      match o with Some x => VStr x | None => VNull end in
    match f with
    | f_name => VStr (DataNormalizer.name s)
    | f_source => VStr (DataNormalizer.source s)
    | f_link => VStr (DataNormalizer.link s)
    | f_country =>
        match DataNormalizer.country s with
        | DataNormalizer.One c => VStr c
        | DataNormalizer.Many l => VArr l
        end
    | f_degree => VArr (DataNormalizer.degree s)
    | f_deadline => VStr (DataNormalizer.deadline s)
    | f_description => opt (DataNormalizer.description s)
    | f_eligibility => opt (DataNormalizer.eligibility s)
    | f_amount => opt (DataNormalizer.amount s)
    end.

End ScholarshipValidator.

(* ===================================================================== *)
(** ** Exceptions *)
(* ===================================================================== *)

Module Exn.

(** An [Error] object. *)
Record JsError : Type := mkJsError {
  errName : jsstring;
  message : jsstring
}.

(** How a call ends: it returns a value or throws (a promise: it is
    fulfilled or rejected). *)
Inductive outcome (T : Type) : Type :=
  | Returns (v : T)
  | Throws (e : JsError).

Arguments Returns {T} v.
Arguments Throws {T} e.

Definition bind {A B : Type} (m : outcome A) (f : A -> outcome B) : outcome B :=
  match m with
  | Returns a => f a
  | Throws e => Throws e
  end.

(** [try { body } catch (error) { handler(error) }] *)
Definition tryCatch {A : Type} (body : outcome A) (handler : JsError -> outcome A)
    : outcome A :=
  match body with
  | Returns a => Returns a
  | Throws e => handler e
  end.

(** [Promise.all] over the promises of a list, in the order of the list:
    the values in that order, or the rejection of the first that rejects. *)
Fixpoint all {A : Type} (ps : list (outcome A)) : outcome (list A) :=
  match ps with
  | [] => Returns []
  | p :: ps' => bind p (fun a => bind (all ps') (fun l => Returns (a :: l)))
  end.

End Exn.

(* ===================================================================== *)
(** ** RetryHandler *)
(* ===================================================================== *)

Module RetryHandler.

Import Exn.

(** [RetryOptions]: every field may be absent.  [onRetry] says whether
    an observer is passed; its calls are recorded in the trace. *)
Record RetryOptions : Type := mkOptions {
  opt_retries : option nat;
  opt_baseDelay : option Z;
  opt_maxDelay : option Z;
  onRetry : bool
}.

Definition noOptions : RetryOptions := mkOptions None None None false.

(** The handler object: the fields set by its constructor. *)
Record handler : Type := mkHandler {
  retries : nat;
  baseDelay : Z;
  maxDelay : Z
}.

(** [a ?? b] *)
Definition orElse {A : Type} (a : option A) (b : A) : A :=
  match a with
  | Some x => x
  | None => b
  end.

(** [new RetryHandler(options)] *)
Definition create (options : RetryOptions) : handler :=
  mkHandler (orElse (opt_retries options) 3%nat)
            (orElse (opt_baseDelay options) 1000)
            (orElse (opt_maxDelay options) 10000).

(** What [executeWithRetry] does that can be seen from outside, in the
    order in which it does it. *)
Inductive event : Type :=
  | Call (attempt : nat)                        (* fn() *)
  | LogFailed (attempts : nat) (e : JsError)    (* logger.error: all attempts failed *)
  | LogRetrying (attempt : nat) (delay : Z) (e : JsError)   (* logger.warn *)
  | OnRetry (attempt : nat) (e : JsError)       (* onRetry(attempt + 1, lastError) *)
  | Delay (ms : Z).                             (* await this.delay(delay) *)

Section Loop.

Context {T : Type}.

(** The operation: [fn k] is how its call number [k] (from 0) ends. *)
Variable fn : nat -> outcome T.
Variables (retries : nat) (baseDelay maxDelay : Z) (observer : bool).

(** The loop [for (attempt = 0; attempt <= retries; attempt++)], from
    the turn [attempt] on; [remaining] is [retries - attempt], so that
    [remaining = 0] is the test [attempt === retries].  The counter of a
    natural number of retries always reaches that test, hence the
    [throw lastError!] after the loop is never run. *)
Fixpoint loop (attempt remaining : nat) : outcome T * list event :=
  match fn attempt with
  | Returns v => (Returns v, [Call attempt])
  | Throws lastError =>
      match remaining with
      | O =>
          (Throws lastError, [Call attempt; LogFailed (retries + 1) lastError])
      | S remaining' =>
          let delay := Z.min (baseDelay * 2 ^ Z.of_nat attempt) maxDelay in
          let '(result, trace) := loop (S attempt) remaining' in
          (result,
           [Call attempt; LogRetrying (attempt + 1) delay lastError]
             ++ (if observer then [OnRetry (attempt + 1) lastError] else [])
             ++ [Delay delay] ++ trace)
      end
  end.

End Loop.

(** [handler.executeWithRetry(fn, options)]: how it ends, and its trace. *)
Definition executeWithRetry {T : Type} (h : handler) (fn : nat -> outcome T)
    (options : RetryOptions) : outcome T * list event :=
  let retries := orElse (opt_retries options) (retries h) in
  let baseDelay := orElse (opt_baseDelay options) (baseDelay h) in
  let maxDelay := orElse (opt_maxDelay options) (maxDelay h) in
  loop fn retries baseDelay maxDelay (onRetry options) 0 retries.

End RetryHandler.

(* ===================================================================== *)
(** ** RateLimiter *)
(* ===================================================================== *)

Module RateLimiter.

(** The limiter object.  [queue] holds the callers waiting to be
    resumed by [processQueue]. *)
Record limiter : Type := mkLimiter {
  requestsPerSecond : Q;
  interval : Q;
  lastRequestTime : Z;
  queue : list nat
}.

(** [new RateLimiter({requestsPerSecond})] *)
Definition create (rps : Q) : limiter := mkLimiter rps (1000 / rps)%Q 0 [].

Definition getRate (l : limiter) : Q := requestsPerSecond l.

Definition setRate (rps : Q) (l : limiter) : limiter :=
  mkLimiter rps (1000 / rps)%Q (lastRequestTime l) (queue l).

(** How [waitForSlot] lets its caller through: at once, or from a timer
    set to [timeToWait] milliseconds. *)
Inductive admission : Type :=
  | AtOnce
  | AfterTimer (timeToWait : Q).

(** [Math.max(0, x)] *)
Definition max0 (x : Q) : Q := if Qle_bool x 0 then 0%Q else x.

(** The body of the promise in [waitForSlot], run when the clock reads
    [now]. *)
Definition waitForSlot (l : limiter) (now : Z) : limiter * admission :=
  let timeSinceLastRequest := (now - lastRequestTime l)%Z in
  let timeToWait := max0 (interval l - inject_Z timeSinceLastRequest)%Q in
  if Qeq_bool timeToWait 0 then
    (mkLimiter (requestsPerSecond l) (interval l) now (queue l), AtOnce)
  else
    (l, AfterTimer timeToWait).

(** The callback of the timer, run when the clock reads [now]. *)
Definition timerFired (l : limiter) (now : Z) : limiter :=
  mkLimiter (requestsPerSecond l) (interval l) now (queue l).

(** [processQueue()]; the caller taken from the queue is resumed. *)
Definition processQueue (l : limiter) : limiter * option nat :=
  match queue l with
  | [] => (l, None)
  | next :: q => (mkLimiter (requestsPerSecond l) (interval l) (lastRequestTime l) q,
                  Some next)
  end.


(** *** Callers of one limiter on the event loop

    The callers of a limiter are tasks of one event loop.  Two things
    happen to the limiter: a caller enters [throttle] ([Enter]), or the
    timer of a waiting caller fires ([Fire]); each comes with the clock
    reading at that moment.  A caller is admitted -- its operation
    begins -- when [waitForSlot] resolves. *)

Inductive event : Type :=
  | Enter (caller : nat) (now : Z)
  | Fire (caller : nat) (now : Z).

Record state : Type := mkState {
  lim : limiter;
  timers : list (nat * Q);       (* waiting caller, earliest time of firing *)
  admitted : list (nat * Z);     (* callers let through, in order, with the
                                    timestamp the limiter recorded *)
  clock : Z                      (* reading at the latest event *)
}.

Definition initial (rps : Q) : state := mkState (create rps) [] [] 0.

Fixpoint findTimer (caller : nat) (ts : list (nat * Q)) : option Q :=
  match ts with
  | [] => None
  | (c, due) :: ts' => if Nat.eqb c caller then Some due else findTimer caller ts'
  end.

Fixpoint dropTimer (caller : nat) (ts : list (nat * Q)) : list (nat * Q) :=
  match ts with
  | [] => []
  | (c, due) :: ts' => if Nat.eqb c caller then ts' else (c, due) :: dropTimer caller ts'
  end.

(** One event; [None] when it cannot happen: the clock does not run
    backwards, and a timer fires only once set and not before its time. *)
Definition step (s : state) (e : event) : option state :=
  match e with
  | Enter caller now =>
      if (now <? clock s)%Z then None
      else
        match waitForSlot (lim s) now with
        | (l', AtOnce) =>
            Some (mkState l' (timers s) (admitted s ++ [(caller, now)]) now)
        | (l', AfterTimer timeToWait) =>
            Some (mkState l' (timers s ++ [(caller, (inject_Z now + timeToWait)%Q)])
                    (admitted s) now)
        end
  | Fire caller now =>
      if (now <? clock s)%Z then None
      else
        match findTimer caller (timers s) with
        | None => None
        | Some due =>
            if Qle_bool due (inject_Z now) then
              Some (mkState (timerFired (lim s) now) (dropTimer caller (timers s))
                      (admitted s ++ [(caller, now)]) now)
            else None
        end
  end.

Fixpoint run (s : state) (es : list event) : option state :=
  match es with
  | [] => Some s
  | e :: es' =>
      match step s e with
      | Some s' => run s' es'
      | None => None
      end
  end.



(** Every two admissions in a row are at least [gap] milliseconds apart. *)
Fixpoint spaced (gap : Q) (l : list (nat * Z)) : Prop :=
  match l with
  | [] => True
  | (_, t1) :: l' =>
      match l' with
      | [] => True
      | (_, t2) :: _ => (inject_Z t1 + gap <= inject_Z t2)%Q /\ spaced gap l'
      end
  end.

End RateLimiter.

(* ===================================================================== *)
(** ** ScraperOrchestrator *)
(* ===================================================================== *)

Module ScraperOrchestrator.

Import Exn DataNormalizer.

(** A source extractor: its name, and how each call of [scrape()] ends
    ([scrape k] for call number [k], from 0). *)
Record ScholarshipScraper : Type := mkScraper {
  scraperName : jsstring;
  scrape : nat -> outcome (list RawScholarship)
}.

Record RetryConfig : Type := mkRetryConfig {
  cfg_retries : nat;
  cfg_baseDelay : Z;
  cfg_maxDelay : Z
}.

Record ScraperConfig : Type := mkConfig {
  concurrency : nat;
  retry : RetryConfig
}.

Record ScraperResult : Type := mkScraperResult {
  res_source : jsstring;
  scholarships : list Scholarship;
  count : nat;
  processingTime : Z;
  success : bool;
  error : option jsstring
}.

Record ScraperSummary : Type := mkSummary {
  totalScholarships : nat;
  successfulSources : nat;
  failedSources : nat;
  totalProcessingTime : Z;
  successRate : jsnum;
  results : list ScraperResult
}.

(** The readings of the clock during one run: at the start and the end
    of [scrapeAll], at the start and the end of the work on source
    number [i], and when record [j] of source [i] is normalized. *)
Record Clock : Type := mkClock {
  runStart : Z;
  runEnd : Z;
  sourceStart : nat -> Z;
  sourceEnd : nat -> Z;
  normalizedAt : nat -> nat -> Z
}.

(** [xs.map((x, j) => f j x)], counting from [j0]. *)
Fixpoint mapi {A B : Type} (f : nat -> A -> B) (j0 : nat) (xs : list A) : list B :=
  match xs with
  | [] => []
  | x :: xs' => f j0 x :: mapi f (S j0) xs'
  end.

Record orchestrator : Type := mkOrchestrator {
  scrapers : list ScholarshipScraper;
  config : ScraperConfig;
  retryHandler : RetryHandler.handler
}.

(** [new ScraperOrchestrator({config, scrapers})] *)
Definition create (cfg : ScraperConfig) (ss : list ScholarshipScraper) : orchestrator :=
  mkOrchestrator ss cfg
    (RetryHandler.create
       (RetryHandler.mkOptions (Some (cfg_retries (retry cfg)))
          (Some (cfg_baseDelay (retry cfg))) (Some (cfg_maxDelay (retry cfg)))
          false)).

(** [scrapeSource(scraper)] for the scraper at place [i] of the list. *)
Definition scrapeSource (env : Env) (clock : Clock) (o : orchestrator)
    (i : nat) (scraper : ScholarshipScraper) : outcome ScraperResult :=
  let startTime := sourceStart clock i in
  tryCatch
    (bind
       (fst (RetryHandler.executeWithRetry (retryHandler o) (scrape scraper)
               (RetryHandler.mkOptions
                  (Some (cfg_retries (retry (config o))))
                  (Some (cfg_baseDelay (retry (config o))))
                  (Some (cfg_maxDelay (retry (config o))))
                  true)))
       (fun rawScholarships =>
          let normalizedScholarships :=
            mapi (fun j raw => fst (normalize env (normalizedAt clock i j) raw))
                 0 rawScholarships in
          let processingTime := sourceEnd clock i - startTime in
          Returns (mkScraperResult (scraperName scraper) normalizedScholarships
                     (List.length normalizedScholarships) processingTime true None)))
    (fun err =>
       let processingTime := sourceEnd clock i - startTime in
       Returns (mkScraperResult (scraperName scraper) [] 0 processingTime false
                  (Some (message err)))).

(** [scrapeAll()].  The pool only bounds how many sources are worked on
    at a time; [Promise.all] gives the results in the order of the list
    of scrapers. *)
Definition scrapeAll (env : Env) (clock : Clock) (o : orchestrator)
    : outcome ScraperSummary :=
  let startTime := runStart clock in
  bind (all (mapi (scrapeSource env clock o) 0 (scrapers o)))
    (fun results =>
       let totalProcessingTime := runEnd clock - startTime in
       let successfulResults := filter (fun r => success r) results in
       let failedResults := filter (fun r => negb (success r)) results in
       let totalScholarships :=
         fold_left (fun sum r => (sum + count r)%nat) successfulResults 0%nat in
       let successRate :=
         JsNum.mul
           (JsNum.div (ofZ (Z.of_nat (List.length successfulResults)))
                      (ofZ (Z.of_nat (List.length results))))
           (ofZ 100) in
       Returns (mkSummary totalScholarships (List.length successfulResults)
                  (List.length failedResults) totalProcessingTime successRate
                  results)).

Definition getScholarships (summary : ScraperSummary) : list Scholarship :=
  flat_map scholarships (filter (fun r => success r) (results summary)).

End ScraperOrchestrator.

(* ===================================================================== *)
(** ** A sample host *)
(* ===================================================================== *)

(** A host for the worked examples: the UTC zone; date parsers that
    read the form YYYY-MM-DD and nothing else; a URL check that wants
    something after the scheme and no white space. *)
Module SampleHost.

Import Regex JsDate.

(** [/^(\d{4})-(\d{2})-(\d{2})$/] *)
Definition isoDay : re :=
  seql [Bol; Group (Times 4 Digit); Chr 45; Group (Times 2 Digit); Chr 45;
        Group (Times 2 Digit); Eol].

Definition readIsoDay (text : jsstring) : date :=
  match exec false isoDay text with
  | Some [_; y; m; d] =>
      let month := Z.of_N (digitsValue m) in
      let day := Z.of_N (digitsValue d) in
      if ((1 <=? month) && (month <=? 12) && (1 <=? day) && (day <=? 31))%bool
      then Some (makeDay (Z.of_N (digitsValue y)) (month - 1) day * msPerDay)
      else None
  | _ => None
  end.

(** A text is taken as a well-formed URL when something follows its
    scheme and it holds no white space. *)
Definition wellFormed (text : jsstring) : bool :=
  let body :=
    if startsWith text (lit "https://") then Some (skipn 8 text)
    else if startsWith text (lit "http://") then Some (skipn 7 text)
    else None in
  match body with
  | Some (c :: b) => forallb (fun x => negb (isSpace x)) (c :: b)
  | _ => false
  end.

Definition hostUTC : Env := mkEnv 0 readIsoDay readIsoDay wellFormed.

End SampleHost.

Import SampleHost.

(* ===================================================================== *)
(** ** FilterState *)
(* ===================================================================== *)

Module FilterState.

Import Log.

(** The four filters of the search page. *)
Record state : Type := mkState {
  amountRange : jsstring;
  deadlineRange : jsstring;
  country : jsstring;
  degree : jsstring
}.

(** [new FilterState()] *)
Definition create : state := mkState (lit "any") (lit "any") [] [].

(** [setFilter(filterName, value)]: the object has the four fields as
    its own properties, and no other. *)
Definition setFilter (filterName value : jsstring) (s : state) : logged state :=
  if streq filterName (lit "amountRange") then
    ret (mkState value (deadlineRange s) (country s) (degree s))
  else if streq filterName (lit "deadlineRange") then
    ret (mkState (amountRange s) value (country s) (degree s))
  else if streq filterName (lit "country") then
    ret (mkState (amountRange s) (deadlineRange s) value (degree s))
  else if streq filterName (lit "degree") then
    ret (mkState (amountRange s) (deadlineRange s) (country s) value)
  else
    _ <- say warn (lit "Unknown filter: " ++ filterName) ;;
    ret s.

Definition resetAll (s : state) : state :=
  mkState (lit "any") (lit "any") [] [].

(** [getActiveFilters()]: the object returned, as its entries in the
    order in which they are set. *)
Definition getActiveFilters (s : state) : list (jsstring * jsstring) :=
  (if negb (streq (amountRange s) (lit "any"))
   then [(lit "amountRange", amountRange s)] else [])
  ++ (if negb (streq (deadlineRange s) (lit "any"))
      then [(lit "deadlineRange", deadlineRange s)] else [])
  ++ (if negb (streq (country s) [])
      then [(lit "country", country s)] else [])
  ++ (if negb (streq (degree s) [])
      then [(lit "degree", degree s)] else []).

Definition hasActiveFilters (s : state) : bool :=
  (negb (streq (amountRange s) (lit "any"))
   || negb (streq (deadlineRange s) (lit "any"))
   || negb (streq (country s) [])
   || negb (streq (degree s) []))%bool.

End FilterState.

(* ===================================================================== *)
(** ** FilterEngine *)
(* ===================================================================== *)

Module FilterEngine.

Import Log.

(** A scholarship as the filter engine reads it. *)
Record Scholarship : Type := mkScholarship {
  amount : nullable jsstring;
  deadline : DeadlineCalculator.deadline;
  country : nullable jsstring;
  degree : nullable jsstring
}.

Inductive specialRange : Type := full | none.

Record AmountRangeConfig : Type := mkAmountRange {
  min : option jsnum;
  max : option jsnum;
  special : option specialRange;
  label : jsstring
}.

Record DeadlineRangeConfig : Type := mkDeadlineRange {
  days : jsnum;
  dl_label : jsstring
}.

(** What [table[key]] gives: an entry of the table, one of the members
    that every object inherits (which has none of the fields of an
    entry), or nothing. *)
Inductive found (A : Type) : Type :=
  | Own (a : A)
  | Inherited
  | Absent.

Arguments Own {A} a.
Arguments Inherited {A}.
Arguments Absent {A}.

(** The names of the members of [Object.prototype]. *)
Definition inheritedKeys : list jsstring :=
  [ lit "constructor"; lit "hasOwnProperty"; lit "isPrototypeOf";
    lit "propertyIsEnumerable"; lit "toLocaleString"; lit "toString";
    lit "valueOf"; lit "__proto__"; lit "__defineGetter__";
    lit "__defineSetter__"; lit "__lookupGetter__"; lit "__lookupSetter__" ].

Fixpoint find {A : Type} (table : list (jsstring * A)) (key : jsstring) : found A :=
  match table with
  | [] => if existsb (streq key) inheritedKeys then Inherited else Absent
  | (k, v) :: table' => if streq k key then Own v else find table' key
  end.

Definition AMOUNT_RANGES : list (jsstring * AmountRangeConfig) :=
  [ (lit "any", mkAmountRange (Some (ofZ 0)) (Some PosInf) None (lit "Any Amount"));
    (lit "under-5k", mkAmountRange (Some (ofZ 0)) (Some (ofZ 5000)) None
                       (lit "Under $5,000"));
    (lit "5k-10k", mkAmountRange (Some (ofZ 5000)) (Some (ofZ 10000)) None
                     (lit "$5,000 - $10,000"));
    (lit "10k-20k", mkAmountRange (Some (ofZ 10000)) (Some (ofZ 20000)) None
                      (lit "$10,000 - $20,000"));
    (lit "20k-plus", mkAmountRange (Some (ofZ 20000)) (Some PosInf) None
                       (lit "$20,000+"));
    (lit "full-tuition", mkAmountRange None None (Some full) (lit "Full Tuition"));
    (lit "not-specified", mkAmountRange None None (Some none)
                            (lit "Amount Not Specified")) ].

Definition DEADLINE_RANGES : list (jsstring * DeadlineRangeConfig) :=
  [ (lit "any", mkDeadlineRange PosInf (lit "Any Deadline"));
    (lit "within-30", mkDeadlineRange (ofZ 30) (lit "Due within 30 days"));
    (lit "within-60", mkDeadlineRange (ofZ 60) (lit "Due within 60 days"));
    (lit "within-90", mkDeadlineRange (ofZ 90) (lit "Due within 90 days")) ].

(** [x || d] for a number that may be absent: [d] when [x] is absent,
    zero or NaN. *)
Definition orNum (x : option jsnum) (d : jsnum) : jsnum :=
  match x with
  | None => d
  | Some NaN => d
  | Some (Num q) => if Qeq_bool q 0 then d else Num q
  | Some n => n
  end.

(** The test of [filterByAmount] on one scholarship, for the fields
    [special], [min] and [max] of the range. *)
Definition keepAmount (special : option specialRange) (min max : option jsnum)
    (scholarship : Scholarship) : bool :=
  let parsed := AmountParser.parse (amount scholarship) in
  match special with
  | Some full => AmountParser.isFullTuition parsed
  | Some none =>
      (match AmountParser.value parsed with None => true | Some _ => false end
       && negb (AmountParser.isFullTuition parsed))%bool
  | None =>
      match AmountParser.value parsed with
      | None => false
      | Some v =>
          (JsNum.ge (Num v) (orNum min (ofZ 0))
           && JsNum.lt (Num v) (orNum max PosInf))%bool
      end
  end.

Definition filterByAmount (scholarships : list Scholarship) (amountRange : jsstring)
    : logged (list Scholarship) :=
  match find AMOUNT_RANGES amountRange with
  | Absent =>
      _ <- say warn (lit "Unknown amount range: " ++ amountRange) ;;
      ret scholarships
  | Own rangeConfig =>
      if streq amountRange (lit "any") then ret scholarships
      else ret (filter (keepAmount (special rangeConfig) (min rangeConfig)
                          (max rangeConfig)) scholarships)
  | Inherited =>
      if streq amountRange (lit "any") then ret scholarships
      else ret (filter (keepAmount None None None) scholarships)
  end.

(** [filterByDeadline] when the clock reads [now]; the [days] of an
    inherited member are [undefined], which compares as NaN. *)
Definition filterByDeadline (env : Env) (now : Z) (scholarships : list Scholarship)
    (deadlineRange : jsstring) : logged (list Scholarship) :=
  match find DEADLINE_RANGES deadlineRange with
  | Absent =>
      _ <- say warn (lit "Unknown deadline range: " ++ deadlineRange) ;;
      ret scholarships
  | Own rangeConfig =>
      if streq deadlineRange (lit "any") then ret scholarships
      else ret (filter (fun scholarship =>
                          DeadlineCalculator.isWithinDays env now
                            (deadline scholarship) (days rangeConfig))
                       scholarships)
  | Inherited =>
      if streq deadlineRange (lit "any") then ret scholarships
      else ret (filter (fun scholarship =>
                          DeadlineCalculator.isWithinDays env now
                            (deadline scholarship) NaN)
                       scholarships)
  end.

(** The test shared by [filterByCountry] and [filterByDegree]: the
    field is there and equals the wanted text, both lower-cased and
    trimmed. *)
Definition sameText (field : nullable jsstring) (normalized : jsstring) : bool :=
  match field with
  | Undefined | Null | Val [] => false
  | Val text => streq (trim (toLowerCase text)) normalized
  end.

Definition filterByCountry (scholarships : list Scholarship) (country0 : jsstring)
    : list Scholarship :=
  match country0 with
  | [] => scholarships
  | _ :: _ =>
      let normalizedCountry := trim (toLowerCase country0) in
      filter (fun scholarship => sameText (country scholarship) normalizedCountry)
             scholarships
  end.

Definition filterByDegree (scholarships : list Scholarship) (degree0 : jsstring)
    : list Scholarship :=
  match degree0 with
  | [] => scholarships
  | _ :: _ =>
      let normalizedDegree := trim (toLowerCase degree0) in
      filter (fun scholarship => sameText (degree scholarship) normalizedDegree)
             scholarships
  end.

(** [x && x !== skip] for a string. *)
Definition active (x skip : jsstring) : bool :=
  (negb (AmountParser.falsy x) && negb (streq x skip))%bool.

(** [applyFilters(scholarships, filterState)] for an array of
    scholarships; the warnings of the console are kept as log entries. *)
Definition applyFilters (env : Env) (now : Z) (scholarships : list Scholarship)
    (filterState : FilterState.state) : logged (list Scholarship) :=
  filtered1 <-
    (if active (FilterState.amountRange filterState) (lit "any")
     then filterByAmount scholarships (FilterState.amountRange filterState)
     else ret scholarships) ;;
  filtered2 <-
    (if active (FilterState.deadlineRange filterState) (lit "any")
     then filterByDeadline env now filtered1 (FilterState.deadlineRange filterState)
     else ret filtered1) ;;
  let filtered3 :=
    if active (FilterState.country filterState) []
    then filterByCountry filtered2 (FilterState.country filterState)
    else filtered2 in
  let filtered4 :=
    if active (FilterState.degree filterState) []
    then filterByDegree filtered3 (FilterState.degree filterState)
    else filtered3 in
  ret filtered4.

End FilterEngine.

(* ===================================================================== *)
(** ** The route GET /scholarships *)
(* ===================================================================== *)

Module Api.

Import Exn DataNormalizer ScraperOrchestrator.

(** The query of a request: each parameter is given once, as a string,
    or is absent. *)
Record query : Type := mkQuery {
  q_country : option jsstring;
  q_degree : option jsstring;
  q_limit : option jsstring
}.


(** [parseInt(text, 10)]: white space, a sign, then the digits up to
    the first unit that is none; [None] is NaN.  The number is kept
    exact. *)
Definition parseInt10 (text : jsstring) : option Z :=
  let t := trimStart text in
  let '(negative, t') :=
    match t with
    | 45%N :: r => (true, r)
    | 43%N :: r => (false, r)
    | _ => (false, t)
    end in
  match takeDigits t' with
  | [] => None
  | ds => Some (if negative then - Z.of_N (digitsValue ds) else Z.of_N (digitsValue ds))
  end.

(** The [limit] of a request. *)
Definition limitOf (limitParam : option jsstring) : Z :=
  match limitParam with
  | None | Some [] => 50
  | Some text =>
      match parseInt10 text with
      | Some parsedLimit => Z.min (Z.max parsedLimit 1) 100
      | None => 50
      end
  end.

(** The countries of a scholarship, as an array. *)
Definition countriesOf (s : Scholarship) : list jsstring :=
  match country s with
  | Many l => l
  | One c => [c]
  end.

Definition matchesCountry (countryLower : jsstring) (s : Scholarship) : bool :=
  existsb (fun c => includes (toLowerCase c) countryLower) (countriesOf s).

Definition matchesDegree (degreeLower : jsstring) (s : Scholarship) : bool :=
  existsb (fun d => includes (toLowerCase d) degreeLower) (degree s).

(** [xs.slice(0, limit)] for a limit that is not negative. *)
Definition slice0 {A : Type} (limit : Z) (xs : list A) : list A :=
  firstn (Z.to_nat limit) xs.

(** The search on the records of a run. *)
Definition search (q : query) (scholarships : list Scholarship) : list Scholarship :=
  let limit := limitOf (q_limit q) in
  let byCountry :=
    match q_country q with
    | None | Some [] => scholarships
    | Some country =>
        filter (matchesCountry (toLowerCase country)) scholarships
    end in
  let byDegree :=
    match q_degree q with
    | None | Some [] => byCountry
    | Some degree => filter (matchesDegree (toLowerCase degree)) byCountry
    end in
  slice0 limit byDegree.


End Api.

(* ===================================================================== *)
(** ** The filters of the page *)
(* ===================================================================== *)

(** The page applies the JavaScript copy of the filter engine to the
    records it has fetched from [GET /scholarships].  Read back from
    JSON, such a record has a string or [null] as its amount, a string
    as its deadline, a string or an array of strings as its country, and
    an array of strings as its degree. *)
Module Page.

Import DataNormalizer.

(** The error of calling a member that is no function (in the wording
    of V8). *)
Definition notAFunction (member : string) : Exn.JsError :=
  Exn.mkJsError (lit "TypeError") (lit member ++ lit " is not a function").

(** [xs.filter(keep)] for a callback that may throw: the elements are
    looked at in their order, and the first throw ends the call. *)
Fixpoint filterE {A : Type} (keep : A -> Exn.outcome bool) (xs : list A)
    : Exn.outcome (list A) :=
  match xs with
  | [] => Exn.Returns []
  | x :: xs' =>
      Exn.bind (keep x) (fun k =>
      Exn.bind (filterE keep xs') (fun r =>
      Exn.Returns (if k then x :: r else r)))
  end.

(** [scholarship.amount] and [scholarship.deadline] as the parser and
    the calculator receive them. *)
Definition amountOf (s : Scholarship) : nullable jsstring :=
  match amount s with
  | Some text => Val text
  | None => Null
  end.

Definition deadlineOf (s : Scholarship) : DeadlineCalculator.deadline :=
  DeadlineCalculator.DlString (deadline s).

(** [value >= min && value < max], where a bound that is [undefined]
    makes its comparison false. *)
Definition inRange (v : Q) (min max : option jsnum) : bool :=
  (match min with Some lo => JsNum.ge (Num v) lo | None => false end
   && match max with Some hi => JsNum.lt (Num v) hi | None => false end)%bool.

(** The test of [filterByAmount] on one record. *)
Definition keepAmount (special : option FilterEngine.specialRange)
    (min max : option jsnum) (scholarship : Scholarship) : bool :=
  let parsed := AmountParser.parse (amountOf scholarship) in
  match special with
  | Some FilterEngine.full => AmountParser.isFullTuition parsed
  | Some FilterEngine.none =>
      (match AmountParser.value parsed with None => true | Some _ => false end
       && negb (AmountParser.isFullTuition parsed))%bool
  | None =>
      match AmountParser.value parsed with
      | None => false
      | Some v => inRange v min max
      end
  end.

Definition filterByAmount (scholarships : list Scholarship) (amountRange : jsstring)
    : Log.logged (list Scholarship) :=
  match FilterEngine.find FilterEngine.AMOUNT_RANGES amountRange with
  | FilterEngine.Absent =>
      _ <- Log.say Log.warn (lit "Unknown amount range: " ++ amountRange) ;;
      Log.ret scholarships
  | FilterEngine.Own rangeConfig =>
      if streq amountRange (lit "any") then Log.ret scholarships
      else Log.ret (filter (keepAmount (FilterEngine.special rangeConfig)
                          (FilterEngine.min rangeConfig)
                          (FilterEngine.max rangeConfig)) scholarships)
  | FilterEngine.Inherited =>
      if streq amountRange (lit "any") then Log.ret scholarships
      else Log.ret (filter (keepAmount None None None) scholarships)
  end.

Definition filterByDeadline (env : Env) (now : Z) (scholarships : list Scholarship)
    (deadlineRange : jsstring) : Log.logged (list Scholarship) :=
  match FilterEngine.find FilterEngine.DEADLINE_RANGES deadlineRange with
  | FilterEngine.Absent =>
      _ <- Log.say Log.warn (lit "Unknown deadline range: " ++ deadlineRange) ;;
      Log.ret scholarships
  | FilterEngine.Own rangeConfig =>
      if streq deadlineRange (lit "any") then Log.ret scholarships
      else Log.ret (filter (fun scholarship =>
                          DeadlineCalculator.isWithinDays env now
                            (deadlineOf scholarship) (FilterEngine.days rangeConfig))
                       scholarships)
  | FilterEngine.Inherited =>
      if streq deadlineRange (lit "any") then Log.ret scholarships
      else Log.ret (filter (fun scholarship =>
                          DeadlineCalculator.isWithinDays env now
                            (deadlineOf scholarship) NaN)
                       scholarships)
  end.

(** The callback of [filterByCountry]: an empty string is falsy; an
    array is truthy and has no [toLowerCase]. *)
Definition keepCountry (normalizedCountry : jsstring) (scholarship : Scholarship)
    : Exn.outcome bool :=
  match country scholarship with
  | One [] => Exn.Returns false
  | One text => Exn.Returns (streq (trim (toLowerCase text)) normalizedCountry)
  | Many _ => Exn.Throws (notAFunction "scholarship.country.toLowerCase")
  end.

Definition filterByCountry (scholarships : list Scholarship) (country0 : jsstring)
    : Exn.outcome (list Scholarship) :=
  match country0 with
  | [] => Exn.Returns scholarships
  | _ :: _ => filterE (keepCountry (trim (toLowerCase country0))) scholarships
  end.

(** The callback of [filterByDegree]: the degree of a record is an
    array, which is truthy and has no [toLowerCase]. *)
Definition keepDegree (normalizedDegree : jsstring) (scholarship : Scholarship)
    : Exn.outcome bool :=
  let degrees : list jsstring := degree scholarship in
  Exn.Throws (notAFunction "scholarship.degree.toLowerCase").

Definition filterByDegree (scholarships : list Scholarship) (degree0 : jsstring)
    : Exn.outcome (list Scholarship) :=
  match degree0 with
  | [] => Exn.Returns scholarships
  | _ :: _ => filterE (keepDegree (trim (toLowerCase degree0))) scholarships
  end.

(** [filterEngine.applyFilters(scholarships, filterState)]: how it
    ends, and what it has Log.logged. *)
Definition applyFilters (env : Env) (now : Z) (scholarships : list Scholarship)
    (filterState : FilterState.state) : Log.logged (Exn.outcome (list Scholarship)) :=
  filtered1 <-
    (if FilterEngine.active (FilterState.amountRange filterState) (lit "any")
     then filterByAmount scholarships (FilterState.amountRange filterState)
     else Log.ret scholarships) ;;
  filtered2 <-
    (if FilterEngine.active (FilterState.deadlineRange filterState) (lit "any")
     then filterByDeadline env now filtered1 (FilterState.deadlineRange filterState)
     else Log.ret filtered1) ;;
  Log.ret (Exn.bind
         (if FilterEngine.active (FilterState.country filterState) []
          then filterByCountry filtered2 (FilterState.country filterState)
          else Exn.Returns filtered2)
         (fun filtered3 =>
            if FilterEngine.active (FilterState.degree filterState) []
            then filterByDegree filtered3 (FilterState.degree filterState)
            else Exn.Returns filtered3)).

(** [applyClientSideFilters()] of the page: nothing is done for an
    empty list of results; otherwise the filtered list is displayed,
    [Some] of it, unless the filters throw. *)
Definition applyClientSideFilters (env : Env) (now : Z)
    (originalSearchResults : list Scholarship) (filterState : FilterState.state)
    : Log.logged (Exn.outcome (option (list Scholarship))) :=
  match originalSearchResults with
  | [] => Log.ret (Exn.Returns None)
  | _ :: _ =>
      filteredResults <- applyFilters env now originalSearchResults filterState ;;
      Log.ret (Exn.bind filteredResults (fun shown => Exn.Returns (Some shown)))
  end.

End Page.

(* ===================================================================== *)
(** * The vocabulary of the statements *)
(* ===================================================================== *)

(** What the statements below speak of: parts of strings, traces of the
    retry loop, the calls of a source, the turns of the validator, the
    admissions of the rate limiter; and the data of the worked examples. *)

(** [x] occurs in [s]: [s] is [x] between two other pieces. *)
Definition occursIn (x s : jsstring) : Prop := exists p q, s = p ++ x ++ q.

Section RegexTerms.

Import Regex.



End RegexTerms.

Section SplitDegreesTerms.

Import Regex DataNormalizer.



End SplitDegreesTerms.

Section RetryHandlerTerms.

Import Exn RetryHandler.

Context {T : Type}.

(** The number of calls of the operation in a trace. *)
Fixpoint calls (trace : list event) : nat :=
  match trace with
  | [] => 0
  | Call _ :: trace' => S (calls trace')
  | _ :: trace' => calls trace'
  end.

(** A trace without its log entries: the calls of the operation, the
    calls of the observer and the waits. *)
Fixpoint actions (trace : list event) : list event :=
  match trace with
  | [] => []
  | LogFailed _ _ :: trace' => actions trace'
  | LogRetrying _ _ _ :: trace' => actions trace'
  | e :: trace' => e :: actions trace'
  end.

(** The observer calls of a trace. *)
Fixpoint observerCalls (trace : list event) : list (nat * JsError) :=
  match trace with
  | [] => []
  | OnRetry n e :: trace' => (n, e) :: observerCalls trace'
  | _ :: trace' => observerCalls trace'
  end.

(** What precedes the re-attempt that follows the failed attempt
    [attempt]: the observer called once, with the number [attempt + 1]
    and the error of that attempt, then the wait of
    [min (baseDelay * 2 ^ attempt) maxDelay] milliseconds; then the
    re-attempt itself. *)
Definition reattempt (fn : nat -> outcome T) (baseDelay maxDelay : Z) (observer : bool)
    (attempt : nat) : list event :=
  match fn attempt with
  | Throws e =>
      (if observer then [OnRetry (attempt + 1) e] else [])
        ++ [Delay (Z.min (baseDelay * 2 ^ Z.of_nat attempt) maxDelay);
            Call (S attempt)]
  | Returns _ => []
  end.

(** The call number [attempt] of the operation throws. *)
Definition throwsAt (fn : nat -> outcome T) (attempt : nat) : Prop :=
  exists e, fn attempt = Throws e.

End RetryHandlerTerms.

Section RetryHandlerExample.

Import Exn RetryHandler.

(** Two errors of a source. *)
Definition networkError : JsError := mkJsError (lit "Error") (lit "ECONNRESET").
Definition timeoutError : JsError := mkJsError (lit "TimeoutError") (lit "timed out").

(** An operation that throws on its first two calls and then returns 7. *)
Definition twiceFailing (k : nat) : outcome Z :=
  match k with
  | 0%nat => Throws networkError
  | 1%nat => Throws timeoutError
  | _ => Returns 7
  end.

End RetryHandlerExample.

Section ScraperOrchestratorTerms.

Import Exn DataNormalizer ScraperOrchestrator.

(** The value of the first call that returns, among the [n] calls
    numbered from [a] on. *)
Fixpoint firstReturn {T : Type} (fn : nat -> outcome T) (a n : nat) : option T :=
  match n with
  | O => None
  | S n' =>
      match fn a with
      | Returns v => Some v
      | Throws _ => firstReturn fn (S a) n'
      end
  end.

(** Whether a call ends by throwing. *)
Definition throwsB {T : Type} (o : outcome T) : bool :=
  match o with
  | Throws _ => true
  | Returns _ => false
  end.

(** A source exhausts its retries: its first call and its [r] retries
    all throw. *)
Definition exhausts (r : nat) (s : ScholarshipScraper) : bool :=
  forallb (fun k => throwsB (scrape s k)) (seq 0 (S r)).

(** The records of source number [i], normalized in the order of their
    extraction. *)
Definition normalizedRecords (env : Env) (clock : Clock) (i : nat)
    (raws : list RawScholarship) : list Scholarship :=
  mapi (fun j raw => fst (normalize env (normalizedAt clock i j) raw)) 0 raws.

(** The records that source number [i] contributes to a run with [r]
    retries: those of its first call that returns, none when it exhausts
    its retries. *)
Definition contribution (env : Env) (clock : Clock) (r : nat)
    (i : nat) (s : ScholarshipScraper) : list Scholarship :=
  match firstReturn (scrape s) 0 (S r) with
  | Some raws => normalizedRecords env clock i raws
  | None => []
  end.

(** The result recorded for source number [i]. *)
Definition recorded (env : Env) (clock : Clock) (r : nat) (i : nat)
    (s : ScholarshipScraper) : ScraperResult :=
  let processingTime := sourceEnd clock i - sourceStart clock i in
  match firstReturn (scrape s) 0 (S r) with
  | Some raws =>
      mkScraperResult (scraperName s) (normalizedRecords env clock i raws)
        (List.length (normalizedRecords env clock i raws)) processingTime true None
  | None =>
      match scrape s r with
      | Throws e =>
          mkScraperResult (scraperName s) [] 0 processingTime false (Some (message e))
      | Returns raws =>
          mkScraperResult (scraperName s) (normalizedRecords env clock i raws)
            (List.length (normalizedRecords env clock i raws)) processingTime true None
      end
  end.

(** The scrapers of a list with their places in it, from [j0]. *)
Fixpoint placed {A : Type} (j0 : nat) (xs : list A) : list (nat * A) :=
  match xs with
  | [] => []
  | x :: xs' => (j0, x) :: placed (S j0) xs'
  end.

End ScraperOrchestratorTerms.

Section ScraperOrchestratorExample.

Import Exn DataNormalizer ScraperOrchestrator.

(** A raw record as a source extracts it. *)
Definition sampleRaw (title : string) : RawScholarship :=
  mkRaw (lit title) (lit "DAAD") (One (lit "germany")) (One (lit "MS/PhD"))
    (DateText (lit "2024-12-31")) (lit "www.daad.de/en") None None
    (Some (lit "$5,000 - $10,000")).

(** Five sources: the second and the fourth throw at every call, the
    third throws once and then returns two records. *)
Definition sampleSources : list ScholarshipScraper :=
  [ mkScraper (lit "A") (fun _ => Returns [sampleRaw "a1"]);
    mkScraper (lit "B") (fun _ => Throws networkError);
    mkScraper (lit "C") (fun k => match k with
                                  | O => Throws timeoutError
                                  | _ => Returns [sampleRaw "c1"; sampleRaw "c2"]
                                  end);
    mkScraper (lit "D") (fun _ => Throws timeoutError);
    mkScraper (lit "E") (fun _ => Returns []) ].

(** Two sources at a time, three retries, delays from 1 s to 10 s. *)
Definition sampleConfig : ScraperConfig := mkConfig 2 (mkRetryConfig 3 1000 10000).

(** A run of one minute on 31 December 2024. *)
Definition sampleClock : Clock :=
  mkClock 1735603200000 1735603260000
    (fun i => 1735603200000 + Z.of_nat i)
    (fun i => 1735603230000 + Z.of_nat i)
    (fun i j => 1735603220000 + Z.of_nat i + Z.of_nat j).

End ScraperOrchestratorExample.

Section DataNormalizerTerms.

Import Log DataNormalizer.


End DataNormalizerTerms.

Section ScholarshipValidatorTerms.

Import ScholarshipValidator.

(** What one turn of a loop of [validate] adds to the two arrays. *)
Definition turnRequired (s : record) (f : field) : reports := checkRequired s ([], []) f.
Definition turnOptional (s : record) (f : field) : reports := checkOptional s ([], []) f.

(** What the constraints of a field report on a value. *)
Definition constraintReports (f : field) (value : jsval) : reports :=
  validateFieldConstraints f value ([], []).

(** The error pushed for a required field that is missing or empty. *)
Definition criticalError (f : field) : ValidationError :=
  mkError f (lit "Required field '" ++ fieldName f ++ lit "' is missing or empty")
    critical.

(** The error pushed for a value shorter than the minimum [m]. *)
Definition tooShortError (f : field) (m : nat) : ValidationError :=
  mkError f (lit "Field '" ++ fieldName f ++ lit "' must be at least "
               ++ ofNat m ++ lit " characters") major.

(** The warning pushed for a value longer than the maximum [m]. *)
Definition tooLongWarning (f : field) (m : nat) : ValidationWarning :=
  mkWarning f (lit "Field '" ++ fieldName f ++ lit "' exceeds maximum length of "
                 ++ ofNat m ++ lit " characters")
    (Some (lit "Value will be truncated")).

(** A record without a source, with a two-letter name and with a list
    of degrees longer than 200 characters. *)
Definition sampleRecord : record :=
  fun f =>
    match f with
    | f_name => VStr (lit "ab")
    | f_link => VStr (lit "https://www.daad.de")
    | f_degree => VArr [repeat 65%N 150; repeat 66%N 60]
    | _ => VNull
    end.

End ScholarshipValidatorTerms.

Section NormalizeURLTerms.

Import Log DataNormalizer.

(** The text starts with [http://] or [https://]. *)
Definition hasScheme (text : jsstring) : bool :=
  (startsWith text (lit "http://") || startsWith text (lit "https://"))%bool.

(** [normalizeURL] as the claim words it: trim, prepend the scheme if it
    is missing, then validate; on failure log a warning and return the
    trimmed, possibly prefixed, string. *)
Definition normalizeURL_claimed (env : Env) (url : jsstring) : logged jsstring :=
  let trimmed := trim url in
  let candidate := if hasScheme trimmed then trimmed else lit "https://" ++ trimmed in
  if urlValid env candidate then ret candidate
  else
    _ <- say warn (lit "Invalid URL: " ++ url) ;;
    ret candidate.

End NormalizeURLTerms.

Section RateLimiterTerms.

Import RateLimiter.

(** The time of the latest admission. *)
Definition latest (l : list (nat * Z)) : option Z :=
  match rev l with
  | [] => None
  | (_, t) :: _ => Some t
  end.


(** Three callers of a limiter of two requests per second: the first
    enters alone, the second and the third enter 100 ms later, while no
    timer has fired yet. *)
Definition overlappingCalls : list event :=
  [ Enter 1 1735603200000;
    Enter 2 1735603200100;
    Enter 3 1735603200100;
    Fire 2 1735603200500;
    Fire 3 1735603200500 ].


End RateLimiterTerms.

Section StringTerms.

(** No white space at the start, at the end, at either end. *)
Definition noLead (s : jsstring) : Prop :=
  match s with
  | c :: _ => isSpace c = false
  | [] => True
  end.

Definition noTrail (s : jsstring) : Prop := noLead (rev s).

Definition tight (s : jsstring) : Prop := noLead s /\ noTrail s.

End StringTerms.

Section AmountParserTerms.

Import AmountParser.

(** The text that [parse] keeps: the text it was given, empty when it
    was given none. *)
Definition textOf (amountString : nullable jsstring) : jsstring :=
  match amountString with
  | Val text => text
  | _ => []
  end.

End AmountParserTerms.

Section RetryHandlerWaits.

Import RetryHandler.

(** The waits of a trace, in milliseconds, in their order. *)
Fixpoint delays (trace : list event) : list Z :=
  match trace with
  | [] => []
  | Delay ms :: trace' => ms :: delays trace'
  | _ :: trace' => delays trace'
  end.

(** The time a trace spends waiting. *)
Definition totalDelay (trace : list event) : Z := fold_right Z.add 0 (delays trace).

(** The wait after the failed attempt [attempt]. *)
Definition backoff (baseDelay maxDelay : Z) (attempt : nat) : Z :=
  Z.min (baseDelay * 2 ^ Z.of_nat attempt) maxDelay.

(** A list of numbers that never goes down. *)
Fixpoint ascending (l : list Z) : Prop :=
  match l with
  | [] => True
  | a :: l' =>
      match l' with
      | [] => True
      | b :: _ => a <= b /\ ascending l'
      end
  end.

End RetryHandlerWaits.

Section RateLimiterRunTerms.

Import RateLimiter.

(** What holds of a limiter of interval [gap] after any run of events,
    whether its callers overlap or not. *)
Definition runInvariant (gap : Q) (s : state) : Prop :=
  interval (lim s) = gap /\
  queue (lim s) = [] /\
  lastRequestTime (lim s) <= clock s /\
  (forall t0, latest (admitted s) = Some t0 -> t0 = lastRequestTime (lim s)) /\
  spaced 0 (admitted s) /\
  (forall c due, In (c, due) (timers s) -> (due <= inject_Z (clock s) + gap)%Q).

End RateLimiterRunTerms.

Section FilterTerms.

Import FilterEngine.

(** Whether a filter keeps a scholarship that is given to it alone. *)
Definition keptAlone (F : list Scholarship -> list Scholarship) (s : Scholarship) : bool :=
  match F [s] with
  | [] => false
  | _ :: _ => true
  end.

(** Whether [applyFilters] keeps a scholarship, and whether one of its
    filters does. *)
Definition keeps (env : Env) (now : Z) (st : FilterState.state) : Scholarship -> bool :=
  keptAlone (fun l => fst (applyFilters env now l st)).


Definition keptByDeadline (env : Env) (now : Z) (deadlineRange : jsstring)
    : Scholarship -> bool :=
  keptAlone (fun l => fst (filterByDeadline env now l deadlineRange)).

(** A state with one filter set, the others as [resetAll] leaves them. *)
Definition onlyAmount (a : jsstring) : FilterState.state :=
  FilterState.mkState a (lit "any") [] [].
Definition onlyDeadline (d : jsstring) : FilterState.state :=
  FilterState.mkState (lit "any") d [] [].
Definition onlyCountry (c : jsstring) : FilterState.state :=
  FilterState.mkState (lit "any") (lit "any") c [].
Definition onlyDegree (g : jsstring) : FilterState.state :=
  FilterState.mkState (lit "any") (lit "any") [] g.

(** The four stages of [applyFilters]. *)
Definition stageAmount (a : jsstring) (l : list Scholarship) : list Scholarship :=
  if active a (lit "any") then fst (filterByAmount l a) else l.
Definition stageDeadline (env : Env) (now : Z) (d : jsstring) (l : list Scholarship)
    : list Scholarship :=
  if active d (lit "any") then fst (filterByDeadline env now l d) else l.
Definition stageCountry (c : jsstring) (l : list Scholarship) : list Scholarship :=
  if active c [] then filterByCountry l c else l.
Definition stageDegree (g : jsstring) (l : list Scholarship) : list Scholarship :=
  if active g [] then filterByDegree l g else l.


(** The keys that a table answers to: its own, and the inherited ones. *)
Definition keysOf {A : Type} (table : list (jsstring * A)) : list jsstring :=
  map fst table ++ inheritedKeys.

(** A scholarship with its amount only, and one with its deadline only. *)
Definition withAmount (text : string) : Scholarship :=
  mkScholarship (Val (lit text)) DeadlineCalculator.DlUndefined Undefined Undefined.
Definition withDeadline (text : string) : Scholarship :=
  mkScholarship Undefined (DeadlineCalculator.DlString (lit text)) Undefined Undefined.

(** A filter treats every scholarship on its own. *)
Definition pointwise (F : list Scholarship -> list Scholarship) : Prop :=
  forall l, F l = filter (keptAlone F) l.

(** The names that [setFilter] knows, each with the value that leaves
    the filter off. *)
Definition filterNames : list (jsstring * jsstring) :=
  [ (lit "amountRange", lit "any"); (lit "deadlineRange", lit "any");
    (lit "country", []); (lit "degree", []) ].

End FilterTerms.

Section ApiTerms.

Import DataNormalizer Api.


End ApiTerms.

Section LinkTerms.

Import Regex ScholarshipValidator.

(** The error pushed for a value that does not match the pattern of
    its field. *)
Definition patternError (f : field) : ValidationError :=
  mkError f (lit "Field '" ++ fieldName f ++ lit "' does not match required pattern")
    major.

(** A link as the pattern wants it: "http://" or "https://", then a
    unit that is no line terminator, then anything. *)
Definition isLink (text : jsstring) : Prop :=
  exists c rest, isLineTerminator c = false /\
    (text = lit "http://" ++ c :: rest \/ text = lit "https://" ++ c :: rest).

(** A raw record with the given name, source and link, and nothing
    else. *)
Definition rawOf (name source link : string) : DataNormalizer.RawScholarship :=
  DataNormalizer.mkRaw (lit name) (lit source) (DataNormalizer.One [])
    (DataNormalizer.One []) (DataNormalizer.DateText []) (lit link) None None None.

End LinkTerms.

Section PageTerms.

Import DataNormalizer.

(** A record with several countries, as a run gives it. *)
Definition recordOfRun : Scholarship :=
  fst (normalize hostUTC 0
         (mkRaw (lit "DAAD Scholarship") (lit "daad")
            (Many [lit "germany"; lit "austria"]) (One (lit "Masters / PhD"))
            (DateText (lit "2025-03-15")) (lit "www.daad.de") None None None)).

(** The country of a record is a single string. *)
Definition singleCountry (s : Scholarship) : bool :=
  match country s with
  | One _ => true
  | Many _ => false
  end.

End PageTerms.

(* ===================================================================== *)
(** * Properties *)
(* ===================================================================== *)

(** ** Strings *)

Lemma streq_refl (a : jsstring) : streq a a = true.
Proof.
  induction a as [|x a IH]; simpl; [reflexivity|].
  rewrite N.eqb_refl. exact IH.
Qed.

Lemma streq_eq (a b : jsstring) : streq a b = true <-> a = b.
Proof.
  split.
  - revert b. induction a as [|x a IH]; intros [|y b] H; simpl in H;
      try discriminate; [reflexivity|].
    apply andb_true_iff in H. destruct H as [Hxy Hab].
    apply N.eqb_eq in Hxy. subst y. f_equal. apply IH. exact Hab.
  - intros ->. apply streq_refl.
Qed.

Lemma startsWith_spec (s x : jsstring) :
  startsWith s x = true <-> exists q, s = x ++ q.
Proof.
  revert s. induction x as [|c x IH]; intros [|d s]; simpl.
  - split; [intros _; exists []; reflexivity | reflexivity].
  - split; [intros _; exists (d :: s); reflexivity | reflexivity].
  - split; [discriminate | intros [q Hq]; discriminate].
  - rewrite andb_true_iff, N.eqb_eq, IH. split.
    + intros [-> [q ->]]. exists q. reflexivity.
    + intros [q Hq]. injection Hq as -> ->. split; [reflexivity | exists q; reflexivity].
Qed.

Lemma includes_spec (s x : jsstring) : includes s x = true <-> occursIn x s.
Proof.
  induction s as [|c s IH].
  - cbn [includes]. rewrite orb_false_r, startsWith_spec. split.
    + intros [q Hq]. exists [], q. exact Hq.
    + intros [p [q Hpq]]. destruct p; simpl in Hpq.
      * exists q. exact Hpq.
      * discriminate.
  - cbn [includes]. rewrite orb_true_iff, startsWith_spec, IH. split.
    + intros [[q Hq] | [p [q Hpq]]].
      * exists [], q. exact Hq.
      * exists (c :: p), q. rewrite Hpq. reflexivity.
    + intros [p [q Hpq]]. destruct p as [|d p]; simpl in Hpq.
      * left. exists q. exact Hpq.
      * right. injection Hpq as -> ->. exists p, q. reflexivity.
Qed.

Lemma occursIn_trans (a b c : jsstring) : occursIn a b -> occursIn b c -> occursIn a c.
Proof.
  intros [p [q ->]] [p' [q' ->]].
  exists (p' ++ p), (q ++ q'). repeat rewrite <- app_assoc. reflexivity.
Qed.

Lemma trimStart_suffix (s : jsstring) : exists p, s = p ++ trimStart s.
Proof.
  induction s as [|c s [p Hp]]; simpl.
  - exists []. reflexivity.
  - destruct (isSpace c).
    + exists (c :: p). simpl. f_equal. exact Hp.
    + exists []. reflexivity.
Qed.

Lemma trimEnd_prefix (s : jsstring) : exists q, s = trimEnd s ++ q.
Proof.
  unfold trimEnd. destruct (trimStart_suffix (rev s)) as [p Hp].
  exists (rev p). rewrite <- rev_app_distr, <- Hp, rev_involutive. reflexivity.
Qed.

(** A trimmed string occurs in the string it was trimmed from. *)
Lemma trim_occursIn (s : jsstring) : occursIn (trim s) s.
Proof.
  unfold trim.
  destruct (trimStart_suffix s) as [p Hp].
  destruct (trimEnd_prefix (trimStart s)) as [q Hq].
  exists p, q. rewrite <- Hq. exact Hp.
Qed.

Lemma toLowerCase_occursIn (a b : jsstring) :
  occursIn a b -> occursIn (toLowerCase a) (toLowerCase b).
Proof.
  intros [p [q ->]]. exists (toLowerCase p), (toLowerCase q).
  unfold toLowerCase. repeat rewrite map_app. reflexivity.
Qed.

Lemma lowerUnit_idem (c : N) : lowerUnit (lowerUnit c) = lowerUnit c.
Proof.
  unfold lowerUnit. destruct (isUpper c) eqn:Hc; [|rewrite Hc; reflexivity].
  unfold isUpper in *. apply andb_true_iff in Hc. destruct Hc as [H1 H2].
  apply N.leb_le in H1, H2.
  replace (N.leb (c + 32) 90) with false; [rewrite andb_false_r; reflexivity|].
  symmetry. apply N.leb_gt. lia.
Qed.

Lemma toLowerCase_idem (s : jsstring) : toLowerCase (toLowerCase s) = toLowerCase s.
Proof.
  unfold toLowerCase. rewrite map_map. apply map_ext. exact lowerUnit_idem.
Qed.

(** ** Regular expressions *)

Section RegexFacts.

Import Regex.







End RegexFacts.

Section SplitDegreesFacts.

Import Regex DataNormalizer.






End SplitDegreesFacts.

(** ** AmountParser *)

Section AmountParserFacts.

Import AmountParser.

(** A keyword found in the text as [parse] normalizes it, even twice,
    is found in the lower-cased text. *)
Lemma keyword_in_normalized (text k : jsstring) :
  includes (trim (toLowerCase (trim (toLowerCase text)))) k = true ->
  includes (toLowerCase text) k = true.
Proof.
  rewrite !includes_spec. intros H.
  apply (occursIn_trans _ _ _ H).
  apply (occursIn_trans _ _ _ (trim_occursIn _)).
  rewrite <- (toLowerCase_idem text) at 2.
  apply toLowerCase_occursIn, trim_occursIn.
Qed.


Lemma max2_cases (a b : Q) : max2 a b = a \/ max2 a b = b.
Proof. unfold max2. destruct (Qle_bool a b); auto. Qed.

Lemma max2_ge_l (a b : Q) : (a <= max2 a b)%Q.
Proof.
  unfold max2. destruct (Qle_bool a b) eqn:H.
  - apply Qle_bool_iff. exact H.
  - apply Qle_refl.
Qed.

Lemma max2_ge_r (a b : Q) : (b <= max2 a b)%Q.
Proof.
  unfold max2. destruct (Qle_bool a b) eqn:H.
  - apply Qle_refl.
  - destruct (Qlt_le_dec b a) as [Hlt | Hle].
    + apply Qlt_le_weak. exact Hlt.
    + apply Qle_bool_iff in Hle. congruence.
Qed.

(** [Math.max(...numbers)] is one of the numbers and none is above it. *)
Lemma maxOf_spec (others : list Q) (first : Q) :
  In (maxOf first others) (first :: others) /\
  forall t, In t (first :: others) -> (t <= maxOf first others)%Q.
Proof.
  unfold maxOf. revert first.
  induction others as [|b others IH]; intros first; simpl.
  - split; [left; reflexivity|]. intros t [<- | []]. apply Qle_refl.
  - destruct (IH (max2 first b)) as [Hin Hub]. split.
    + destruct Hin as [Heq | Hin].
      * rewrite <- Heq.
        destruct (max2_cases first b) as [E | E]; rewrite E; auto.
      * right; right. exact Hin.
    + intros t [<- | [<- | Ht]].
      * eapply Qle_trans; [apply max2_ge_l | apply Hub; left; reflexivity].
      * eapply Qle_trans; [apply max2_ge_r | apply Hub; left; reflexivity].
      * apply Hub. right. exact Ht.
Qed.

Lemma existsb_false_of {A : Type} (f : A -> bool) (l : list A) :
  (forall x, In x l -> f x = false) -> existsb f l = false.
Proof.
  intros H. induction l as [|x l IH]; simpl; [reflexivity|].
  rewrite (H x (or_introl eq_refl)). apply IH.
  intros y Hy. apply H. right. exact Hy.
Qed.

End AmountParserFacts.

Section AmountParserRange.

Import AmountParser.



End AmountParserRange.

(** ** DeadlineCalculator *)

Section DeadlineCalculatorFacts.

Import DeadlineCalculator.

Lemma lt_zero_not_ge (n : jsnum) :
  JsNum.lt n (ofZ 0) = true -> JsNum.ge n (ofZ 0) = false.
Proof.
  destruct n as [q | | |]; simpl; try discriminate; try reflexivity.
  intros H. apply negb_true_iff in H. exact H.
Qed.



End DeadlineCalculatorFacts.

(** ** RetryHandler *)

Section RetryHandlerFacts.

Import Exn RetryHandler.

Context {T : Type}.

Lemma actions_app (t1 t2 : list event) : actions (t1 ++ t2) = actions t1 ++ actions t2.
Proof.
  induction t1 as [|e t1 IH]; simpl; [reflexivity|].
  destruct e; simpl; rewrite IH; reflexivity.
Qed.

Lemma calls_app (t1 t2 : list event) : calls (t1 ++ t2) = (calls t1 + calls t2)%nat.
Proof.
  induction t1 as [|e t1 IH]; simpl; [reflexivity|].
  destruct e; simpl; rewrite IH; reflexivity.
Qed.

(** The loop from the turn [attempt] on, with [remaining] retries left. *)
Lemma loop_spec (fn : nat -> outcome T) (retries : nat) (baseDelay maxDelay : Z)
    (observer : bool) (remaining attempt : nat) :
  let result := fst (loop fn retries baseDelay maxDelay observer attempt remaining) in
  let trace := snd (loop fn retries baseDelay maxDelay observer attempt remaining) in
  let n := calls trace in
  (1 <= n <= remaining + 1)%nat /\
  actions trace =
    Call attempt :: flat_map (reattempt fn baseDelay maxDelay observer)
                             (seq attempt (n - 1)) /\
  (forall a, (attempt <= a < attempt + n - 1)%nat -> throwsAt fn a) /\
  (forall v, result = Returns v -> fn (attempt + n - 1)%nat = Returns v) /\
  (forall e, result = Throws e ->
             n = (remaining + 1)%nat /\ fn (attempt + remaining)%nat = Throws e).
Proof.
  revert attempt. induction remaining as [|remaining IH]; intros attempt; simpl.
  - destruct (fn attempt) as [v|e] eqn:E; simpl.
    + refine (conj _ (conj eq_refl (conj _ (conj _ _)))).
      * lia.
      * intros a Ha. lia.
      * intros v' H. injection H as <-. rewrite <- E. f_equal. lia.
      * discriminate.
    + refine (conj _ (conj eq_refl (conj _ (conj _ _)))).
      * lia.
      * intros a Ha. lia.
      * discriminate.
      * intros e' H. injection H as <-. split; [lia|]. rewrite <- E. f_equal. lia.
  - destruct (fn attempt) as [v|e] eqn:E; simpl.
    + refine (conj _ (conj eq_refl (conj _ (conj _ _)))).
      * lia.
      * intros a Ha. lia.
      * intros v' H. injection H as <-. rewrite <- E. f_equal. lia.
      * discriminate.
    + specialize (IH (S attempt)).
      destruct (loop fn retries baseDelay maxDelay observer (S attempt) remaining)
        as [result trace] eqn:EL.
      simpl in IH. destruct IH as (Hn & Hact & Hthrows & Hret & Hthr).
      cbn [fst snd].
      match goal with
      | |- context [calls ?t] =>
          assert (Hcalls : calls t = S (calls trace))
            by (destruct observer; reflexivity);
          assert (Hactions : actions t =
                    Call attempt :: reattempt fn baseDelay maxDelay observer attempt
                      ++ flat_map (reattempt fn baseDelay maxDelay observer)
                           (seq (S attempt) (calls trace - 1)))
            by (unfold reattempt at 1; rewrite E;
                destruct observer; simpl; rewrite Hact; reflexivity)
      end.
      rewrite Hcalls, Hactions.
      split; [lia|]. split; [|split; [|split]].
      * replace (S (calls trace) - 1)%nat with (S (calls trace - 1)) by lia.
        reflexivity.
      * intros a Ha. destruct (Nat.eq_dec a attempt) as [-> | Hne].
        -- exists e. exact E.
        -- apply Hthrows. lia.
      * intros v Hv. specialize (Hret v Hv).
        rewrite <- Hret. f_equal. lia.
      * intros e' He'. destruct (Hthr e' He') as [Hn' Hfn]. split; [lia|].
        rewrite <- Hfn. f_equal. lia.
Qed.

(** C2. [executeWithRetry] calls the operation at most [retries + 1]
    times.  Before each re-attempt, and never before the first attempt,
    it calls [onRetry] once (when one is given, with the number of the
    attempt that failed, counted from 1, and its error) and then waits
    [min (baseDelay * 2 ^ attempt) maxDelay] ms, [attempt] counted from 0
    for the first retry.  It ends as the last call of the operation
    ended: with the value of the first call that succeeds, or, when all
    [retries + 1] calls have failed, with the error of the last one,
    unchanged.  In particular an operation that throws on its first two
    calls and succeeds on the third, with [retries = 3], gives the value
    of the third call after exactly two calls of [onRetry]. *)
Theorem executeWithRetry_spec (h : handler) (fn : nat -> outcome T)
    (options : RetryOptions) :
  let r := orElse (opt_retries options) (retries h) in
  let base := orElse (opt_baseDelay options) (baseDelay h) in
  let cap := orElse (opt_maxDelay options) (maxDelay h) in
  let result := fst (executeWithRetry h fn options) in
  let trace := snd (executeWithRetry h fn options) in
  let n := calls trace in
  (1 <= n <= r + 1)%nat /\
  actions trace =
    Call 0 :: flat_map (reattempt fn base cap (onRetry options)) (seq 0 (n - 1)) /\
  (forall a, (a < n - 1)%nat -> throwsAt fn a) /\
  result = fn (n - 1)%nat /\
  (forall e, result = Throws e -> n = (r + 1)%nat /\ fn r = Throws e) /\
  (forall v e1 e2,
     fn 0%nat = Throws e1 -> fn 1%nat = Throws e2 -> fn 2%nat = Returns v ->
     r = 3%nat -> onRetry options = true ->
     result = Returns v /\ observerCalls trace = [(1%nat, e1); (2%nat, e2)]).
Proof.
  intros r base cap result trace n.
  assert (Hrun : executeWithRetry h fn options
                 = loop fn r base cap (onRetry options) 0 r) by reflexivity.
  pose proof (loop_spec fn r base cap (onRetry options) r 0) as H.
  cbv zeta in H. rewrite <- Hrun in H. fold result trace in H. fold n in H.
  simpl in H.
  destruct H as (Hn & Hact & Hthrows & Hret & Hthr).
  refine (conj Hn (conj Hact (conj _ (conj _ (conj Hthr _))))).
  - intros a Ha. apply Hthrows. lia.
  - destruct result as [v|e] eqn:E.
    + symmetry. apply Hret. reflexivity.
    + destruct (Hthr e eq_refl) as [Hn' Hfn].
      rewrite Hn'. replace (r + 1 - 1)%nat with r by lia. symmetry. exact Hfn.
  - intros v e1 e2 H0 H1 H2 Hr Hobs.
    unfold result, trace. rewrite Hrun, Hr, Hobs.
    simpl. rewrite H0. simpl. rewrite H1. simpl. rewrite H2. simpl.
    split; reflexivity.
Qed.

End RetryHandlerFacts.

Section RetryHandlerScenario.

Import Exn RetryHandler.

(** The theorem for [twiceFailing], the default handler and
    [{retries: 3, onRetry}]. *)
Lemma executeWithRetry_spec_witness :
  let run := executeWithRetry (create noOptions) twiceFailing
               (mkOptions (Some 3%nat) None None true) in
  fst run = Returns 7 /\
  observerCalls (snd run) = [(1%nat, networkError); (2%nat, timeoutError)].
Proof.
  exact (proj2 (proj2 (proj2 (proj2 (proj2
           (executeWithRetry_spec (create noOptions) twiceFailing
              (mkOptions (Some 3%nat) None None true))))))
           7 networkError timeoutError eq_refl eq_refl eq_refl eq_refl eq_refl).
Defined.

End RetryHandlerScenario.

(** ** ScraperOrchestrator *)

Section ScraperOrchestratorFacts.

Import Exn DataNormalizer ScraperOrchestrator.

Lemma firstReturn_none {T : Type} (fn : nat -> outcome T) (n a : nat) :
  firstReturn fn a n = None <-> forallb (fun k => throwsB (fn k)) (seq a n) = true.
Proof.
  revert a. induction n as [|n IH]; intros a; simpl.
  - split; reflexivity.
  - destruct (fn a); simpl.
    + split; discriminate.
    + apply IH.
Qed.

(** How the retry loop ends, in terms of the calls of the operation. *)
Lemma loop_result {T : Type} (fn : nat -> outcome T) (retries : nat)
    (baseDelay maxDelay : Z) (observer : bool) (remaining attempt : nat) :
  fst (RetryHandler.loop fn retries baseDelay maxDelay observer attempt remaining) =
  match firstReturn fn attempt (S remaining) with
  | Some v => Returns v
  | None => fn (attempt + remaining)%nat
  end.
Proof.
  revert attempt. induction remaining as [|remaining IH]; intros attempt; simpl.
  - destruct (fn attempt) eqn:E; simpl; [reflexivity|].
    rewrite Nat.add_0_r, E. reflexivity.
  - destruct (fn attempt) eqn:E; simpl; [reflexivity|].
    specialize (IH (S attempt)). simpl in IH.
    destruct (RetryHandler.loop fn retries baseDelay maxDelay observer
                (S attempt) remaining) as [result trace].
    simpl in *. rewrite IH.
    replace (attempt + S remaining)%nat with (S (attempt + remaining)) by lia.
    reflexivity.
Qed.

(** No exception escapes [scrapeSource]. *)
Lemma scrapeSource_returns (env : Env) (clock : Clock) (cfg : ScraperConfig)
    (ss : list ScholarshipScraper) (i : nat) (s : ScholarshipScraper) :
  scrapeSource env clock (create cfg ss) i s
  = Returns (recorded env clock (cfg_retries (retry cfg)) i s).
Proof.
  unfold scrapeSource, recorded, RetryHandler.executeWithRetry.
  cbn -[firstReturn RetryHandler.loop]. rewrite loop_result.
  cbn -[firstReturn].
  destruct (firstReturn (scrape s) 0 (S (cfg_retries (retry cfg)))) as [raws|];
    [reflexivity|].
  destruct (scrape s (cfg_retries (retry cfg))); reflexivity.
Qed.

Lemma all_returns {A B : Type} (f : nat -> A -> outcome B) (g : nat -> A -> B)
    (xs : list A) (j0 : nat) :
  (forall j x, f j x = Returns (g j x)) ->
  all (mapi f j0 xs) = Returns (mapi g j0 xs).
Proof.
  intros H. revert j0. induction xs as [|x xs IH]; intros j0; simpl.
  - reflexivity.
  - rewrite H. simpl. rewrite IH. reflexivity.
Qed.

Lemma recorded_success (env : Env) (clock : Clock) (r i : nat) (s : ScholarshipScraper) :
  success (recorded env clock r i s) = negb (exhausts r s).
Proof.
  unfold recorded, exhausts.
  destruct (firstReturn (scrape s) 0 (S r)) as [raws|] eqn:E.
  - destruct (forallb _ _) eqn:F; [|reflexivity].
    apply firstReturn_none in F. congruence.
  - apply firstReturn_none in E. rewrite E.
    assert (Hr : throwsB (scrape s r) = true).
    { rewrite forallb_forall in E. apply E. apply in_seq. lia. }
    destruct (scrape s r); [discriminate | reflexivity].
Qed.

Lemma recorded_scholarships (env : Env) (clock : Clock) (r i : nat)
    (s : ScholarshipScraper) :
  scholarships (recorded env clock r i s) = contribution env clock r i s.
Proof.
  unfold recorded, contribution.
  destruct (firstReturn (scrape s) 0 (S r)) as [raws|] eqn:E; [reflexivity|].
  apply firstReturn_none in E.
  assert (Hr : throwsB (scrape s r) = true).
  { rewrite forallb_forall in E. apply E. apply in_seq. lia. }
  destruct (scrape s r); [discriminate | reflexivity].
Qed.

Lemma mapi_length {A B : Type} (f : nat -> A -> B) (xs : list A) (j0 : nat) :
  List.length (mapi f j0 xs) = List.length xs.
Proof.
  revert j0. induction xs as [|x xs IH]; intros j0; simpl; [reflexivity|].
  rewrite IH. reflexivity.
Qed.

Lemma mapi_nth_error {A B : Type} (f : nat -> A -> B) (xs : list A) (j0 i : nat) (x : A) :
  nth_error xs i = Some x -> nth_error (mapi f j0 xs) i = Some (f (j0 + i)%nat x).
Proof.
  revert j0 i. induction xs as [|y xs IH]; intros j0 [|i] H; simpl in *; try discriminate.
  - injection H as ->. rewrite Nat.add_0_r. reflexivity.
  - rewrite (IH (S j0) i H). f_equal. f_equal. lia.
Qed.

(** Filtering the recorded results by a test on the source. *)
Lemma filter_mapi_length {A B : Type} (f : nat -> A -> B) (p : B -> bool) (q : A -> bool)
    (xs : list A) (j0 : nat) :
  (forall j x, p (f j x) = q x) ->
  List.length (filter p (mapi f j0 xs)) = List.length (filter q xs).
Proof.
  intros H. revert j0. induction xs as [|x xs IH]; intros j0; simpl; [reflexivity|].
  rewrite H. destruct (q x); simpl; rewrite IH; reflexivity.
Qed.

Lemma filter_negb_length {A : Type} (q : A -> bool) (xs : list A) :
  List.length (filter (fun x => negb (q x)) xs)
  = (List.length xs - List.length (filter q xs))%nat.
Proof.
  assert (H : (List.length (filter q xs)
               + List.length (filter (fun x => negb (q x)) xs))%nat
              = List.length xs).
  { induction xs as [|x xs IH]; simpl; [reflexivity|].
    destruct (q x); simpl; lia. }
  lia.
Qed.

Lemma flat_map_filter_mapi {A B C : Type} (f : nat -> A -> B) (p : B -> bool)
    (q : A -> bool) (g : B -> list C) (xs : list A) (j0 : nat) :
  (forall j x, p (f j x) = q x) ->
  flat_map g (filter p (mapi f j0 xs))
  = flat_map (fun ix => g (f (fst ix) (snd ix)))
             (filter (fun ix => q (snd ix)) (placed j0 xs)).
Proof.
  intros H. revert j0. induction xs as [|x xs IH]; intros j0; simpl; [reflexivity|].
  rewrite H. destruct (q x); simpl; rewrite IH; reflexivity.
Qed.

(** What [scrapeAll] returns. *)
Lemma scrapeAll_returns (env : Env) (clock : Clock) (cfg : ScraperConfig)
    (ss : list ScholarshipScraper) :
  let results := mapi (recorded env clock (cfg_retries (retry cfg))) 0 ss in
  let successfulResults := filter (fun r => success r) results in
  scrapeAll env clock (create cfg ss) =
  Returns (mkSummary
             (fold_left (fun sum r => (sum + count r)%nat) successfulResults 0%nat)
             (List.length successfulResults)
             (List.length (filter (fun r => negb (success r)) results))
             (runEnd clock - runStart clock)
             (JsNum.mul
                (JsNum.div (ofZ (Z.of_nat (List.length successfulResults)))
                           (ofZ (Z.of_nat (List.length results))))
                (ofZ 100))
             results).
Proof.
  intros results successfulResults. unfold scrapeAll.
  change (scrapers (create cfg ss)) with ss.
  rewrite (all_returns _ (recorded env clock (cfg_retries (retry cfg))));
    [reflexivity|].
  intros j x. apply scrapeSource_returns.
Qed.

(** C1. Whatever the sources do, [scrapeAll] returns a summary: no
    exception escapes it.  With [N] sources of which [K] exhaust their
    retries, [failedSources] is [K] and [successfulSources] is [N - K];
    the result of every source is at its place in [results]; a source
    that exhausts its retries is recorded with [success = false], the
    message of its last error and no records; and [getScholarships]
    gives the records of the other sources only, in the order of the
    list of sources and, within one source, in the order of extraction. *)
Theorem scrapeAll_partial_failure (env : Env) (clock : Clock) (cfg : ScraperConfig)
    (ss : list ScholarshipScraper) :
  let r := cfg_retries (retry cfg) in
  let N := List.length ss in
  let K := List.length (filter (exhausts r) ss) in
  exists summary,
    scrapeAll env clock (create cfg ss) = Returns summary /\
    failedSources summary = K /\
    successfulSources summary = (N - K)%nat /\
    List.length (results summary) = N /\
    (forall i s, nth_error ss i = Some s -> exhausts r s = true ->
       exists res e,
         nth_error (results summary) i = Some res /\
         scrape s r = Throws e /\
         res_source res = scraperName s /\ success res = false /\
         error res = Some (message e) /\
         scholarships res = [] /\ count res = 0%nat) /\
    (forall i s, nth_error ss i = Some s -> exhausts r s = false ->
       exists res,
         nth_error (results summary) i = Some res /\
         res_source res = scraperName s /\ success res = true /\
         error res = None /\
         scholarships res = contribution env clock r i s) /\
    getScholarships summary =
      flat_map (fun ix => contribution env clock r (fst ix) (snd ix))
               (filter (fun ix => negb (exhausts r (snd ix))) (placed 0 ss)).
Proof.
  intros r N K. eexists. split; [apply scrapeAll_returns|].
  cbn [failedSources successfulSources results]. fold r.
  assert (Hfailed : List.length
            (filter (fun x => negb (success x)) (mapi (recorded env clock r) 0 ss)) = K).
  { unfold K. apply filter_mapi_length. intros j x.
    rewrite recorded_success, negb_involutive. reflexivity. }
  assert (Hok : List.length
            (filter (fun x => success x) (mapi (recorded env clock r) 0 ss))
            = (N - K)%nat).
  { rewrite (filter_mapi_length _ _ (fun s => negb (exhausts r s)));
      [|intros j x; apply recorded_success].
    unfold N, K. apply filter_negb_length. }
  refine (conj Hfailed (conj Hok (conj (mapi_length _ _ _) (conj _ (conj _ _))))).
  - intros i s Hi Hex.
    assert (Hnone : firstReturn (scrape s) 0 (S r) = None).
    { apply firstReturn_none. exact Hex. }
    assert (Hlast : throwsB (scrape s r) = true).
    { unfold exhausts in Hex. rewrite forallb_forall in Hex.
      apply Hex. apply in_seq. lia. }
    destruct (scrape s r) as [raws|e] eqn:E; [discriminate|].
    exists (recorded env clock r i s), e.
    split; [apply (mapi_nth_error _ _ 0 i s Hi)|].
    unfold recorded. rewrite Hnone, E. repeat split.
  - intros i s Hi Hex.
    exists (recorded env clock r i s).
    split; [apply (mapi_nth_error _ _ 0 i s Hi)|].
    pose proof (recorded_success env clock r i s) as Hs. rewrite Hex in Hs.
    pose proof (recorded_scholarships env clock r i s) as Hsch.
    refine (conj _ (conj Hs (conj _ Hsch))).
    + unfold recorded. destruct (firstReturn (scrape s) 0 (S r)); [reflexivity|].
      destruct (scrape s r); reflexivity.
    + unfold recorded in *. destruct (firstReturn (scrape s) 0 (S r)); [reflexivity|].
      destruct (scrape s r); [reflexivity | discriminate].
  - unfold getScholarships. cbn [results].
    rewrite (flat_map_filter_mapi _ _ (fun s => negb (exhausts r s)));
      [|intros j x; apply recorded_success].
    apply flat_map_ext. intros [i s]. apply recorded_scholarships.
Qed.

(** C10. With no source at all, [scrapeAll] still returns a summary,
    with [totalScholarships = 0] and no results; its [successRate] is
    [(0 / 0) * 100], which is NaN and thus no percentage between 0 and
    100. *)
Theorem scrapeAll_no_sources (env : Env) (clock : Clock) (cfg : ScraperConfig) :
  exists summary,
    scrapeAll env clock (create cfg []) = Returns summary /\
    totalScholarships summary = 0%nat /\
    results summary = [] /\
    successRate summary = JsNum.mul (JsNum.div (ofZ 0) (ofZ 0)) (ofZ 100) /\
    successRate summary = NaN /\
    JsNum.le (ofZ 0) (successRate summary) = false /\
    JsNum.le (successRate summary) (ofZ 100) = false.
Proof.
  eexists. split; [reflexivity|]. cbn. repeat split.
Qed.

End ScraperOrchestratorFacts.

Section ScraperOrchestratorScenario.

Import Exn DataNormalizer ScraperOrchestrator.

(** The theorem for five sources of which two exhaust three retries:
    three successful sources, two failed ones, a success rate of 60, the
    failure of the second source recorded with its message, and the
    three records of the first and third sources, in that order. *)
Lemma scrapeAll_partial_failure_witness :
  exists summary,
    scrapeAll hostUTC sampleClock (create sampleConfig sampleSources)
      = Returns summary /\
    failedSources summary = 2%nat /\
    successfulSources summary = 3%nat /\
    successRate summary = ofZ 60 /\
    (exists res, nth_error (results summary) 1 = Some res /\
                 success res = false /\ error res = Some (lit "ECONNRESET")) /\
    map name (getScholarships summary) = [lit "a1"; lit "c1"; lit "c2"].
Proof.
  destruct (scrapeAll_partial_failure hostUTC sampleClock sampleConfig sampleSources)
    as (summary & Hrun & Hfailed & Hok & _ & Hfail & _ & Hget).
  exists summary.
  split; [exact Hrun|]. split; [exact Hfailed|]. split; [exact Hok|].
  split.
  - vm_compute in Hrun. injection Hrun as <-. reflexivity.
  - split.
    + destruct (Hfail 1%nat (mkScraper (lit "B") (fun _ => Throws networkError))
                  eq_refl eq_refl)
        as (res & e & Hnth & He & _ & Hs & Herr & _).
      exists res. injection He as <-. auto.
    + rewrite Hget. vm_compute. reflexivity.
Defined.

End ScraperOrchestratorScenario.

(** ** DataNormalizer *)

Section DataNormalizerFacts.

Import Log DataNormalizer.


Lemma bind_fst {A B : Type} (m : logged A) (f : A -> logged B) :
  fst (bind m f) = fst (f (fst m)).
Proof.
  unfold bind. destruct m as [a l1]. simpl. destruct (f a). reflexivity.
Qed.

Lemma existsb_streq (x : jsstring) (l : list jsstring) :
  existsb (streq x) l = true <-> In x l.
Proof.
  rewrite existsb_exists. split.
  - intros [y [Hy E]]. apply streq_eq in E. subst y. exact Hy.
  - intros H. exists x. split; [exact H | apply streq_refl].
Qed.

(** The values collected in a set are distinct, and they are the values
    put in. *)
Lemma setAdd_spec (xs seen : list jsstring) :
  NoDup seen ->
  NoDup (setAdd seen xs) /\
  forall x, In x (setAdd seen xs) <-> In x seen \/ In x xs.
Proof.
  revert seen. induction xs as [|y xs IH]; intros seen Hnd; simpl.
  - split; [exact Hnd|]. intros x. tauto.
  - destruct (existsb (streq y) seen) eqn:E.
    + apply existsb_streq in E.
      destruct (IH seen Hnd) as [H1 H2]. split; [exact H1|].
      intros x. rewrite H2. split; [tauto|].
      intros [H | [<- | H]]; auto.
    + assert (Hy : ~ In y seen).
      { intros H. apply existsb_streq in H. congruence. }
      assert (Hnd' : NoDup (seen ++ [y])).
      { apply NoDup_app; [exact Hnd | repeat constructor; auto | ].
        intros a Ha [<- | []]. contradiction. }
      destruct (IH (seen ++ [y]) Hnd') as [H1 H2]. split; [exact H1|].
      intros x. rewrite H2, in_app_iff. simpl. tauto.
Qed.




End DataNormalizerFacts.

(** ** ScholarshipValidator *)

Section ScholarshipValidatorFacts.

Import ScholarshipValidator.

(** The arrays only grow, and by what the turn adds to empty arrays. *)
Lemma validateFieldConstraints_appends (f : field) (value : jsval) (r : reports) :
  validateFieldConstraints f value r
  = (fst r ++ fst (constraintReports f value), snd r ++ snd (constraintReports f value)).
Proof.
  unfold constraintReports, validateFieldConstraints.
  destruct r as [es ws].
  destruct (SCHOLARSHIP_SCHEMA.constraints f) as [c|]; simpl;
    [|rewrite !app_nil_r; reflexivity].
  destruct (minLength c) as [m|], (maxLength c) as [m'|], (pattern c) as [p|];
    repeat match goal with
           | |- context [if ?b then _ else _] => destruct b
           end;
    unfold pushError, pushWarning; simpl;
    rewrite ?app_nil_r, <- ?app_assoc; reflexivity.
Qed.

Lemma checkRequired_appends (s : record) (r : reports) (f : field) :
  checkRequired s r f
  = (fst r ++ fst (turnRequired s f), snd r ++ snd (turnRequired s f)).
Proof.
  unfold turnRequired, checkRequired. destruct (missingOrEmpty (s f)).
  - unfold pushError. simpl. rewrite app_nil_r. reflexivity.
  - rewrite (validateFieldConstraints_appends f (s f) r).
    rewrite (validateFieldConstraints_appends f (s f) ([], [])). reflexivity.
Qed.

Lemma checkOptional_appends (s : record) (r : reports) (f : field) :
  checkOptional s r f
  = (fst r ++ fst (turnOptional s f), snd r ++ snd (turnOptional s f)).
Proof.
  unfold turnOptional, checkOptional. destruct (negb (missingOrEmpty (s f))).
  - rewrite (validateFieldConstraints_appends f (s f) r).
    rewrite (validateFieldConstraints_appends f (s f) ([], [])). reflexivity.
  - simpl. rewrite !app_nil_r. destruct r. reflexivity.
Qed.

Lemma fold_turns (turn : field -> reports) (check : reports -> field -> reports)
    (fs : list field) (r : reports) :
  (forall r f, check r f = (fst r ++ fst (turn f), snd r ++ snd (turn f))) ->
  fold_left check fs r
  = (fst r ++ flat_map (fun f => fst (turn f)) fs,
     snd r ++ flat_map (fun f => snd (turn f)) fs).
Proof.
  intros H. revert r. induction fs as [|f fs IH]; intros r; simpl.
  - rewrite !app_nil_r. destruct r. reflexivity.
  - rewrite IH, H. simpl. rewrite <- !app_assoc. reflexivity.
Qed.

(** The errors and warnings of [validate], turn by turn. *)
Lemma validate_turns (s : record) :
  errors (validate s)
  = flat_map (fun f => fst (turnRequired s f)) SCHOLARSHIP_SCHEMA.required
    ++ flat_map (fun f => fst (turnOptional s f)) SCHOLARSHIP_SCHEMA.optional
  /\
  warnings (validate s)
  = flat_map (fun f => snd (turnRequired s f)) SCHOLARSHIP_SCHEMA.required
    ++ flat_map (fun f => snd (turnOptional s f)) SCHOLARSHIP_SCHEMA.optional.
Proof.
  unfold validate. cbn [errors warnings].
  rewrite (fold_turns (turnOptional s) (checkOptional s)
             _ _ (checkOptional_appends s)).
  rewrite (fold_turns (turnRequired s) (checkRequired s)
             _ _ (checkRequired_appends s)).
  split; reflexivity.
Qed.

(** A turn reports on its own field only. *)
Lemma constraintReports_field (f : field) (value : jsval) :
  (forall e, In e (fst (constraintReports f value)) -> err_field e = f) /\
  (forall w, In w (snd (constraintReports f value)) -> warn_field w = f).
Proof.
  unfold constraintReports, validateFieldConstraints.
  destruct (SCHOLARSHIP_SCHEMA.constraints f) as [c|]; simpl;
    [|split; intros ? []].
  destruct (minLength c) as [m|], (maxLength c) as [m'|], (pattern c) as [p|];
    repeat match goal with
           | |- context [if ?b then _ else _] => destruct b
           end;
    unfold pushError, pushWarning; simpl;
    split; intros x Hx; repeat (destruct Hx as [<- | Hx]; [reflexivity|]);
    contradiction.
Qed.

Lemma turnRequired_field (s : record) (f : field) :
  (forall e, In e (fst (turnRequired s f)) -> err_field e = f) /\
  (forall w, In w (snd (turnRequired s f)) -> warn_field w = f).
Proof.
  unfold turnRequired, checkRequired. destruct (missingOrEmpty (s f)).
  - unfold pushError. simpl. split.
    + intros e [<- | []]. reflexivity.
    + intros w [].
  - apply constraintReports_field.
Qed.

Lemma turnOptional_field (s : record) (f : field) :
  (forall e, In e (fst (turnOptional s f)) -> err_field e = f) /\
  (forall w, In w (snd (turnOptional s f)) -> warn_field w = f).
Proof.
  unfold turnOptional, checkOptional. destruct (negb (missingOrEmpty (s f))).
  - apply constraintReports_field.
  - simpl. split; intros ? [].
Qed.

(** Every field has its turn in one of the two loops, and in one only. *)
Lemma field_turn (f : field) :
  (In f SCHOLARSHIP_SCHEMA.required /\ ~ In f SCHOLARSHIP_SCHEMA.optional) \/
  (In f SCHOLARSHIP_SCHEMA.optional /\ ~ In f SCHOLARSHIP_SCHEMA.required).
Proof.
  destruct f; simpl;
    solve [ left; split; [tauto | intuition discriminate]
          | right; split; [tauto | intuition discriminate] ].
Qed.

(** The turn of a field that is present, in either loop. *)
Lemma present_turn (s : record) (f : field) :
  missingOrEmpty (s f) = false ->
  turnRequired s f = constraintReports f (s f) /\
  turnOptional s f = constraintReports f (s f).
Proof.
  intros H. unfold turnRequired, turnOptional, checkRequired, checkOptional.
  rewrite H. split; reflexivity.
Qed.

(** The errors and the warnings about one field are those of its turn. *)
Lemma errors_of_field (s : record) (f : field) (e : ValidationError) :
  In e (errors (validate s)) -> err_field e = f ->
  In e (fst (turnRequired s f)) \/ In e (fst (turnOptional s f)).
Proof.
  intros Hin Hf. rewrite (proj1 (validate_turns s)) in Hin.
  apply in_app_or in Hin. destruct Hin as [Hin | Hin];
    apply in_flat_map in Hin; destruct Hin as [g [Hg He]].
  - left. rewrite (proj1 (turnRequired_field s g) e He) in Hf. subst g. exact He.
  - right. rewrite (proj1 (turnOptional_field s g) e He) in Hf. subst g. exact He.
Qed.

Lemma warnings_of_field (s : record) (f : field) (w : ValidationWarning) :
  In w (warnings (validate s)) -> warn_field w = f ->
  In w (snd (turnRequired s f)) \/ In w (snd (turnOptional s f)).
Proof.
  intros Hin Hf. rewrite (proj2 (validate_turns s)) in Hin.
  apply in_app_or in Hin. destruct Hin as [Hin | Hin];
    apply in_flat_map in Hin; destruct Hin as [g [Hg Hw]].
  - left. rewrite (proj2 (turnRequired_field s g) w Hw) in Hf. subst g. exact Hw.
  - right. rewrite (proj2 (turnOptional_field s g) w Hw) in Hf. subst g. exact Hw.
Qed.

(** What the turn of a present field reports reaches the result. *)
Lemma present_reports_reach (s : record) (f : field) :
  missingOrEmpty (s f) = false ->
  (forall e, In e (fst (constraintReports f (s f))) -> In e (errors (validate s))) /\
  (forall w, In w (snd (constraintReports f (s f))) -> In w (warnings (validate s))).
Proof.
  intros Hp. destruct (present_turn s f Hp) as [Hr Ho].
  destruct (validate_turns s) as [He Hw]. rewrite He, Hw.
  destruct (field_turn f) as [[Hin _] | [Hin _]]; split; intros x Hx;
    apply in_or_app; [left | left | right | right];
    apply in_flat_map; exists f; (split; [exact Hin|]);
    rewrite ?Hr, ?Ho; exact Hx.
Qed.

(** In the schema a field with a maximal length has no pattern, and its
    minimal length, if any, is below the maximal one. *)
Lemma schema_max (f : field) (c : constraint) (m : nat) :
  SCHOLARSHIP_SCHEMA.constraints f = Some c -> maxLength c = Some m ->
  pattern c = None /\ forall m0, minLength c = Some m0 -> (m0 <= m)%nat.
Proof.
  destruct f; simpl; intros E; inversion E; subst c; simpl; intros Hm;
    inversion Hm; subst; split; try reflexivity;
    intros m0 H0; inversion H0; lia.
Qed.

(** C6. [validate] reports a critical error for each required field
    ([name], [source], [link]) that is missing or empty, and nothing
    else about that field: its constraints are not checked.  For a field
    that is present, a length below the minimum of the schema gives a
    major error, and a length above the maximum gives a warning and no
    error about that field.  [isValid] is true exactly when there is no
    error, whatever the warnings. *)
Theorem validate_spec (s : record) :
  let res := validate s in
  (forall f, In f SCHOLARSHIP_SCHEMA.required -> missingOrEmpty (s f) = true ->
     In (criticalError f) (errors res) /\
     (forall e, In e (errors res) -> err_field e = f -> e = criticalError f) /\
     (forall w, In w (warnings res) -> warn_field w <> f)) /\
  (forall f c m, missingOrEmpty (s f) = false ->
     SCHOLARSHIP_SCHEMA.constraints f = Some c -> minLength c = Some m ->
     (List.length (stringOf (s f)) < m)%nat ->
     In (tooShortError f m) (errors res)) /\
  (forall f c m, missingOrEmpty (s f) = false ->
     SCHOLARSHIP_SCHEMA.constraints f = Some c -> maxLength c = Some m ->
     (m < List.length (stringOf (s f)))%nat ->
     In (tooLongWarning f m) (warnings res) /\
     (forall e, In e (errors res) -> err_field e <> f)) /\
  (isValid res = true <-> errors res = []).
Proof.
  intros res. refine (conj _ (conj _ (conj _ _))).
  - intros f Hreq Hmiss.
    assert (Hr : turnRequired s f = ([criticalError f], [])).
    { unfold turnRequired, checkRequired. rewrite Hmiss. reflexivity. }
    assert (Ho : turnOptional s f = ([], [])).
    { unfold turnOptional, checkOptional. rewrite Hmiss. reflexivity. }
    refine (conj _ (conj _ _)).
    + unfold res. rewrite (proj1 (validate_turns s)).
      apply in_or_app. left. apply in_flat_map. exists f.
      split; [exact Hreq|]. rewrite Hr. left. reflexivity.
    + intros e He Hf.
      destruct (errors_of_field s f e He Hf) as [H | H].
      * rewrite Hr in H. destruct H as [<- | []]. reflexivity.
      * rewrite Ho in H. destruct H.
    + intros w Hw Hf.
      destruct (warnings_of_field s f w Hw Hf) as [H | H].
      * rewrite Hr in H. destruct H.
      * rewrite Ho in H. destruct H.
  - intros f c m Hp Hc Hm Hlen.
    apply (proj1 (present_reports_reach s f Hp)).
    unfold constraintReports, validateFieldConstraints. rewrite Hc, Hm.
    apply Nat.ltb_lt in Hlen. rewrite Hlen.
    destruct (maxLength c) as [m'|], (pattern c) as [p|];
      repeat match goal with
             | |- context [if ?b then _ else _] => destruct b
             end;
      unfold pushError, pushWarning; simpl; auto.
  - intros f c m Hp Hc Hm Hlen.
    destruct (schema_max f c m Hc Hm) as [Hpat Hmin].
    assert (Hrep : constraintReports f (s f) = ([], [tooLongWarning f m])).
    { unfold constraintReports, validateFieldConstraints. rewrite Hc, Hm, Hpat.
      apply Nat.ltb_lt in Hlen. rewrite Hlen.
      destruct (minLength c) as [m0|]; [|reflexivity].
      specialize (Hmin m0 eq_refl).
      replace (List.length (stringOf (s f)) <? m0)%nat with false; [reflexivity|].
      symmetry. apply Nat.ltb_ge. apply Nat.ltb_lt in Hlen. lia. }
    split.
    + apply (proj2 (present_reports_reach s f Hp)). rewrite Hrep. left. reflexivity.
    + intros e He Hf.
      destruct (present_turn s f Hp) as [Hr Ho].
      destruct (errors_of_field s f e He Hf) as [H | H].
      * rewrite Hr, Hrep in H. destruct H.
      * rewrite Ho, Hrep in H. destruct H.
  - unfold res, validate. cbn [isValid errors].
    match goal with
    | |- context [match ?l with [] => true | _ :: _ => false end] => destruct l
    end; split; [reflexivity | reflexivity | discriminate | discriminate].
Qed.

(** The theorem on [sampleRecord]: a critical error about the source
    and no other report about it, a major error about the name, a
    warning and no error about the degrees, and the record is not valid. *)
Lemma validate_spec_witness :
  In (criticalError f_source) (errors (validate sampleRecord)) /\
  (forall e, In e (errors (validate sampleRecord)) ->
             err_field e = f_source -> e = criticalError f_source) /\
  In (tooShortError f_name 3) (errors (validate sampleRecord)) /\
  In (tooLongWarning f_degree 200) (warnings (validate sampleRecord)) /\
  (forall e, In e (errors (validate sampleRecord)) -> err_field e <> f_degree) /\
  isValid (validate sampleRecord) = false.
Proof.
  destruct (validate_spec sampleRecord) as (Hreq & Hmin & Hmax & Hvalid).
  destruct (Hreq f_source (or_intror (or_introl eq_refl)) eq_refl)
    as (Hcrit & Honly & _).
  destruct (Hmax f_degree (mkConstraint None (Some 200%nat) None) 200%nat
              eq_refl eq_refl eq_refl) as [Hwarn Hnoerr].
  - vm_compute. apply Nat.leb_le. reflexivity.
  - refine (conj Hcrit (conj Honly (conj _ (conj Hwarn (conj Hnoerr _))))).
    + apply (Hmin f_name (mkConstraint (Some 3%nat) (Some 500%nat) None) 3%nat
               eq_refl eq_refl eq_refl).
      vm_compute. apply Nat.leb_le. reflexivity.
    + destruct (isValid (validate sampleRecord)) eqn:E; [|reflexivity].
      exfalso. rewrite (proj1 Hvalid eq_refl) in Hcrit. exact Hcrit.
Defined.

End ScholarshipValidatorFacts.

Section NormalizeDateFacts.

Import Log Regex JsDate DataNormalizer.




(** The month-first text for 31 December 2024, on the sample host. *)
Lemma normalizeDate_month_first_example :
  normalizeDate hostUTC (DateText (lit "12/31/2024"))
    = (lit "2024-12-31T00:00:00.000Z", []).
Proof. vm_compute. reflexivity. Qed.

End NormalizeDateFacts.

Section NormalizeURLFacts.

Import Log DataNormalizer.

(** C7, as claimed.  For "  http://  ", which has its scheme and is not
    well formed, the string returned is the text as given, with its
    white space, not the trimmed one; and for "a b" nothing is logged
    although "https://a b" is not well formed. *)
Lemma normalizeURL_counterexample :
  normalizeURL hostUTC (lit "  http://  ")
    <> normalizeURL_claimed hostUTC (lit "  http://  ") /\
  fst (normalizeURL hostUTC (lit "  http://  ")) = lit "  http://  " /\
  fst (normalizeURL_claimed hostUTC (lit "  http://  ")) = lit "http://" /\
  urlValid hostUTC (lit "https://a b") = false /\
  normalizeURL hostUTC (lit "a b") = (lit "https://a b", []).
Proof.
  split; [vm_compute; discriminate|].
  repeat split; vm_compute; reflexivity.
Qed.

(** C7, amended.  [normalizeURL] trims the text.  When the trimmed text
    lacks the prefix [http://] or [https://], it returns "https://"
    followed by the trimmed text, without validating it and without
    logging.  Otherwise it validates the trimmed text: when that is well
    formed it is returned; when it is not, a warning is logged and the
    text is returned as it was given, untrimmed.  In every case a string
    is returned: there is no failure. *)
Theorem normalizeURL_cases (env : Env) (url : jsstring) :
  let trimmed := trim url in
  (hasScheme trimmed = false ->
   normalizeURL env url = (lit "https://" ++ trimmed, [])) /\
  (hasScheme trimmed = true -> urlValid env trimmed = true ->
   normalizeURL env url = (trimmed, [])) /\
  (hasScheme trimmed = true -> urlValid env trimmed = false ->
   normalizeURL env url = (url, [mkEntry warn (lit "Invalid URL: " ++ url)])) /\
  (exists result log, normalizeURL env url = (result, log) /\
     (result = lit "https://" ++ trimmed \/ result = trimmed \/ result = url)).
Proof.
  intros trimmed. unfold normalizeURL, hasScheme. fold trimmed.
  destruct (startsWith trimmed (lit "http://")) eqn:E1;
    destruct (startsWith trimmed (lit "https://")) eqn:E2;
    destruct (urlValid env trimmed) eqn:E3; cbn [negb andb orb];
    (refine (conj _ (conj _ (conj _ _)));
     [ try discriminate; intros _; reflexivity
     | try discriminate; intros _ _; reflexivity
     | try discriminate; intros _ _; reflexivity
     | eexists; eexists; split; [reflexivity | auto] ]).
Qed.

(** The amended statement on the sample host, one text for each case. *)
Lemma normalizeURL_cases_witness :
  normalizeURL hostUTC (lit " www.daad.de ") = (lit "https://www.daad.de", []) /\
  normalizeURL hostUTC (lit " http://www.daad.de ") = (lit "http://www.daad.de", []) /\
  normalizeURL hostUTC (lit "  http://  ")
    = (lit "  http://  ", [mkEntry warn (lit "Invalid URL:   http://  ")]).
Proof.
  refine (conj _ (conj _ _)).
  - apply (proj1 (normalizeURL_cases hostUTC (lit " www.daad.de "))).
    vm_compute. reflexivity.
  - apply (proj1 (proj2 (normalizeURL_cases hostUTC (lit " http://www.daad.de "))));
      vm_compute; reflexivity.
  - apply (proj1 (proj2 (proj2 (normalizeURL_cases hostUTC (lit "  http://  ")))));
      vm_compute; reflexivity.
Defined.

End NormalizeURLFacts.

(** ** RateLimiter *)

Section RateLimiterFacts.

Import RateLimiter.

Lemma latest_snoc (l : list (nat * Z)) (c : nat) (t : Z) :
  latest (l ++ [(c, t)]) = Some t.
Proof. unfold latest. rewrite rev_app_distr. reflexivity. Qed.

Lemma spaced_snoc (gap : Q) (l : list (nat * Z)) (c : nat) (t : Z) :
  spaced gap l ->
  (forall t0, latest l = Some t0 -> (inject_Z t0 + gap <= inject_Z t)%Q) ->
  spaced gap (l ++ [(c, t)]).
Proof.
  induction l as [|[c1 t1] l IH]; intros Hs Hl; simpl.
  - exact I.
  - destruct l as [|[c2 t2] l'].
    + simpl. split; [|exact I]. apply Hl. reflexivity.
    + simpl in Hs. destruct Hs as [H12 Hs]. split; [exact H12|].
      apply IH; [exact Hs|].
      intros t0 Ht0. apply Hl.
      unfold latest in *. simpl in *.
      destruct (rev l' ++ [(c2, t2)]) as [|[c3 t3] tl] eqn:E.
      * destruct (rev l'); discriminate.
      * simpl. exact Ht0.
Qed.

(** Letting a caller through at once takes a full interval since the
    recorded time. *)
Lemma waitForSlot_at_once (l l' : limiter) (now : Z) :
  waitForSlot l now = (l', AtOnce) ->
  (inject_Z (lastRequestTime l) + interval l <= inject_Z now)%Q /\
  lastRequestTime l' = now /\ interval l' = interval l.
Proof.
  unfold waitForSlot, max0.
  destruct (Qle_bool (interval l - inject_Z (now - lastRequestTime l)) 0) eqn:E.
  - simpl. intros H. injection H as <-. simpl.
    apply Qle_bool_iff in E. unfold Zminus in E.
    rewrite inject_Z_plus, inject_Z_opp in E.
    split; [lra | split; reflexivity].
  - destruct (Qeq_bool (interval l - inject_Z (now - lastRequestTime l)) 0) eqn:E0.
    + intros H. injection H as <-. simpl.
      apply Qeq_bool_iff in E0. unfold Zminus in E0.
      rewrite inject_Z_plus, inject_Z_opp in E0.
      split; [lra | split; reflexivity].
    + discriminate.
Qed.

(** A timer is set for the moment a full interval has passed since the
    recorded time. *)
Lemma waitForSlot_timer (l l' : limiter) (now : Z) (timeToWait : Q) :
  waitForSlot l now = (l', AfterTimer timeToWait) ->
  (inject_Z now + timeToWait == inject_Z (lastRequestTime l) + interval l)%Q /\
  l' = l.
Proof.
  unfold waitForSlot, max0.
  destruct (Qle_bool (interval l - inject_Z (now - lastRequestTime l)) 0) eqn:E.
  - simpl. discriminate.
  - destruct (Qeq_bool (interval l - inject_Z (now - lastRequestTime l)) 0) eqn:E0.
    + discriminate.
    + intros H. injection H as <- <-. split; [|reflexivity].
      unfold Zminus. rewrite inject_Z_plus, inject_Z_opp. lra.
Qed.






End RateLimiterFacts.

(* ===================================================================== *)
(** * Further properties *)
(* ===================================================================== *)

(** ** Trimming *)

Section TrimFacts.

Lemma trimStart_noLead (s : jsstring) : noLead (trimStart s).
Proof.
  induction s as [|c s IH]; simpl; [exact I|].
  destruct (isSpace c) eqn:E; [exact IH | exact E].
Qed.

Lemma noLead_trimStart (s : jsstring) : noLead s -> trimStart s = s.
Proof.
  destruct s as [|c s]; simpl; [reflexivity|]. intros ->. reflexivity.
Qed.

Lemma trimEnd_noTrail (s : jsstring) : noTrail (trimEnd s).
Proof.
  unfold noTrail, trimEnd. rewrite rev_involutive. apply trimStart_noLead.
Qed.

Lemma noTrail_trimEnd (s : jsstring) : noTrail s -> trimEnd s = s.
Proof.
  unfold noTrail, trimEnd. intros H. rewrite (noLead_trimStart _ H).
  apply rev_involutive.
Qed.

(** What [trimStart] removes is white space. *)
Lemma trimStart_split (s : jsstring) :
  exists p, s = p ++ trimStart s /\ Forall (fun c => isSpace c = true) p.
Proof.
  induction s as [|c s [p [Hp Hsp]]]; simpl.
  - exists []. split; [reflexivity | constructor].
  - destruct (isSpace c) eqn:E.
    + exists (c :: p). split; [simpl; f_equal; exact Hp | constructor; assumption].
    + exists []. split; [reflexivity | constructor].
Qed.

Lemma trimEnd_split (s : jsstring) :
  exists q, s = trimEnd s ++ q /\ Forall (fun c => isSpace c = true) q.
Proof.
  unfold trimEnd. destruct (trimStart_split (rev s)) as [p [Hp Hsp]].
  exists (rev p). split.
  - rewrite <- rev_app_distr, <- Hp, rev_involutive. reflexivity.
  - apply Forall_rev. exact Hsp.
Qed.

(** Trimming the end keeps a first unit that is no white space. *)
Lemma trimEnd_head (c : N) (s : jsstring) :
  isSpace c = false -> exists s', trimEnd (c :: s) = c :: s'.
Proof.
  intros Hc. destruct (trimEnd_split (c :: s)) as [q [Hq Hsp]].
  destruct (trimEnd (c :: s)) as [|d s'] eqn:E.
  - simpl in Hq. subst q. inversion Hsp; subst. congruence.
  - simpl in Hq. injection Hq as <- _. exists s'. reflexivity.
Qed.

Lemma trimEnd_noLead (s : jsstring) : noLead s -> noLead (trimEnd s).
Proof.
  destruct s as [|c s]; [intros _; exact I|].
  simpl. intros Hc. destruct (trimEnd_head c s Hc) as [s' ->]. exact Hc.
Qed.

Lemma trim_tight (s : jsstring) : tight (trim s).
Proof.
  unfold trim. split.
  - apply trimEnd_noLead, trimStart_noLead.
  - apply trimEnd_noTrail.
Qed.

Lemma tight_trim (s : jsstring) : tight s -> trim s = s.
Proof.
  intros [H1 H2]. unfold trim. rewrite (noLead_trimStart _ H1).
  apply noTrail_trimEnd. exact H2.
Qed.

Lemma trim_idem (s : jsstring) : trim (trim s) = trim s.
Proof. apply tight_trim, trim_tight. Qed.

(** A piece that starts with no white space survives [trimStart]. *)
Lemma occursIn_trimStart (k s : jsstring) :
  k <> [] -> noLead k -> occursIn k s -> occursIn k (trimStart s).
Proof.
  intros Hne Hk. induction s as [|c s IH]; intros [p [q Hpq]]; simpl.
  - exists p, q. exact Hpq.
  - destruct (isSpace c) eqn:E; [|exists p, q; exact Hpq].
    apply IH. destruct p as [|d p]; simpl in Hpq.
    + destruct k as [|x k]; [congruence|]. simpl in Hpq, Hk.
      injection Hpq as -> _. congruence.
    + injection Hpq as -> ->. exists p, q. reflexivity.
Qed.

Lemma occursIn_rev (k s : jsstring) : occursIn k s -> occursIn (rev k) (rev s).
Proof.
  intros [p [q ->]]. exists (rev q), (rev p).
  rewrite !rev_app_distr, <- app_assoc. reflexivity.
Qed.

Lemma occursIn_trimEnd (k s : jsstring) :
  k <> [] -> noTrail k -> occursIn k s -> occursIn k (trimEnd s).
Proof.
  intros Hne Hk H. unfold trimEnd.
  rewrite <- (rev_involutive k). apply occursIn_rev.
  apply occursIn_trimStart.
  - intros E. apply Hne. rewrite <- (rev_involutive k), E. reflexivity.
  - exact Hk.
  - apply occursIn_rev. exact H.
Qed.

(** A piece with no white space at its ends survives [trim]. *)
Lemma occursIn_trim (k s : jsstring) :
  k <> [] -> tight k -> occursIn k s -> occursIn k (trim s).
Proof.
  intros Hne [H1 H2] H. unfold trim.
  apply occursIn_trimEnd; [assumption..|].
  apply occursIn_trimStart; assumption.
Qed.

End TrimFacts.

(** ** AmountParser: the order of the tests *)

Section AmountParserOrder.

Import AmountParser.

(** The keywords are in lower case, not empty, and have no white space
    at their ends. *)
Lemma keyword_shape (k : jsstring) :
  In k (fullCoverageKeywords ++ variableKeywords) ->
  k <> [] /\ tight k /\ toLowerCase k = k.
Proof.
  intros H. simpl in H.
  repeat (destruct H as [<- | H];
          [split; [discriminate | split; [split; reflexivity | reflexivity]]|]).
  contradiction.
Qed.

Lemma existsb_true_of {A : Type} (f : A -> bool) (l : list A) (a : A) :
  In a l -> f a = true -> existsb f l = true.
Proof. intros Hin Hf. apply existsb_exists. exists a. split; assumption. Qed.

(** A keyword in the lower-cased text is still there once the text is
    normalized, once or twice. *)
Lemma keyword_kept (text k : jsstring) :
  In k (fullCoverageKeywords ++ variableKeywords) ->
  includes (toLowerCase text) k = true ->
  includes (trim (toLowerCase text)) k = true /\
  includes (trim (toLowerCase (trim (toLowerCase text)))) k = true.
Proof.
  intros Hk H. destruct (keyword_shape k Hk) as (Hne & Htight & Hlow).
  rewrite includes_spec in H.
  assert (H1 : occursIn k (trim (toLowerCase text)))
    by (apply occursIn_trim; assumption).
  split; rewrite includes_spec; [exact H1|].
  apply occursIn_trim; [assumption..|].
  rewrite <- Hlow. apply toLowerCase_occursIn. exact H1.
Qed.

Lemma occursIn_nonempty (k s : jsstring) : k <> [] -> occursIn k s -> falsy s = false.
Proof.
  intros Hne [p [q ->]]. destruct p; [|reflexivity].
  destruct k; [congruence | reflexivity].
Qed.

Lemma isFullCoverage_of_keyword (text k : jsstring) :
  In k fullCoverageKeywords ->
  includes (toLowerCase text) k = true ->
  falsy text = false /\ isFullCoverage (trim (toLowerCase text)) = true.
Proof.
  intros Hk H.
  assert (Hk' : In k (fullCoverageKeywords ++ variableKeywords))
    by (apply in_or_app; left; exact Hk).
  destruct (keyword_shape k Hk') as (Hne & _ & _).
  destruct (keyword_kept text k Hk' H) as [H1 H2].
  split.
  - destruct text; [|reflexivity].
    apply includes_spec in H. apply (occursIn_nonempty k _ Hne) in H. exact H.
  - unfold isFullCoverage.
    rewrite (occursIn_nonempty k _ Hne (proj1 (includes_spec _ _) H1)).
    apply (existsb_true_of _ _ k Hk H2).
Qed.

Lemma isFullCoverage_without_keyword (text : jsstring) :
  (forall k, In k fullCoverageKeywords -> includes (toLowerCase text) k = false) ->
  isFullCoverage (trim (toLowerCase text)) = false.
Proof.
  intros Hkw. unfold isFullCoverage.
  destruct (falsy (trim (toLowerCase text))); [reflexivity|].
  apply existsb_false_of. intros k Hk.
  destruct (includes (trim (toLowerCase (trim (toLowerCase text)))) k) eqn:E;
    [|reflexivity].
  apply keyword_in_normalized in E. rewrite (Hkw k Hk) in E. discriminate.
Qed.

(** X1. As soon as the text contains one of the full-coverage keywords,
    in any letter case, [parse] answers full tuition with no value: the
    numbers, range marks and variable keywords that the text may also
    contain are not looked at. *)
Theorem parse_full_coverage_first (text k : jsstring) :
  In k fullCoverageKeywords ->
  includes (toLowerCase text) k = true ->
  parse (Val text) = mkParsedAmount None false true false text.
Proof.
  intros Hk H. destruct (isFullCoverage_of_keyword text k Hk H) as [Hne Hfull].
  unfold parse. rewrite Hne, Hfull. reflexivity.
Qed.

(** The theorem at a text that also holds a range of numbers and a
    variable keyword. *)
Lemma parse_full_coverage_first_witness :
  parse (Val (lit "Fully Funded, varies: $1,000 - $5,000"))
  = mkParsedAmount None false true false
      (lit "Fully Funded, varies: $1,000 - $5,000").
Proof.
  apply (parse_full_coverage_first _ (lit "fully funded")).
  - simpl. do 3 right. left. reflexivity.
  - vm_compute. reflexivity.
Defined.

(** X2. A text with a variable keyword and no full-coverage keyword, in
    any letter case, is variable with no value, whatever numbers it
    holds. *)
Theorem parse_variable_keyword (text k : jsstring) :
  (forall k', In k' fullCoverageKeywords ->
              includes (toLowerCase text) k' = false) ->
  In k variableKeywords ->
  includes (toLowerCase text) k = true ->
  parse (Val text) = mkParsedAmount None false false true text.
Proof.
  intros Hfull Hk H.
  assert (Hk' : In k (fullCoverageKeywords ++ variableKeywords))
    by (apply in_or_app; right; exact Hk).
  destruct (keyword_shape k Hk') as (Hne & _ & _).
  destruct (keyword_kept text k Hk' H) as [H1 _].
  assert (Hne' : falsy text = false).
  { destruct text; [|reflexivity].
    apply includes_spec in H. apply (occursIn_nonempty k _ Hne) in H. exact H. }
  assert (Hvar : hasVariableKeyword (trim (toLowerCase text)) = true)
    by (unfold hasVariableKeyword; apply (existsb_true_of _ _ k Hk H1)).
  unfold parse. rewrite Hne', (isFullCoverage_without_keyword text Hfull), Hvar.
  reflexivity.
Qed.

(** The theorem at "Contact us: up to $2,000". *)
Lemma parse_variable_keyword_witness :
  parse (Val (lit "Contact us: up to $2,000"))
  = mkParsedAmount None false false true (lit "Contact us: up to $2,000").
Proof.
  apply (parse_variable_keyword _ (lit "contact")).
  - intros k' Hk'. simpl in Hk'.
    repeat (destruct Hk' as [<- | Hk']; [vm_compute; reflexivity|]).
    contradiction.
  - simpl. do 5 right. left. reflexivity.
  - vm_compute. reflexivity.
Defined.

Lemma parseFloat_nonneg (s : jsstring) (v : Q) : parseFloat s = Some v -> (0 <= v)%Q.
Proof.
  unfold parseFloat. destruct (takeDigits s ++ _); [discriminate|].
  set (q := (Z.of_N _ # _)). intros E.
  assert (Hv : v = Qred q) by congruence.
  rewrite Hv, Qred_correct. unfold q, Qle. simpl. lia.
Qed.

Lemma dropNulls_In {A : Type} (l : list (option A)) (a : A) :
  In a (dropNulls l) <-> In (Some a) l.
Proof.
  induction l as [|[x|] l IH]; simpl.
  - reflexivity.
  - rewrite IH. split; intros [H | H]; auto; left; congruence.
  - rewrite IH. split; [auto | intros [H | H]; [discriminate | exact H]].
Qed.

Lemma extractAllNumericValues_nonneg (text : jsstring) (v : Q) :
  In v (extractAllNumericValues text) -> (0 <= v)%Q.
Proof.
  unfold extractAllNumericValues. destruct (falsy text); [intros []|].
  rewrite dropNulls_In, in_map_iff. intros [m [Hm _]].
  exact (parseFloat_nonneg _ _ Hm).
Qed.

(** The value of [parse], when there is one, is one of the numbers
    found in the text. *)
Lemma parse_value_token (text : jsstring) (v : Q) :
  value (parse (Val text)) = Some v -> In v (extractAllNumericValues text).
Proof.
  unfold parse. destruct (falsy text) eqn:Hne; [discriminate|].
  destruct (isFullCoverage _); [discriminate|].
  destruct (hasVariableKeyword _); [discriminate|].
  cbn [value]. unfold extractMaxFromRange, extractNumericValue. rewrite Hne.
  destruct (isRangeFormat text).
  - destruct (extractAllNumericValues text) as [|n [|n' ns]]; [discriminate|..].
    + intros E. injection E as <-. left. reflexivity.
    + intros E. injection E as <-. apply (maxOf_spec (n' :: ns) n).
  - destruct (extractAllNumericValues text) as [|n ns]; [discriminate|].
    intros E. injection E as <-. left. reflexivity.
Qed.

Lemma parse_value_nonneg (a : nullable jsstring) (v : Q) :
  value (parse a) = Some v -> (0 <= v)%Q.
Proof.
  destruct a as [| |text]; try discriminate.
  intros H. apply (extractAllNumericValues_nonneg text), parse_value_token, H.
Qed.

Lemma parse_flags (a : nullable jsstring) :
  (isFullTuition (parse a) = true ->
   isVariable (parse a) = false /\ isRange (parse a) = false
   /\ value (parse a) = None) /\
  (isVariable (parse a) = true ->
   isFullTuition (parse a) = false /\ isRange (parse a) = false
   /\ value (parse a) = None) /\
  originalText (parse a) = textOf a.
Proof.
  destruct a as [| |text]; simpl; try (repeat split; discriminate || reflexivity).
  destruct (falsy text) eqn:Hne.
  - destruct text; [|discriminate]. repeat split; discriminate || reflexivity.
  - destruct (isFullCoverage _); [repeat split; discriminate || reflexivity|].
    destruct (hasVariableKeyword _); repeat split; discriminate || reflexivity.
Qed.

(** X3. What [parse] answers is of one kind at most: full tuition and
    variable exclude each other, and each of them comes with no value
    and no range.  A value, when there is one, is never negative and is
    one of the numbers that [extractAllNumericValues] reads in the
    text: a minus sign before a number is not part of the number.  The
    text is handed back as it came (empty for a missing amount). *)
Theorem parse_result_invariant (a : nullable jsstring) :
  (isFullTuition (parse a) = true ->
   isVariable (parse a) = false /\ isRange (parse a) = false
   /\ value (parse a) = None) /\
  (isVariable (parse a) = true ->
   isFullTuition (parse a) = false /\ isRange (parse a) = false
   /\ value (parse a) = None) /\
  (forall v, value (parse a) = Some v ->
     (0 <= v)%Q /\ In v (extractAllNumericValues (textOf a))) /\
  originalText (parse a) = textOf a.
Proof.
  destruct (parse_flags a) as (H1 & H2 & H3).
  refine (conj H1 (conj H2 (conj _ H3))).
  intros v H. split; [exact (parse_value_nonneg a v H)|].
  destruct a as [| |text]; try discriminate.
  exact (parse_value_token text v H).
Qed.

(** The theorem at "-500 USD", read as 500. *)
Lemma parse_result_invariant_witness :
  value (parse (Val (lit "-500 USD"))) = Some 500%Q /\ (0 <= 500)%Q.
Proof.
  assert (H : value (parse (Val (lit "-500 USD"))) = Some 500%Q)
    by (vm_compute; reflexivity).
  split; [exact H|].
  exact (proj1 (proj1 (proj2 (proj2 (parse_result_invariant (Val (lit "-500 USD")))))
                  500%Q H)).
Defined.

End AmountParserOrder.

(** ** DeadlineCalculator: urgency and windows *)

Section DeadlineCalculatorWindows.

Import DeadlineCalculator.

Lemma le_trans (a b c : jsnum) :
  JsNum.le a b = true -> JsNum.le b c = true -> JsNum.le a c = true.
Proof.
  destruct a as [x| | |], b as [y| | |], c as [z| | |]; simpl;
    try discriminate; try reflexivity.
  rewrite !Qle_bool_iff. apply Qle_trans.
Qed.

Lemma lt_zero_ge (n : jsnum) :
  JsNum.lt n (ofZ 0) = false -> JsNum.le n (ofZ 90) = true ->
  JsNum.ge n (ofZ 0) = true.
Proof.
  destruct n as [q| | |]; simpl; try discriminate.
  intros H _. apply negb_false_iff in H. exact H.
Qed.

(** A window holds the windows that are shorter. *)
Lemma isWithinDays_mono (env : Env) (now : Z) (d : deadline) (days days' : jsnum) :
  JsNum.le days days' = true ->
  isWithinDays env now d days = true -> isWithinDays env now d days' = true.
Proof.
  unfold isWithinDays. intros Hle.
  destruct (daysUntil env now d) as [n|]; [|discriminate].
  rewrite !andb_true_iff. intros [H0 H1]. split; [exact H0|].
  exact (le_trans _ _ _ H1 Hle).
Qed.

(** X4. The urgency of a deadline is read off the three windows of
    [isWithinDays]: urgent exactly when the deadline is within 30 days,
    soon when within 60 but not 30, later when within 90 but not 60,
    and none when it is not within 90 days -- which holds the deadlines
    that are missing, unreadable or in the past. *)
Theorem categorizeUrgency_windows (env : Env) (now : Z) (d : deadline) :
  let within days := isWithinDays env now d (ofZ days) in
  (categorizeUrgency env now d = urgent <-> within 30 = true) /\
  (categorizeUrgency env now d = soon <-> within 60 = true /\ within 30 = false) /\
  (categorizeUrgency env now d = later <-> within 90 = true /\ within 60 = false) /\
  (categorizeUrgency env now d = none <-> within 90 = false).
Proof.
  intros within. unfold within, categorizeUrgency, isWithinDays.
  unfold URGENT_THRESHOLD, SOON_THRESHOLD, LATER_THRESHOLD.
  destruct (daysUntil env now d) as [n|].
  2:{ repeat split; (discriminate || (intros [? ?]; discriminate) || reflexivity). }
  assert (H36 : JsNum.le n (ofZ 30) = true -> JsNum.le n (ofZ 60) = true)
    by (intros H; apply (le_trans _ _ _ H); reflexivity).
  assert (H69 : JsNum.le n (ofZ 60) = true -> JsNum.le n (ofZ 90) = true)
    by (intros H; apply (le_trans _ _ _ H); reflexivity).
  destruct (JsNum.lt n (ofZ 0)) eqn:Hlt.
  - rewrite (lt_zero_not_ge n Hlt). simpl.
    repeat split; (discriminate || (intros [? ?]; discriminate) || reflexivity).
  - destruct (JsNum.le n (ofZ 90)) eqn:H90.
    + rewrite (lt_zero_ge n Hlt H90). simpl.
      destruct (JsNum.le n (ofZ 30)) eqn:H30.
      * rewrite (H36 eq_refl).
        repeat split; (discriminate || (intros [? ?]; discriminate) || reflexivity).
      * destruct (JsNum.le n (ofZ 60)) eqn:H60;
          repeat split; (discriminate || (intros [? ?]; discriminate) || reflexivity).
    + rewrite andb_false_r.
      destruct (JsNum.le n (ofZ 60)) eqn:H60; [discriminate (H69 eq_refl)|].
      destruct (JsNum.le n (ofZ 30)) eqn:H30; [discriminate (H36 eq_refl)|].
      rewrite !andb_false_r.
      repeat split; (discriminate || (intros [? ?]; discriminate) || reflexivity).
Qed.

End DeadlineCalculatorWindows.

(** ** DeadlineCalculator: a deadline today *)

Section DeadlineToday.

Import JsDate DeadlineCalculator.

Lemma sub_self (m : Z) : JsNum.sub (ofZ m) (ofZ m) = ofZ 0.
Proof.
  unfold JsNum.sub, ofZ. f_equal.
  change (inject_Z 0) with (Qred 0). apply Qred_complete. ring.
Qed.

Lemma days_of_zero : JsNum.ceil (JsNum.div (ofZ 0) (ofZ (1000 * 60 * 60 * 24))) = ofZ 0.
Proof. reflexivity. Qed.

(** X5. A deadline that falls on the local calendar day of the clock
    is 0 days away, whatever the times of day: it is urgent, and within
    every window of [isWithinDays] that is not negative. *)
Theorem daysUntil_same_day (env : Env) (now t : Z) :
  getFullYear (tzMinutes env) t = getFullYear (tzMinutes env) now ->
  getMonth (tzMinutes env) t = getMonth (tzMinutes env) now ->
  getDate (tzMinutes env) t = getDate (tzMinutes env) now ->
  midnightOf env now <> None ->
  daysUntil env now (DlDate (Some t)) = Some (ofZ 0) /\
  categorizeUrgency env now (DlDate (Some t)) = urgent /\
  (forall days, JsNum.le (ofZ 0) days = true ->
                isWithinDays env now (DlDate (Some t)) days = true).
Proof.
  intros Hy Hm Hd Hvalid.
  assert (Hsame : midnightOf env t = midnightOf env now).
  { unfold midnightOf. rewrite Hy, Hm, Hd. reflexivity. }
  assert (Hdays : daysUntil env now (DlDate (Some t)) = Some (ofZ 0)).
  { unfold daysUntil. rewrite Hsame.
    destruct (midnightOf env now) as [m|]; [|congruence].
    cbn [getTime]. rewrite sub_self, days_of_zero. reflexivity. }
  refine (conj Hdays (conj _ _)).
  - unfold categorizeUrgency. rewrite Hdays. reflexivity.
  - intros days Hle. unfold isWithinDays. rewrite Hdays.
    unfold JsNum.ge. rewrite Hle. reflexivity.
Qed.

(** The theorem on 2 January 2025 at 10:30 for a deadline at 23:59:59
    of the same day. *)
Lemma daysUntil_same_day_witness :
  daysUntil hostUTC 1735813800000 (DlDate (Some 1735862399000)) = Some (ofZ 0).
Proof.
  refine (proj1 (daysUntil_same_day hostUTC 1735813800000 1735862399000 _ _ _ _));
    vm_compute; (reflexivity || discriminate).
Defined.

End DeadlineToday.

(** ** RetryHandler: the time spent waiting *)

Section RetryHandlerWaitFacts.

Import Exn RetryHandler.

Context {T : Type}.

Lemma delays_app (t1 t2 : list event) : delays (t1 ++ t2) = delays t1 ++ delays t2.
Proof.
  induction t1 as [|e t1 IH]; simpl; [reflexivity|].
  destruct e; simpl; rewrite IH; reflexivity.
Qed.

(** The waits of the loop are the back-off of the attempts that failed
    and were followed by another. *)
Lemma loop_delays (fn : nat -> outcome T) (retries : nat) (baseDelay maxDelay : Z)
    (observer : bool) (remaining attempt : nat) :
  exists m, (m <= remaining)%nat /\
    delays (snd (loop fn retries baseDelay maxDelay observer attempt remaining))
    = map (backoff baseDelay maxDelay) (seq attempt m).
Proof.
  revert attempt. induction remaining as [|remaining IH]; intros attempt; simpl.
  - exists 0%nat. split; [lia|]. destruct (fn attempt); reflexivity.
  - destruct (fn attempt) as [v|e].
    + exists 0%nat. split; [lia | reflexivity].
    + destruct (IH (S attempt)) as [m [Hm Hd]].
      destruct (loop fn retries baseDelay maxDelay observer (S attempt) remaining)
        as [result trace].
      exists (S m). split; [lia|]. simpl in *.
      destruct observer; simpl; rewrite Hd; reflexivity.
Qed.

Lemma backoff_le_cap (baseDelay maxDelay : Z) (a : nat) :
  backoff baseDelay maxDelay a <= maxDelay.
Proof. unfold backoff. lia. Qed.

Lemma backoff_mono (baseDelay maxDelay : Z) (a b : nat) :
  0 <= baseDelay -> (a <= b)%nat ->
  backoff baseDelay maxDelay a <= backoff baseDelay maxDelay b.
Proof.
  intros Hb Hab. unfold backoff.
  assert (2 ^ Z.of_nat a <= 2 ^ Z.of_nat b) by (apply Z.pow_le_mono_r; lia).
  assert (baseDelay * 2 ^ Z.of_nat a <= baseDelay * 2 ^ Z.of_nat b) by nia.
  lia.
Qed.

Lemma backoff_ascending (baseDelay maxDelay : Z) (m a : nat) :
  0 <= baseDelay -> ascending (map (backoff baseDelay maxDelay) (seq a m)).
Proof.
  intros Hb. revert a. induction m as [|m IH]; intros a; [exact I|].
  cbn [seq map ascending]. specialize (IH (S a)).
  destruct m as [|m]; [exact I|].
  cbn [seq map] in *. split; [|exact IH].
  apply backoff_mono; [exact Hb | lia].
Qed.

Lemma backoff_sum_cap (baseDelay maxDelay : Z) (m a : nat) :
  fold_right Z.add 0 (map (backoff baseDelay maxDelay) (seq a m))
  <= Z.of_nat m * maxDelay.
Proof.
  revert a. induction m as [|m IH]; intros a; [simpl; lia|].
  cbn [seq map fold_right]. specialize (IH (S a)).
  pose proof (backoff_le_cap baseDelay maxDelay a). lia.
Qed.

Lemma backoff_sum_doubling (baseDelay maxDelay : Z) (m a : nat) :
  0 <= baseDelay ->
  fold_right Z.add 0 (map (backoff baseDelay maxDelay) (seq a m))
  <= baseDelay * (2 ^ Z.of_nat (a + m) - 2 ^ Z.of_nat a).
Proof.
  intros Hb. revert a. induction m as [|m IH]; intros a.
  - simpl. rewrite Nat.add_0_r. lia.
  - cbn [seq map fold_right]. specialize (IH (S a)).
    replace (S a + m)%nat with (a + S m)%nat in IH by lia.
    assert (Hs : 2 ^ Z.of_nat (S a) = 2 * 2 ^ Z.of_nat a).
    { rewrite Nat2Z.inj_succ, Z.pow_succ_r; lia. }
    rewrite Hs in IH.
    assert (Hmin : backoff baseDelay maxDelay a <= baseDelay * 2 ^ Z.of_nat a)
      by (unfold backoff; lia).
    nia.
Qed.

(** X6. The waits of [executeWithRetry]: none of them is longer than
    [maxDelay]; there are fewer of them than calls, hence [retries] at
    most; with a base delay that is not negative they never get
    shorter, and the time spent waiting is at most
    [retries * maxDelay] and at most [baseDelay * (2 ^ retries - 1)]. *)
Theorem executeWithRetry_waits (h : handler) (fn : nat -> outcome T)
    (options : RetryOptions) :
  let r := orElse (opt_retries options) (retries h) in
  let base := orElse (opt_baseDelay options) (baseDelay h) in
  let cap := orElse (opt_maxDelay options) (maxDelay h) in
  let trace := snd (executeWithRetry h fn options) in
  Forall (fun ms => ms <= cap) (delays trace) /\
  (List.length (delays trace) <= r)%nat /\
  (0 <= base ->
   ascending (delays trace) /\
   (0 <= cap -> totalDelay trace <= Z.of_nat r * cap) /\
   totalDelay trace <= base * (2 ^ Z.of_nat r - 1)).
Proof.
  intros r base cap trace.
  destruct (loop_delays fn r base cap (onRetry options) r 0) as [m [Hm Hd]].
  assert (Htrace : delays trace = map (backoff base cap) (seq 0 m)) by exact Hd.
  unfold totalDelay. rewrite Htrace.
  refine (conj _ (conj _ _)).
  - apply Forall_forall. intros ms Hin. apply in_map_iff in Hin.
    destruct Hin as [a [<- _]]. apply backoff_le_cap.
  - rewrite length_map, length_seq. exact Hm.
  - intros Hb. refine (conj _ (conj _ _)).
    + apply backoff_ascending. exact Hb.
    + intros Hc. pose proof (backoff_sum_cap base cap m 0). nia.
    + pose proof (backoff_sum_doubling base cap m 0 Hb) as H.
      simpl in H.
      assert (2 ^ Z.of_nat m <= 2 ^ Z.of_nat r) by (apply Z.pow_le_mono_r; lia).
      change (2 ^ Z.of_nat 0) with 1 in H. nia.
Qed.

End RetryHandlerWaitFacts.

Section RetryHandlerWaitScenario.

Import Exn RetryHandler.

(** The theorem for the handler of the configuration (3 retries, base
    1000 ms, cap 10000 ms) and an operation that fails twice: two
    waits, of 1000 and 2000 ms. *)
Lemma executeWithRetry_waits_witness :
  delays (snd (executeWithRetry (create noOptions) twiceFailing noOptions))
    = [1000; 2000] /\
  totalDelay (snd (executeWithRetry (create noOptions) twiceFailing noOptions))
    <= 1000 * (2 ^ 3 - 1).
Proof.
  split; [vm_compute; reflexivity|].
  refine (proj2 (proj2 (proj2 (proj2 (executeWithRetry_waits (create noOptions)
                                        twiceFailing noOptions)) _))).
  vm_compute. discriminate.
Defined.

End RetryHandlerWaitScenario.

(** ** RateLimiter: any run of events *)

Section RateLimiterRunFacts.

Import RateLimiter.

Lemma In_dropTimer (caller : nat) (ts : list (nat * Q)) (x : nat * Q) :
  In x (dropTimer caller ts) -> In x ts.
Proof.
  induction ts as [|[c due] ts IH]; simpl; [auto|].
  destruct (Nat.eqb c caller); [auto|].
  intros [H | H]; [left; exact H | right; apply IH; exact H].
Qed.

Lemma step_runInvariant (gap : Q) (s s' : state) (e : event) :
  runInvariant gap s -> step s e = Some s' -> runInvariant gap s'.
Proof.
  intros (Hgap & Hq & Hclock & Hlast & Hsp & Htim) Hstep.
  destruct e as [caller now | caller now]; unfold step in Hstep;
    destruct (now <? clock s) eqn:Hnow; try discriminate;
    apply Z.ltb_ge in Hnow.
  - destruct (waitForSlot (lim s) now) as [l' [|timeToWait]] eqn:Ew;
      injection Hstep as <-.
    + destruct (waitForSlot_at_once _ _ _ Ew) as (Hle & Hl' & Hi').
      assert (Hq' : queue l' = []).
      { unfold waitForSlot in Ew. destruct (Qeq_bool _ 0); [|discriminate].
        injection Ew as <-. exact Hq. }
      unfold runInvariant. cbn [lim admitted timers clock].
      rewrite Hi', Hl'.
      refine (conj Hgap (conj Hq' (conj (Z.le_refl _) (conj _ (conj _ _))))).
      * intros t0 Ht0. rewrite latest_snoc in Ht0. injection Ht0 as <-. reflexivity.
      * apply spaced_snoc; [exact Hsp|].
        intros t0 Ht0. pose proof (Hlast t0 Ht0) as E.
        assert (Ht : t0 <= now) by lia. rewrite Zle_Qle in Ht. lra.
      * intros c due Hin. specialize (Htim c due Hin).
        assert (Hc : clock s <= now) by lia. rewrite Zle_Qle in Hc. lra.
    + destruct (waitForSlot_timer _ _ _ _ Ew) as (Hdue & ->).
      unfold runInvariant. cbn [lim admitted timers clock].
      refine (conj Hgap (conj Hq (conj _ (conj Hlast (conj Hsp _))))); [lia|].
      intros c due Hin. apply in_app_or in Hin. destruct Hin as [Hin | [Hin | []]].
      * specialize (Htim c due Hin).
        assert (Hc : clock s <= now) by lia. rewrite Zle_Qle in Hc. lra.
      * injection Hin as <- <-. rewrite <- Hgap.
        assert (Hc : lastRequestTime (lim s) <= now) by lia.
        rewrite Zle_Qle in Hc. lra.
  - destruct (findTimer caller (timers s)) as [due|] eqn:Ef; [|discriminate].
    destruct (Qle_bool due (inject_Z now)) eqn:Ed; [|discriminate].
    injection Hstep as <-.
    unfold runInvariant.
    cbn [lim admitted timers clock timerFired interval lastRequestTime queue].
    refine (conj Hgap (conj Hq (conj (Z.le_refl _) (conj _ (conj _ _))))).
    + intros t0 Ht0. rewrite latest_snoc in Ht0. injection Ht0 as <-. reflexivity.
    + apply spaced_snoc; [exact Hsp|].
      intros t0 Ht0. pose proof (Hlast t0 Ht0) as E.
        assert (Ht : t0 <= now) by lia. rewrite Zle_Qle in Ht. lra.
    + intros c due0 Hin. apply In_dropTimer in Hin. specialize (Htim c due0 Hin).
      assert (Hc : clock s <= now) by lia. rewrite Zle_Qle in Hc. lra.
Qed.

Lemma run_runInvariant (gap : Q) (es : list event) (s0 s : state) :
  runInvariant gap s0 -> run s0 es = Some s -> runInvariant gap s.
Proof.
  revert s0. induction es as [|e es IH]; intros s0 Hinv Hrun; simpl in Hrun.
  - injection Hrun as <-. exact Hinv.
  - destruct (step s0 e) as [s1|] eqn:E; [|discriminate].
    apply (IH s1); [|exact Hrun].
    exact (step_runInvariant _ _ _ _ Hinv E).
Qed.

(** X7. After any run of a limiter, overlapping callers included: the
    time the limiter has recorded is the time of the latest admission
    and is not ahead of the clock; admissions are recorded in the order
    of time; no caller that waits has its timer due later than one
    interval after the clock; and the queue is empty, so that
    [processQueue] resumes nobody. *)
Theorem run_keeps_limiter (rps : Q) (es : list event) (s : state) :
  (0 < rps)%Q ->
  run (initial rps) es = Some s ->
  interval (lim s) = (1000 / rps)%Q /\
  lastRequestTime (lim s) <= clock s /\
  (forall t0, latest (admitted s) = Some t0 -> lastRequestTime (lim s) = t0) /\
  spaced 0 (admitted s) /\
  (forall c due, In (c, due) (timers s) ->
                 (due <= inject_Z (clock s) + 1000 / rps)%Q) /\
  processQueue (lim s) = (lim s, None).
Proof.
  intros _ Hrun.
  assert (Hinit : runInvariant (1000 / rps) (initial rps)).
  { unfold runInvariant, initial. simpl.
    refine (conj eq_refl (conj eq_refl (conj (Z.le_refl _) (conj _ (conj I _))))).
    - intros t0 H. discriminate.
    - intros c due []. }
  destruct (run_runInvariant _ _ _ _ Hinit Hrun) as (Hgap & Hq & Hclock & Hlast & Hsp & Htim).
  refine (conj Hgap (conj Hclock (conj _ (conj Hsp (conj Htim _))))).
  - intros t0 Ht0. symmetry. exact (Hlast t0 Ht0).
  - unfold processQueue. rewrite Hq. reflexivity.
Qed.

(** The theorem for [overlappingCalls], once the first two events have
    happened: the second caller waits, its timer due 500 ms after the
    first admission. *)
Lemma run_keeps_limiter_witness :
  exists s,
    run (initial 2) (firstn 2 overlappingCalls) = Some s /\
    lastRequestTime (lim s) = 1735603200000 /\
    processQueue (lim s) = (lim s, None).
Proof.
  eexists. split; [vm_compute; reflexivity|].
  split; [reflexivity|].
  refine (proj2 (proj2 (proj2 (proj2 (proj2
            (run_keeps_limiter 2 (firstn 2 overlappingCalls) _ _ _)))))).
  - reflexivity.
  - vm_compute. reflexivity.
Defined.

End RateLimiterRunFacts.

(** ** ScraperOrchestrator: the figures of a summary *)

Section ScraperSummaryFacts.

Import Exn DataNormalizer ScraperOrchestrator.

Lemma recorded_count (env : Env) (clock : Clock) (r i : nat) (s : ScholarshipScraper) :
  count (recorded env clock r i s) = List.length (scholarships (recorded env clock r i s)).
Proof.
  unfold recorded. destruct (firstReturn (scrape s) 0 (S r)); [reflexivity|].
  destruct (scrape s r); reflexivity.
Qed.

Lemma mapi_In {A B : Type} (f : nat -> A -> B) (xs : list A) (j0 : nat) (b : B) :
  In b (mapi f j0 xs) -> exists j x, b = f j x.
Proof.
  revert j0. induction xs as [|x xs IH]; intros j0; simpl; [intros []|].
  intros [<- | H]; [exists j0, x; reflexivity | exact (IH _ H)].
Qed.

Lemma fold_left_count (rs : list ScraperResult) (n : nat) :
  (forall r, In r rs -> count r = List.length (scholarships r)) ->
  fold_left (fun sum r => (sum + count r)%nat) rs n
  = (n + List.length (flat_map scholarships rs))%nat.
Proof.
  revert n. induction rs as [|r rs IH]; intros n H; simpl; [lia|].
  rewrite IH by (intros r' Hr'; apply H; right; exact Hr').
  rewrite (H r) by (left; reflexivity). rewrite length_app. lia.
Qed.

Lemma filter_both_length {A : Type} (q : A -> bool) (xs : list A) :
  (List.length (filter q xs) + List.length (filter (fun x => negb (q x)) xs))%nat
  = List.length xs.
Proof.
  induction xs as [|x xs IH]; simpl; [reflexivity|].
  destruct (q x); simpl; lia.
Qed.

(** X8. The figures of a summary agree with its records:
    [totalScholarships] is the number of records that [getScholarships]
    gives, the [count] of every result is the number of its records,
    and every source is counted once, as successful or as failed. *)
Theorem summary_figures (env : Env) (clock : Clock) (cfg : ScraperConfig)
    (ss : list ScholarshipScraper) :
  exists summary,
    scrapeAll env clock (create cfg ss) = Returns summary /\
    totalScholarships summary = List.length (getScholarships summary) /\
    (forall r, In r (results summary) -> count r = List.length (scholarships r)) /\
    (successfulSources summary + failedSources summary)%nat = List.length ss.
Proof.
  eexists. split; [apply scrapeAll_returns|].
  cbn [totalScholarships successfulSources failedSources results getScholarships].
  assert (Hcount : forall r,
            In r (mapi (recorded env clock (cfg_retries (retry cfg))) 0 ss) ->
            count r = List.length (scholarships r)).
  { intros r Hr. apply mapi_In in Hr. destruct Hr as [j [x ->]].
    apply recorded_count. }
  refine (conj _ (conj Hcount _)).
  - unfold getScholarships. cbn [results].
    rewrite fold_left_count; [reflexivity|].
    intros r Hr. apply Hcount. apply filter_In in Hr. exact (proj1 Hr).
  - rewrite filter_both_length. apply mapi_length.
Qed.



End ScraperSummaryFacts.

Section ScraperSummaryScenario.

Import Exn DataNormalizer ScraperOrchestrator.


End ScraperSummaryScenario.

(** ** ScraperOrchestrator: the records of a run are normalized *)

Section NormalizedRecords.

Import Exn Log DataNormalizer ScraperOrchestrator.

Lemma mapi_In_source {A B : Type} (f : nat -> A -> B) (xs : list A) (j0 : nat) (b : B) :
  In b (mapi f j0 xs) -> exists j x, In x xs /\ b = f j x.
Proof.
  revert j0. induction xs as [|x xs IH]; intros j0; simpl; [intros []|].
  intros [<- | H].
  - exists j0, x. split; [left; reflexivity | reflexivity].
  - destruct (IH _ H) as (j & y & Hy & ->). exists j, y. split; [right; exact Hy | reflexivity].
Qed.

Lemma firstReturn_some {T : Type} (fn : nat -> outcome T) (n a : nat) (v : T) :
  firstReturn fn a n = Some v -> exists k, fn k = Returns v.
Proof.
  revert a. induction n as [|n IH]; intros a; simpl; [discriminate|].
  destruct (fn a) as [v'|e] eqn:E.
  - intros H. injection H as <-. exists a. exact E.
  - apply IH.
Qed.

Lemma normalize_fields (env : Env) (now : Z) (raw : RawScholarship) :
  let s := fst (normalize env now raw) in
  name s = trim (raw_name raw) /\
  source s = raw_source raw /\
  country s = normalizeCountry (raw_country raw) /\
  degree s = fst (normalizeDegree (raw_degree raw)) /\
  deadline s = fst (normalizeDate env (raw_deadline raw)) /\
  link s = fst (normalizeURL env (raw_link raw)) /\
  scrapedAt s = JsDate.toISOString now.
Proof.
  unfold normalize. rewrite !bind_fst. cbn [fst ret name source country degree
    deadline link scrapedAt]. repeat split.
Qed.

Lemma normalizeDegree_NoDup (d : oneOrMany) : NoDup (fst (normalizeDegree d)).
Proof.
  unfold normalizeDegree. rewrite bind_fst. cbn [fst ret]. unfold distinct.
  apply setAdd_spec. constructor.
Qed.

(** X10. Every record that a run gives out has gone through the
    normalizer: each record of [getScholarships] is [normalize] of a
    raw record that one of the sources returned; its name has no white
    space at its ends, its source is the one of the raw record, no
    degree level is listed twice, and its link is the one that
    [normalizeURL] gives. *)
Theorem getScholarships_normalized (env : Env) (clock : Clock) (cfg : ScraperConfig)
    (ss : list ScholarshipScraper) :
  exists summary,
    scrapeAll env clock (create cfg ss) = Returns summary /\
    forall s, In s (getScholarships summary) ->
      exists src k raws raw now,
        In src ss /\ scrape src k = Returns raws /\ In raw raws /\
        s = fst (normalize env now raw) /\
        tight (name s) /\ source s = raw_source raw /\
        NoDup (degree s) /\
        link s = fst (normalizeURL env (raw_link raw)).
Proof.
  eexists. split; [apply scrapeAll_returns|].
  intros s Hs. unfold getScholarships in Hs. cbn [results] in Hs.
  apply in_flat_map in Hs. destruct Hs as (res & Hres & Hin).
  apply filter_In in Hres. destruct Hres as [Hres _].
  apply mapi_In_source in Hres. destruct Hres as (i & src & Hsrc & ->).
  rewrite recorded_scholarships in Hin. unfold contribution in Hin.
  destruct (firstReturn (scrape src) 0 (S (cfg_retries (retry cfg)))) as [raws|] eqn:E;
    [|destruct Hin].
  destruct (firstReturn_some _ _ _ _ E) as [k Hk].
  unfold normalizedRecords in Hin.
  apply mapi_In_source in Hin. destruct Hin as (j & raw & Hraw & ->).
  exists src, k, raws, raw, (normalizedAt clock i j).
  destruct (normalize_fields env (normalizedAt clock i j) raw)
    as (Hn & Hso & _ & Hd & _ & Hl & _).
  refine (conj Hsrc (conj Hk (conj Hraw (conj eq_refl (conj _ (conj Hso (conj _ Hl))))))).
  - rewrite Hn. apply trim_tight.
  - rewrite Hd. apply normalizeDegree_NoDup.
Qed.

End NormalizedRecords.

(** ** The route GET /scholarships *)

Section ApiFacts.

Import Exn DataNormalizer ScraperOrchestrator Api.

Lemma limitOf_range (limitParam : option jsstring) : 1 <= limitOf limitParam <= 100.
Proof.
  unfold limitOf. destruct limitParam as [[|c t]|]; try lia.
  destruct (parseInt10 (c :: t)); lia.
Qed.

(** X11. The limit of a search is always between 1 and 100, whatever
    the [limit] parameter holds; it is 50 when the parameter is absent,
    empty or starts with no number, and otherwise the leading whole
    number brought into that range.  A search never gives more records
    than its limit. *)
Theorem limitOf_bounds (limitParam : option jsstring) :
  1 <= limitOf limitParam <= 100 /\
  ((limitParam = None \/ limitParam = Some [] \/
    exists text, limitParam = Some text /\ parseInt10 text = None) ->
   limitOf limitParam = 50) /\
  (forall text n, limitParam = Some text -> parseInt10 text = Some n ->
     limitOf limitParam = Z.min (Z.max n 1) 100) /\
  (forall country degree scholarships,
     Z.of_nat (List.length (search (mkQuery country degree limitParam) scholarships))
     <= limitOf limitParam).
Proof.
  pose proof (limitOf_range limitParam) as Hb.
  refine (conj Hb (conj _ (conj _ _))).
  - intros [-> | [-> | [text [-> H]]]]; try reflexivity.
    unfold limitOf. rewrite H. destruct text; reflexivity.
  - intros text n -> H. unfold limitOf. rewrite H.
    destruct text as [|c t]; [discriminate H | reflexivity].
  - intros country degree scholarships. unfold search, slice0. cbn [q_limit].
    rewrite length_firstn. lia.
Qed.

(** The theorem at the parameters "250", "-3" and " 7 per page". *)
Lemma limitOf_bounds_witness :
  limitOf (Some (lit "250")) = 100 /\ limitOf (Some (lit "-3")) = 1 /\
  limitOf (Some (lit " 7 per page")) = 7 /\ limitOf (Some (lit "ten")) = 50.
Proof.
  refine (conj _ (conj _ (conj _ _))).
  - apply (proj1 (proj2 (proj2 (limitOf_bounds (Some (lit "250"))))) (lit "250") 250);
      reflexivity.
  - apply (proj1 (proj2 (proj2 (limitOf_bounds (Some (lit "-3"))))) (lit "-3") (-3));
      reflexivity.
  - apply (proj1 (proj2 (proj2 (limitOf_bounds (Some (lit " 7 per page")))))
             (lit " 7 per page") 7); reflexivity.
  - apply (proj1 (proj2 (limitOf_bounds (Some (lit "ten"))))).
    right. right. exists (lit "ten"). split; reflexivity.
Defined.




Lemma filter_filter {A : Type} (p1 p2 : A -> bool) (l : list A) :
  filter p2 (filter p1 l) = filter (fun x => p1 x && p2 x)%bool l.
Proof.
  induction l as [|x l IH]; simpl; [reflexivity|].
  destruct (p1 x); simpl; [destruct (p2 x)|]; rewrite IH; reflexivity.
Qed.

Lemma filter_true {A : Type} (l : list A) : filter (fun _ => true) l = l.
Proof. induction l as [|x l IH]; simpl; [|rewrite IH]; reflexivity. Qed.




End ApiFacts.

(** ** FilterState *)

Section FilterStateFacts.

Import Log FilterState.

Lemma hasActiveFilters_getActiveFilters_aux (s : state) :
  (hasActiveFilters s = true <-> getActiveFilters s <> []) /\
  (forall name value, In (name, value) (getActiveFilters s) <->
     (name = lit "amountRange" /\ value = amountRange s /\ value <> lit "any") \/
     (name = lit "deadlineRange" /\ value = deadlineRange s /\ value <> lit "any") \/
     (name = lit "country" /\ value = country s /\ value <> []) \/
     (name = lit "degree" /\ value = degree s /\ value <> [])) /\
  getActiveFilters (resetAll s) = [] /\
  hasActiveFilters (resetAll s) = false.
Proof.
  refine (conj _ (conj _ (conj eq_refl eq_refl))).
  - unfold hasActiveFilters, getActiveFilters.
    destruct (streq (amountRange s) (lit "any")),
             (streq (deadlineRange s) (lit "any")),
             (streq (country s) []), (streq (degree s) []);
      simpl; split; congruence.
  - intros name value. unfold getActiveFilters.
    rewrite !in_app_iff.
    assert (Hone : forall (k v d : jsstring),
              In (name, value) (if negb (streq v d) then [(k, v)] else [])
              <-> name = k /\ value = v /\ value <> d).
    { intros k v d. destruct (streq v d) eqn:E; simpl.
      - apply streq_eq in E. subst d. split; [intros [] | intros (_ & -> & H)].
        apply H. reflexivity.
      - split.
        + intros [H | []]. injection H as <- <-.
          refine (conj eq_refl (conj eq_refl _)).
          intros ->. rewrite streq_refl in E. discriminate.
        + intros (-> & -> & _). left. reflexivity. }
    rewrite !Hone. reflexivity.
Qed.

(** X13. [hasActiveFilters] and [getActiveFilters] agree: the first is
    true exactly when the second has an entry; an entry is a filter
    with the value it holds, and a filter has an entry exactly when it
    is off its default.  After [resetAll] no filter is active. *)
Theorem hasActiveFilters_getActiveFilters (s : state) :
  (hasActiveFilters s = true <-> getActiveFilters s <> []) /\
  (forall name value, In (name, value) (getActiveFilters s) <->
     (name = lit "amountRange" /\ value = amountRange s /\ value <> lit "any") \/
     (name = lit "deadlineRange" /\ value = deadlineRange s /\ value <> lit "any") \/
     (name = lit "country" /\ value = country s /\ value <> []) \/
     (name = lit "degree" /\ value = degree s /\ value <> [])) /\
  getActiveFilters (resetAll s) = [] /\
  hasActiveFilters (resetAll s) = false.
Proof. exact (hasActiveFilters_getActiveFilters_aux s). Qed.

Lemma setFilter_known (name value : jsstring) (s : state) :
  In name (map fst filterNames) ->
  snd (setFilter name value s) = [] /\
  (name = lit "amountRange" ->
   fst (setFilter name value s) = mkState value (deadlineRange s) (country s) (degree s)) /\
  (name = lit "deadlineRange" ->
   fst (setFilter name value s) = mkState (amountRange s) value (country s) (degree s)) /\
  (name = lit "country" ->
   fst (setFilter name value s) = mkState (amountRange s) (deadlineRange s) value (degree s)) /\
  (name = lit "degree" ->
   fst (setFilter name value s) = mkState (amountRange s) (deadlineRange s) (country s) value).
Proof.
  simpl. intros [<- | [<- | [<- | [<- | []]]]];
    (split; [reflexivity|]);
    repeat split; intros E; (discriminate E || reflexivity).
Qed.

(** X14. [setFilter] with one of the four names sets that filter and
    leaves the others as they were, without a warning: the value is
    then the one that [getActiveFilters] reports, unless it is the
    default of the filter.  With any other name -- a misspelt one, or a
    name that every object inherits -- the state is left as it was and
    a warning is logged. *)
Theorem setFilter_spec (name value : jsstring) (s : state) :
  (forall default, In (name, default) filterNames ->
     snd (setFilter name value s) = [] /\
     (value <> default ->
      In (name, value) (getActiveFilters (fst (setFilter name value s)))) /\
     (forall other v, other <> name ->
        (In (other, v) (getActiveFilters (fst (setFilter name value s)))
         <-> In (other, v) (getActiveFilters s)))) /\
  (~ In name (map fst filterNames) ->
   setFilter name value s
   = (s, [mkEntry warn (lit "Unknown filter: " ++ name)])).
Proof.
  split.
  - intros default Hin.
    assert (Hname : In name (map fst filterNames))
      by (apply in_map_iff; exists (name, default); split; [reflexivity | exact Hin]).
    destruct (setFilter_known name value s Hname) as (Hlog & Ha & Hd & Hc & Hg).
    split; [exact Hlog|].
    split.
    + intros Hv.
      apply (proj1 (proj2 (hasActiveFilters_getActiveFilters_aux _)) name value).
      simpl in Hin.
      destruct Hin as [E | [E | [E | [E | []]]]]; injection E as <- <-.
      * left. rewrite (Ha eq_refl). auto.
      * right. left. rewrite (Hd eq_refl). auto.
      * right. right. left. rewrite (Hc eq_refl). auto.
      * right. right. right. rewrite (Hg eq_refl). auto.
    + intros other v Hother.
      rewrite (proj1 (proj2 (hasActiveFilters_getActiveFilters_aux _)) other v).
      rewrite (proj1 (proj2 (hasActiveFilters_getActiveFilters_aux s)) other v).
      simpl in Hin.
      destruct Hin as [E | [E | [E | [E | []]]]]; injection E as <- <-;
        [rewrite (Ha eq_refl) | rewrite (Hd eq_refl)
         | rewrite (Hc eq_refl) | rewrite (Hg eq_refl)];
        cbn [amountRange deadlineRange country degree];
        split; intros [H | [H | [H | H]]]; destruct H as (E1 & E2 & E3);
        try (exfalso; apply Hother; exact E1); tauto.
  - intros Hnot. unfold setFilter.
    assert (Hn : forall k, In k (map fst filterNames) -> streq name k = false).
    { intros k Hk. destruct (streq name k) eqn:E; [|reflexivity].
      apply streq_eq in E. subst k. contradiction. }
    rewrite !Hn by (simpl; tauto). reflexivity.
Qed.

End FilterStateFacts.

Section FilterStateScenario.

Import Log FilterState.

(** The theorem for a new state: the country set to "Germany", and the
    misspelt name "Country". *)
Lemma setFilter_spec_witness :
  In (lit "country", lit "Germany")
     (getActiveFilters (fst (setFilter (lit "country") (lit "Germany") create))) /\
  setFilter (lit "Country") (lit "Germany") create
  = (create, [mkEntry warn (lit "Unknown filter: Country")]).
Proof.
  split.
  - refine (proj1 (proj2 (proj1 (setFilter_spec (lit "country") (lit "Germany") create)
                            [] _)) _).
    + simpl. do 2 right. left. reflexivity.
    + discriminate.
  - refine (proj2 (setFilter_spec (lit "Country") (lit "Germany") create) _).
    simpl. intros [H | [H | [H | [H | []]]]]; discriminate H.
Defined.

End FilterStateScenario.

(** ** FilterEngine *)

Section FilterEngineFacts.

Import Log FilterEngine.

Variable env : Env.
Variable now : Z.

Lemma pointwise_filter (p : Scholarship -> bool) : pointwise (filter p).
Proof.
  intros l. apply filter_ext. intros s. unfold keptAlone. simpl.
  destruct (p s); reflexivity.
Qed.

Lemma pointwise_id : pointwise (fun l => l).
Proof. intros l. unfold keptAlone. symmetry. apply filter_true. Qed.

Lemma pointwise_ext (F G : list Scholarship -> list Scholarship) :
  (forall l, F l = G l) -> pointwise G -> pointwise F.
Proof.
  intros H HG l. rewrite H, (HG l). apply filter_ext. intros s.
  unfold keptAlone. rewrite H. reflexivity.
Qed.

Lemma keptAlone_compose (F G : list Scholarship -> list Scholarship) (s : Scholarship) :
  pointwise F -> pointwise G ->
  keptAlone (fun l => G (F l)) s = (keptAlone F s && keptAlone G s)%bool.
Proof.
  intros HF HG. unfold keptAlone at 1. rewrite (HF [s]). simpl.
  destruct (keptAlone F s); simpl.
  - reflexivity.
  - rewrite (HG []). reflexivity.
Qed.

Lemma pointwise_compose (F G : list Scholarship -> list Scholarship) :
  pointwise F -> pointwise G -> pointwise (fun l => G (F l)).
Proof.
  intros HF HG l. rewrite (HF l), (HG _), filter_filter.
  apply filter_ext. intros s. symmetry. apply keptAlone_compose; assumption.
Qed.

(** The stages of [applyFilters]. *)
Lemma filterByAmount_pointwise (a : jsstring) :
  pointwise (fun l => fst (filterByAmount l a)).
Proof.
  unfold filterByAmount. destruct (find AMOUNT_RANGES a) as [c| |].
  - destruct (streq a (lit "any")).
    + apply pointwise_id.
    + apply (pointwise_filter (keepAmount (special c) (min c) (max c))).
  - destruct (streq a (lit "any")).
    + apply pointwise_id.
    + apply (pointwise_filter (keepAmount None None None)).
  - apply pointwise_id.
Qed.

Lemma filterByDeadline_pointwise (d : jsstring) :
  pointwise (fun l => fst (filterByDeadline env now l d)).
Proof.
  unfold filterByDeadline. destruct (find DEADLINE_RANGES d) as [c| |].
  - destruct (streq d (lit "any")).
    + apply pointwise_id.
    + apply (pointwise_filter
               (fun s => DeadlineCalculator.isWithinDays env now (deadline s) (days c))).
  - destruct (streq d (lit "any")).
    + apply pointwise_id.
    + apply (pointwise_filter
               (fun s => DeadlineCalculator.isWithinDays env now (deadline s) NaN)).
  - apply pointwise_id.
Qed.

Lemma filterByCountry_pointwise (c : jsstring) :
  pointwise (fun l => filterByCountry l c).
Proof.
  destruct c as [|x c]; [apply pointwise_id|].
  apply (pointwise_filter
           (fun s => sameText (country s) (trim (toLowerCase (x :: c))))).
Qed.

Lemma filterByDegree_pointwise (g : jsstring) :
  pointwise (fun l => filterByDegree l g).
Proof.
  destruct g as [|x g]; [apply pointwise_id|].
  apply (pointwise_filter
           (fun s => sameText (degree s) (trim (toLowerCase (x :: g))))).
Qed.

Lemma applyFilters_stages (st : FilterState.state) (l : list Scholarship) :
  fst (applyFilters env now l st)
  = stageDegree (FilterState.degree st)
      (stageCountry (FilterState.country st)
         (stageDeadline env now (FilterState.deadlineRange st)
            (stageAmount (FilterState.amountRange st) l))).
Proof.
  unfold applyFilters, stageAmount, stageDeadline, stageCountry, stageDegree.
  rewrite !bind_fst.
  destruct (active (FilterState.amountRange st) (lit "any")),
           (active (FilterState.deadlineRange st) (lit "any")); reflexivity.
Qed.

Lemma stageAmount_pointwise (a : jsstring) : pointwise (stageAmount a).
Proof.
  unfold stageAmount. destruct (active a (lit "any"));
    [apply filterByAmount_pointwise | apply pointwise_id].
Qed.

Lemma stageDeadline_pointwise (d : jsstring) : pointwise (stageDeadline env now d).
Proof.
  unfold stageDeadline. destruct (active d (lit "any"));
    [apply filterByDeadline_pointwise | apply pointwise_id].
Qed.

Lemma stageCountry_pointwise (c : jsstring) : pointwise (stageCountry c).
Proof.
  unfold stageCountry. destruct (active c []);
    [apply filterByCountry_pointwise | apply pointwise_id].
Qed.

Lemma stageDegree_pointwise (g : jsstring) : pointwise (stageDegree g).
Proof.
  unfold stageDegree. destruct (active g []);
    [apply filterByDegree_pointwise | apply pointwise_id].
Qed.

Lemma applyFilters_pointwise (st : FilterState.state) :
  pointwise (fun l => fst (applyFilters env now l st)).
Proof.
  apply (pointwise_ext _ _ (applyFilters_stages st)).
  apply (pointwise_compose
           (fun l => stageCountry _ (stageDeadline env now _ (stageAmount _ l)))).
  - apply (pointwise_compose (fun l => stageDeadline env now _ (stageAmount _ l))).
    + apply (pointwise_compose (stageAmount _));
        [apply stageAmount_pointwise | apply stageDeadline_pointwise].
    + apply stageCountry_pointwise.
  - apply stageDegree_pointwise.
Qed.

Lemma keptAlone_ext (F G : list Scholarship -> list Scholarship) (s : Scholarship) :
  (forall l, F l = G l) -> keptAlone F s = keptAlone G s.
Proof. intros H. unfold keptAlone. rewrite H. reflexivity. Qed.

(** X15. [applyFilters] treats every scholarship on its own: the
    result is the list given, in its order, without the scholarships
    that the filters do not keep.  A scholarship is kept exactly when
    each of the four filters, set alone, keeps it; filtering a second
    time changes nothing; and a state in which no filter is set gives
    the list back with no warning. *)
Theorem applyFilters_spec (st : FilterState.state) (l : list Scholarship) :
  fst (applyFilters env now l st) = filter (keeps env now st) l /\
  (forall s,
     keeps env now st s
     = (keeps env now (onlyAmount (FilterState.amountRange st)) s
        && keeps env now (onlyDeadline (FilterState.deadlineRange st)) s
        && keeps env now (onlyCountry (FilterState.country st)) s
        && keeps env now (onlyDegree (FilterState.degree st)) s)%bool) /\
  fst (applyFilters env now (fst (applyFilters env now l st)) st)
  = fst (applyFilters env now l st) /\
  applyFilters env now l FilterState.create = (l, []).
Proof.
  refine (conj (applyFilters_pointwise st l) (conj _ (conj _ _))).
  - intros s. unfold keeps.
    rewrite (keptAlone_ext _ _ s (applyFilters_stages st)).
    rewrite (keptAlone_ext _ _ s (applyFilters_stages (onlyAmount _))).
    rewrite (keptAlone_ext _ _ s (applyFilters_stages (onlyDeadline _))).
    rewrite (keptAlone_ext _ _ s (applyFilters_stages (onlyCountry _))).
    rewrite (keptAlone_ext _ _ s (applyFilters_stages (onlyDegree _))).
    cbn [onlyAmount onlyDeadline onlyCountry onlyDegree FilterState.amountRange
         FilterState.deadlineRange FilterState.country FilterState.degree].
    rewrite (keptAlone_compose
               (fun l => stageCountry _ (stageDeadline env now _ (stageAmount _ l)))
               (stageDegree _)).
    2:{ apply (pointwise_compose (fun l => stageDeadline env now _ (stageAmount _ l))).
        - apply (pointwise_compose (stageAmount _));
            [apply stageAmount_pointwise | apply stageDeadline_pointwise].
        - apply stageCountry_pointwise. }
    2:{ apply stageDegree_pointwise. }
    rewrite (keptAlone_compose (fun l => stageDeadline env now _ (stageAmount _ l))
               (stageCountry _)).
    2:{ apply (pointwise_compose (stageAmount _));
          [apply stageAmount_pointwise | apply stageDeadline_pointwise]. }
    2:{ apply stageCountry_pointwise. }
    rewrite (keptAlone_compose (stageAmount _) (stageDeadline env now _))
      by (apply stageAmount_pointwise || apply stageDeadline_pointwise).
    reflexivity.
  - rewrite !(applyFilters_pointwise st). rewrite filter_filter.
    apply filter_ext. intros s. apply andb_diag.
  - reflexivity.
Qed.

End FilterEngineFacts.

Section FilterEngineRanges.

Import Log FilterEngine.






End FilterEngineRanges.

Section FilterEngineWindows.

Import Log FilterEngine DeadlineCalculator.

Variable env : Env.
Variable now : Z.

Lemma le_NaN (n : jsnum) : JsNum.le n NaN = false.
Proof. destruct n; reflexivity. Qed.

Lemma isWithinDays_NaN (d : deadline) : isWithinDays env now d NaN = false.
Proof.
  unfold isWithinDays. destruct (daysUntil env now d); [|reflexivity].
  rewrite le_NaN. apply andb_false_r.
Qed.

(** X17. The deadline windows of the search page are nested: what
    [within-30] keeps, [within-60] keeps, and what [within-60] keeps,
    [within-90] keeps.  None of them keeps a scholarship whose deadline
    is missing, unreadable or in the past: a scholarship that is kept
    has a deadline between 0 and 90 days away. *)
Theorem deadline_windows_nested (l : list Scholarship) :
  let window (key : string) := fst (filterByDeadline env now l (lit key)) in
  incl (window "within-30"%string) (window "within-60"%string) /\
  incl (window "within-60"%string) (window "within-90"%string) /\
  (forall s, In s (window "within-90"%string) ->
     In s l /\
     exists n, daysUntil env now (FilterEngine.deadline s) = Some n /\
               JsNum.ge n (ofZ 0) = true /\ JsNum.le n (ofZ 90) = true).
Proof.
  intros window.
  assert (H30 : window "within-30"%string
                = filter (fun s => isWithinDays env now (FilterEngine.deadline s) (ofZ 30)) l)
    by reflexivity.
  assert (H60 : window "within-60"%string
                = filter (fun s => isWithinDays env now (FilterEngine.deadline s) (ofZ 60)) l)
    by reflexivity.
  assert (H90 : window "within-90"%string
                = filter (fun s => isWithinDays env now (FilterEngine.deadline s) (ofZ 90)) l)
    by reflexivity.
  rewrite H30, H60, H90. refine (conj _ (conj _ _)).
  - intros s Hs. apply filter_In in Hs. apply filter_In.
    split; [exact (proj1 Hs)|].
    apply (isWithinDays_mono env now _ (ofZ 30)); [reflexivity | exact (proj2 Hs)].
  - intros s Hs. apply filter_In in Hs. apply filter_In.
    split; [exact (proj1 Hs)|].
    apply (isWithinDays_mono env now _ (ofZ 60)); [reflexivity | exact (proj2 Hs)].
  - intros s Hs. apply filter_In in Hs. destruct Hs as [Hin Hw].
    split; [exact Hin|]. unfold isWithinDays in Hw.
    destruct (daysUntil env now (FilterEngine.deadline s)) as [n|]; [|discriminate].
    apply andb_true_iff in Hw. exists n. split; [reflexivity | exact Hw].
Qed.

Lemma find_absent {A : Type} (table : list (jsstring * A)) (key : jsstring) :
  ~ In key (keysOf table) -> find table key = Absent.
Proof.
  unfold keysOf. intros H.
  assert (H1 : ~ In key (map fst table)) by (intros X; apply H, in_or_app; left; exact X).
  assert (H2 : ~ In key inheritedKeys) by (intros X; apply H, in_or_app; right; exact X).
  clear H. induction table as [|[k v] table IH]; cbn [find].
  - destruct (existsb (streq key) inheritedKeys) eqn:E; [|reflexivity].
    apply existsb_streq in E. contradiction.
  - destruct (streq k key) eqn:E.
    + apply streq_eq in E. subst k. exfalso. apply H1. left. reflexivity.
    + apply IH. intros X. apply H1. right. exact X.
Qed.

(** X18. A range key that the table does not have filters nothing: the
    list is given back whole and a warning is logged, for the amounts
    and for the deadlines alike; so does [applyFilters] when the state
    holds such a key.  A key that is the name of a member every object
    inherits is taken for a range without a warning: for the deadlines
    it keeps no scholarship at all. *)
Theorem unknown_range_filters_nothing (key : jsstring) (l : list Scholarship) :
  (~ In key (keysOf AMOUNT_RANGES) ->
   filterByAmount l key
   = (l, [mkEntry warn (lit "Unknown amount range: " ++ key)]) /\
   fst (applyFilters env now l (onlyAmount key)) = l) /\
  (~ In key (keysOf DEADLINE_RANGES) ->
   filterByDeadline env now l key
   = (l, [mkEntry warn (lit "Unknown deadline range: " ++ key)]) /\
   fst (applyFilters env now l (onlyDeadline key)) = l) /\
  (In key inheritedKeys ->
   snd (filterByAmount l key) = [] /\
   filterByDeadline env now l key = ([], [])).
Proof.
  refine (conj _ (conj _ _)).
  - intros H. pose proof (find_absent AMOUNT_RANGES key H) as Hf.
    assert (Hr : filterByAmount l key
                 = (l, [mkEntry warn (lit "Unknown amount range: " ++ key)]))
      by (unfold filterByAmount; rewrite Hf; reflexivity).
    split; [exact Hr|].
    rewrite applyFilters_stages. cbn [onlyAmount FilterState.amountRange
      FilterState.deadlineRange FilterState.country FilterState.degree].
    change (stageDegree [] ?x) with x. change (stageCountry [] ?x) with x.
    change (stageDeadline env now (lit "any") ?x) with x.
    unfold stageAmount. rewrite Hr. destruct (active key (lit "any")); reflexivity.
  - intros H. pose proof (find_absent DEADLINE_RANGES key H) as Hf.
    assert (Hr : filterByDeadline env now l key
                 = (l, [mkEntry warn (lit "Unknown deadline range: " ++ key)]))
      by (unfold filterByDeadline; rewrite Hf; reflexivity).
    split; [exact Hr|].
    rewrite applyFilters_stages. cbn [onlyDeadline FilterState.amountRange
      FilterState.deadlineRange FilterState.country FilterState.degree].
    change (stageDegree [] ?x) with x. change (stageCountry [] ?x) with x.
    change (stageAmount (lit "any") ?x) with x.
    unfold stageDeadline. rewrite Hr. destruct (active key (lit "any")); reflexivity.
  - intros H. unfold inheritedKeys in H. cbn [In] in H.
    assert (Hnone : filter (fun s => isWithinDays env now (FilterEngine.deadline s) NaN) l = []).
    { clear H. induction l as [|s l' IH]; simpl; [reflexivity|].
      rewrite isWithinDays_NaN. exact IH. }
    repeat (destruct H as [<- | H];
            [split; [reflexivity | unfold filterByDeadline; cbn [find DEADLINE_RANGES];
                                   simpl; rewrite Hnone; reflexivity]|]).
    contradiction.
Qed.

End FilterEngineWindows.

Section FilterEngineScenario.

Import Log FilterEngine DeadlineCalculator.

(** The theorem on 2 January 2025, for deadlines 18 days away, 72 days
    away and two days past: the window of 90 days keeps the first two. *)
Lemma deadline_windows_nested_witness :
  let l := [withDeadline "2025-01-20"; withDeadline "2025-03-15";
            withDeadline "2024-12-31"] in
  fst (filterByDeadline hostUTC 1735813800000 l (lit "within-90"))
  = [withDeadline "2025-01-20"; withDeadline "2025-03-15"] /\
  exists n, daysUntil hostUTC 1735813800000 (FilterEngine.deadline (withDeadline "2025-03-15"))
            = Some n /\
            JsNum.ge n (ofZ 0) = true /\ JsNum.le n (ofZ 90) = true.
Proof.
  intros l. split; [vm_compute; reflexivity|].
  refine (proj2 (proj2 (proj2 (deadline_windows_nested hostUTC 1735813800000 l))
                   (withDeadline "2025-03-15") _)).
  vm_compute. right. left. reflexivity.
Defined.

(** The theorem for the key "under-5K", which is no key of the table. *)
Lemma unknown_range_filters_nothing_witness :
  filterByAmount [withAmount "$1,000"; withAmount "$30,000"] (lit "under-5K")
  = ([withAmount "$1,000"; withAmount "$30,000"],
     [mkEntry warn (lit "Unknown amount range: under-5K")]).
Proof.
  refine (proj1 (proj1 (unknown_range_filters_nothing hostUTC 0 (lit "under-5K") _) _)).
  unfold keysOf. simpl.
  intros H. repeat (destruct H as [H | H]; [discriminate H|]). exact H.
Defined.

End FilterEngineScenario.

(** ** The pattern of links *)

Section LinkPatternFacts.

Import Regex ScholarshipValidator.

Lemma star_some {A : Type} (ci : bool) (r : re) (c : ctx) (k : ctx -> option A) :
  (forall c', k c' <> None) -> rmatch ci (Star r) c k <> None.
Proof.
  intros Hk. cbn [rmatch]. destruct (List.length (rest c)) as [|n]; [apply Hk|].
  match goal with |- match ?m with _ => _ end <> _ => destruct m end;
    [discriminate | apply Hk].
Qed.

(** The pattern of links, whatever follows the two slashes in it. *)
Lemma linkPattern_prefix (tail : re) (text : jsstring) :
  matchAt false (seql [Bol; Word "http"; Opt (Chr 115); Chr 58; Chr 47; Chr 47; tail])
    (mkCtx [] (lit "https://" ++ text) [])
  = rmatch false tail (mkCtx (rev (lit "https://")) text []) (fun c' => Some c').
Proof.
  unfold matchAt, seql, Word, Opt. cbn [lit map].
  cbn [rmatch]. unfold eat. cbn.
  destruct (rmatch false tail _ _); reflexivity.
Qed.

Lemma linkPattern_prefix_plain (tail : re) (text : jsstring) :
  matchAt false (seql [Bol; Word "http"; Opt (Chr 115); Chr 58; Chr 47; Chr 47; tail])
    (mkCtx [] (lit "http://" ++ text) [])
  = rmatch false tail (mkCtx (rev (lit "http://")) text []) (fun c' => Some c').
Proof.
  unfold matchAt, seql, Word, Opt. cbn [lit map].
  cbn [rmatch]. unfold eat. cbn. reflexivity.
Qed.

Lemma plus_dot_some (b : list N) (c : N) (text : jsstring) :
  isLineTerminator c = false ->
  rmatch false (Plus Dot) (mkCtx b (c :: text) []) (fun c' => Some c') <> None.
Proof.
  intros Hc.
  change (rmatch false (Plus Dot) ?x ?k)
    with (eat (fun u => negb (isLineTerminator u)) x
            (fun c' => rmatch false (Star Dot) c' k)).
  unfold eat. cbn [rest before caps]. rewrite Hc.
  cbn [negb]. apply star_some. discriminate.
Qed.

(** The pattern has [^]: it matches at the start of the text or
    nowhere. *)
Lemma linkPattern_later (bef rst : list N) :
  bef <> [] -> searchFrom false linkPattern bef rst = None.
Proof.
  revert bef. induction rst as [|x rst IH]; intros bef Hb.
  - destruct bef; [congruence | reflexivity].
  - cbn [searchFrom].
    assert (H : matchAt false linkPattern (mkCtx bef (x :: rst) []) = None)
      by (destruct bef; [congruence | reflexivity]).
    rewrite H. apply IH. discriminate.
Qed.

Lemma linkPattern_at_start (text : jsstring) :
  test false linkPattern text = true <->
  matchAt false linkPattern (mkCtx [] text []) <> None.
Proof.
  unfold test. destruct text as [|x text]; cbn [searchFrom].
  - destruct (matchAt false linkPattern (mkCtx [] [] [])); split; congruence.
  - destruct (matchAt false linkPattern (mkCtx [] (x :: text) [])).
    + split; congruence.
    + rewrite linkPattern_later by discriminate. split; congruence.
Qed.

Lemma eat_inv {A : Type} (p : N -> bool) (b rst : list N) (cs : list jsstring)
    (k : ctx -> option A) :
  eat p (mkCtx b rst cs) k <> None ->
  exists x xs, rst = x :: xs /\ p x = true /\ k (mkCtx (x :: b) xs cs) <> None.
Proof.
  unfold eat. cbn [rest before caps]. destruct rst as [|x xs]; [congruence|].
  destruct (p x) eqn:E; [|congruence]. intros H. exists x, xs. auto.
Qed.

Ltac eat_unit H :=
  let x := fresh "x" in
  let xs := fresh "xs" in
  let Hx := fresh "Hx" in
  apply eat_inv in H; destruct H as (x & xs & -> & Hx & H);
  try (apply N.eqb_eq in Hx; subst x).

Lemma linkPattern_shape (text : jsstring) :
  matchAt false linkPattern (mkCtx [] text []) <> None -> isLink text.
Proof.
  intros H. unfold matchAt, linkPattern, seql, Word, Opt, Plus in H.
  cbn [lit map] in H. cbn [rmatch before] in H.
  do 4 eat_unit H.
  match type of H with
  | match ?m with _ => _ end <> None => destruct m eqn:E
  end.
  - match type of E with
    | ?m = Some _ => assert (E' : m <> None) by (rewrite E; discriminate)
    end.
    clear E H. do 5 eat_unit E'.
    match goal with
    | Hd : negb (isLineTerminator ?u) = true |- _ =>
        exists u; eexists; split; [apply negb_true_iff; exact Hd | right; reflexivity]
    end.
  - clear E. do 4 eat_unit H.
    match goal with
    | Hd : negb (isLineTerminator ?u) = true |- _ =>
        exists u; eexists; split; [apply negb_true_iff; exact Hd | left; reflexivity]
    end.
Qed.

(** What [/^https?:\/\/.+/] accepts. *)
Lemma linkPattern_spec (text : jsstring) :
  test false linkPattern text = true <-> isLink text.
Proof.
  rewrite linkPattern_at_start. split; [apply linkPattern_shape|].
  intros (c & rest & Hc & [-> | ->]); unfold linkPattern.
  - rewrite linkPattern_prefix_plain. apply plus_dot_some. exact Hc.
  - rewrite linkPattern_prefix. apply plus_dot_some. exact Hc.
Qed.

Lemma linkPattern_https (c : N) (text : jsstring) :
  isLineTerminator c = false ->
  test false linkPattern (lit "https://" ++ c :: text) = true.
Proof.
  intros Hc. apply linkPattern_spec. exists c, text. split; [exact Hc | right; reflexivity].
Qed.

End LinkPatternFacts.

(** ** ScholarshipValidator: when a record is valid *)

Section ValidityFacts.

Import Regex ScholarshipValidator.

Lemma isValid_errors (s : record) :
  isValid (validate s) = match errors (validate s) with [] => true | _ :: _ => false end.
Proof. reflexivity. Qed.

(** The optional fields give no error. *)
Lemma turnOptional_no_error (s : record) (f : field) :
  In f SCHOLARSHIP_SCHEMA.optional -> fst (turnOptional s f) = [].
Proof.
  intros Hf. unfold turnOptional, checkOptional.
  destruct (missingOrEmpty (s f)); [reflexivity|]. cbn [negb].
  unfold validateFieldConstraints.
  simpl in Hf.
  destruct Hf as [<- | [<- | [<- | [<- | [<- | [<- | []]]]]]];
    cbn [SCHOLARSHIP_SCHEMA.constraints minLength maxLength pattern];
    try reflexivity;
    match goal with |- context [if ?b then _ else _] => destruct b end; reflexivity.
Qed.

Lemma errors_required (s : record) :
  errors (validate s)
  = fst (turnRequired s f_name) ++ fst (turnRequired s f_source)
    ++ fst (turnRequired s f_link).
Proof.
  rewrite (proj1 (validate_turns s)).
  cbn [flat_map SCHOLARSHIP_SCHEMA.required SCHOLARSHIP_SCHEMA.optional].
  rewrite !turnOptional_no_error by (simpl; tauto).
  rewrite !app_nil_r. reflexivity.
Qed.

Lemma turnRequired_min (s : record) (f : field) (m m' : nat) :
  SCHOLARSHIP_SCHEMA.constraints f = Some (mkConstraint (Some m) (Some m') None) ->
  fst (turnRequired s f) = [] <->
  missingOrEmpty (s f) = false /\ (m <= List.length (stringOf (s f)))%nat.
Proof.
  intros Hc. unfold turnRequired, checkRequired.
  destruct (missingOrEmpty (s f)).
  - simpl. split; [discriminate | intros [H _]; discriminate H].
  - unfold validateFieldConstraints. rewrite Hc.
    cbn [minLength maxLength pattern].
    destruct (List.length (stringOf (s f)) <? m)%nat eqn:E;
      destruct (m' <? List.length (stringOf (s f)))%nat; simpl;
      (apply Nat.ltb_lt in E || apply Nat.ltb_ge in E);
      split; try discriminate; try (intros [_ H]; lia); auto.
Qed.

Lemma constraintReports_link (v : jsval) :
  constraintReports f_link v
  = (if test false linkPattern (stringOf v) then [] else [patternError f_link], []).
Proof.
  unfold constraintReports, validateFieldConstraints.
  cbn [SCHOLARSHIP_SCHEMA.constraints minLength maxLength pattern].
  destruct (test false linkPattern (stringOf v)); reflexivity.
Qed.

Lemma turnRequired_link (s : record) :
  fst (turnRequired s f_link) = [] <->
  missingOrEmpty (s f_link) = false
  /\ test false linkPattern (stringOf (s f_link)) = true.
Proof.
  destruct (missingOrEmpty (s f_link)) eqn:E.
  - unfold turnRequired, checkRequired. rewrite E. simpl.
    split; [discriminate | intros [H _]; discriminate H].
  - rewrite (proj1 (present_turn s f_link E)), constraintReports_link.
    destruct (test false linkPattern (stringOf (s f_link))); simpl;
      split; try discriminate; auto. intros [_ H]. discriminate H.
Qed.

(** X19. A record is valid exactly when its name is there with 3
    characters at least, its source is there with 2 characters at
    least, and its link is there and matches the pattern of links:
    it is "http://" or "https://" and then one unit at least, the first
    of which is no line terminator.
    Every error is about one of these three fields: the optional
    fields, whatever they hold, never make a record invalid, and two
    records with the same name, source and link get the same errors. *)
Theorem isValid_iff (s : record) :
  (isValid (validate s) = true <->
   (missingOrEmpty (s f_name) = false
    /\ (3 <= List.length (stringOf (s f_name)))%nat) /\
   (missingOrEmpty (s f_source) = false
    /\ (2 <= List.length (stringOf (s f_source)))%nat) /\
   (missingOrEmpty (s f_link) = false /\ isLink (stringOf (s f_link)))) /\
  (forall e, In e (errors (validate s)) ->
             In (err_field e) SCHOLARSHIP_SCHEMA.required) /\
  (forall s' : record,
     s' f_name = s f_name -> s' f_source = s f_source -> s' f_link = s f_link ->
     errors (validate s') = errors (validate s)).
Proof.
  refine (conj _ (conj _ _)).
  - rewrite isValid_errors, errors_required.
    rewrite <- (turnRequired_min s f_name 3 500 eq_refl).
    rewrite <- (turnRequired_min s f_source 2 100 eq_refl).
    rewrite <- linkPattern_spec, <- turnRequired_link.
    destruct (fst (turnRequired s f_name)); simpl;
      [|split; [discriminate | intros [H _]; discriminate H]].
    destruct (fst (turnRequired s f_source)); simpl;
      [|split; [discriminate | intros [_ [H _]]; discriminate H]].
    destruct (fst (turnRequired s f_link)); simpl;
      [|split; [discriminate | intros [_ [_ H]]; discriminate H]].
    split; auto.
  - intros e He. rewrite errors_required in He.
    apply in_app_or in He. destruct He as [He | He];
      [|apply in_app_or in He; destruct He as [He | He]];
      rewrite (proj1 (turnRequired_field s _) e He); simpl; tauto.
  - intros s' Hn Hs Hl. rewrite !errors_required.
    unfold turnRequired, checkRequired. rewrite Hn, Hs, Hl. reflexivity.
Qed.

End ValidityFacts.

(** ** The link of a record, from the normalizer to the validator *)

Section LinkFacts.

Import Regex Log DataNormalizer ScholarshipValidator.

Lemma space_of_terminator (c : N) : isLineTerminator c = true -> isSpace c = true.
Proof.
  unfold isLineTerminator. rewrite !orb_true_iff, !N.eqb_eq.
  intros [[[-> | ->] | ->] | ->]; reflexivity.
Qed.

Lemma normalize_link (env : Env) (now : Z) (raw : RawScholarship) :
  link (fst (normalize env now raw)) = fst (normalizeURL env (raw_link raw)).
Proof.
  unfold normalize. rewrite !bind_fst. reflexivity.
Qed.

Lemma normalizeURL_bare (env : Env) (url : jsstring) :
  hasScheme (trim url) = false ->
  normalizeURL env url = (lit "https://" ++ trim url, []).
Proof.
  unfold hasScheme, normalizeURL. intros H. apply orb_false_iff in H.
  destruct H as [-> ->]. reflexivity.
Qed.

(** X20. A link that is given without [http://] or [https://] comes
    out of [normalize] with "https://" before it and then passes the
    validator: [validate] has no error about the link of the normalized
    record.  The one exception is a link that is blank: it becomes the
    bare "https://", which [validate] does not report as missing but
    as not matching the pattern. *)
Theorem normalized_link_validates (env : Env) (now : Z) (raw : RawScholarship) :
  hasScheme (trim (raw_link raw)) = false ->
  let s := view (fst (normalize env now raw)) in
  s f_link = VStr (lit "https://" ++ trim (raw_link raw)) /\
  (trim (raw_link raw) <> [] ->
   forall e, In e (errors (validate s)) -> err_field e <> f_link) /\
  (trim (raw_link raw) = [] ->
   In (patternError f_link) (errors (validate s)) /\
   ~ In (criticalError f_link) (errors (validate s))).
Proof.
  intros Hbare s.
  assert (Hl : s f_link = VStr (lit "https://" ++ trim (raw_link raw))).
  { unfold s, view. rewrite normalize_link, (normalizeURL_bare env _ Hbare).
    reflexivity. }
  assert (Hp : missingOrEmpty (s f_link) = false) by (rewrite Hl; reflexivity).
  assert (Hturn : forall e, In e (errors (validate s)) -> err_field e = f_link ->
                    In e (fst (constraintReports f_link (s f_link)))).
  { intros e He Hf. destruct (present_turn s f_link Hp) as [Hr Ho].
    destruct (errors_of_field s f_link e He Hf) as [H | H];
      [rewrite Hr in H | rewrite Ho in H]; exact H. }
  refine (conj Hl (conj _ _)).
  - intros Hne e He Hf. specialize (Hturn e He Hf).
    rewrite constraintReports_link, Hl in Hturn. cbn [stringOf] in Hturn.
    destruct (trim (raw_link raw)) as [|c t] eqn:Et; [congruence|].
    rewrite linkPattern_https in Hturn; [destruct Hturn|].
    pose proof (trim_tight (raw_link raw)) as [Hlead _]. rewrite Et in Hlead.
    simpl in Hlead. destruct (isLineTerminator c) eqn:Ec; [|reflexivity].
    apply space_of_terminator in Ec. congruence.
  - intros Hnil. split.
    + apply (proj1 (present_reports_reach s f_link Hp)).
      rewrite constraintReports_link, Hl, Hnil. left. reflexivity.
    + intros Hin. specialize (Hturn _ Hin eq_refl).
      rewrite constraintReports_link, Hl, Hnil in Hturn.
      destruct Hturn as [H | []]. discriminate H.
Qed.

End LinkFacts.

Section LinkScenario.

Import Regex Log DataNormalizer ScholarshipValidator.

(** The theorem for the link " www.daad.de ". *)
Lemma normalized_link_validates_witness :
  let s := view (fst (normalize hostUTC 0 (rawOf "DAAD" "daad" " www.daad.de "))) in
  s f_link = VStr (lit "https://www.daad.de") /\
  forall e, In e (errors (validate s)) -> err_field e <> f_link.
Proof.
  intros s.
  destruct (normalized_link_validates hostUTC 0 (rawOf "DAAD" "daad" " www.daad.de "))
    as (H1 & H2 & _).
  - vm_compute. reflexivity.
  - split; [exact H1|]. apply H2. vm_compute. discriminate.
Defined.

End LinkScenario.

(** ** normalizeURL: normalizing twice *)

Section NormalizeURLTwice.

Import Log DataNormalizer.

Lemma noLead_app (a b : jsstring) : a <> [] -> noLead a -> noLead (a ++ b).
Proof. destruct a; [congruence | intros _ H; exact H]. Qed.

Lemma tight_prefixed (t : jsstring) : tight t -> tight (lit "https://" ++ t).
Proof.
  intros [H1 H2]. split; [reflexivity|].
  unfold noTrail in *. rewrite rev_app_distr.
  destruct (rev t) as [|c r] eqn:E; [reflexivity | exact H2].
Qed.

Lemma startsWith_app (a b : jsstring) : startsWith (a ++ b) a = true.
Proof. apply startsWith_spec. exists b. reflexivity. Qed.

Lemma normalizeURL_schemed (env : Env) (url : jsstring) :
  hasScheme (trim url) = true ->
  normalizeURL env url
  = if urlValid env (trim url) then (trim url, [])
    else (url, [mkEntry warn (lit "Invalid URL: " ++ url)]).
Proof.
  unfold hasScheme, normalizeURL. intros H.
  destruct (startsWith (trim url) (lit "http://")),
           (startsWith (trim url) (lit "https://")); try discriminate H;
    cbn [negb andb]; destruct (urlValid env (trim url)); reflexivity.
Qed.

Lemma hasScheme_prefixed (t : jsstring) : hasScheme (lit "https://" ++ t) = true.
Proof. unfold hasScheme. rewrite startsWith_app. apply orb_true_r. Qed.

(** X21. Normalizing a link a second time changes nothing: the text
    that [normalizeURL] returns is returned again when it is given
    back, on every host. *)
Theorem normalizeURL_idempotent (env : Env) (url : jsstring) :
  fst (normalizeURL env (fst (normalizeURL env url))) = fst (normalizeURL env url).
Proof.
  pose proof (trim_tight url) as Ht.
  destruct (hasScheme (trim url)) eqn:E.
  - rewrite (normalizeURL_schemed env url E).
    destruct (urlValid env (trim url)) eqn:Ev; cbn [fst].
    + rewrite normalizeURL_schemed by (rewrite trim_idem; exact E).
      rewrite trim_idem, Ev. reflexivity.
    + rewrite (normalizeURL_schemed env url E), Ev. reflexivity.
  - rewrite (normalizeURL_bare env url E). cbn [fst].
    rewrite normalizeURL_schemed
      by (rewrite (tight_trim _ (tight_prefixed _ Ht)); apply hasScheme_prefixed).
    rewrite (tight_trim _ (tight_prefixed _ Ht)).
    destruct (urlValid env (lit "https://" ++ trim url)); reflexivity.
Qed.

End NormalizeURLTwice.

(** ** The filters of the page on the records of the route *)

Section PageFacts.

Import Exn DataNormalizer.

Variable env : Env.
Variable now : Z.

Lemma filterE_throws {A : Type} (keep : A -> outcome bool) (xs : list A) (e : JsError) :
  Page.filterE keep xs = Throws e -> exists x, In x xs /\ keep x = Throws e.
Proof.
  induction xs as [|x xs IH]; simpl; [discriminate|].
  destruct (keep x) as [k|e'] eqn:E; simpl.
  - destruct (Page.filterE keep xs) as [r|e'']; simpl; [discriminate|].
    intros H. injection H as ->. destruct (IH eq_refl) as [y [Hy Hk]].
    exists y. split; [right; exact Hy | exact Hk].
  - intros H. injection H as ->. exists x. split; [left; reflexivity | exact E].
Qed.

Lemma filterE_returns {A : Type} (keep : A -> outcome bool) (p : A -> bool) (xs : list A) :
  (forall x, In x xs -> keep x = Returns (p x)) ->
  Page.filterE keep xs = Returns (filter p xs).
Proof.
  induction xs as [|x xs IH]; intros H; simpl; [reflexivity|].
  rewrite (H x) by (left; reflexivity). simpl.
  rewrite IH by (intros y Hy; apply H; right; exact Hy). simpl.
  destruct (p x); reflexivity.
Qed.

Lemma filterByDegree_outcome (l : list Scholarship) (g : jsstring) :
  g <> [] ->
  Page.filterByDegree l g
  = match l with
    | [] => Returns []
    | _ :: _ => Throws (Page.notAFunction "scholarship.degree.toLowerCase")
    end.
Proof.
  destruct g as [|c g]; [congruence|]. intros _.
  destruct l as [|s l]; reflexivity.
Qed.

Lemma filterByCountry_throws (l : list Scholarship) (c : jsstring) (e : JsError) :
  Page.filterByCountry l c = Throws e ->
  e = Page.notAFunction "scholarship.country.toLowerCase".
Proof.
  destruct c as [|x c]; [discriminate|]. unfold Page.filterByCountry.
  intros H. apply filterE_throws in H. destruct H as [s [_ Hs]].
  unfold Page.keepCountry in Hs.
  destruct (country s) as [[|y t]|cs]; try discriminate Hs.
  injection Hs as <-. reflexivity.
Qed.

Lemma active_nonempty (g : jsstring) : g <> [] -> FilterEngine.active g [] = true.
Proof. destruct g; [congruence | reflexivity]. Qed.

(** X22. On the page, the records fetched from the route have an array
    as their degree, and [filterByDegree] calls [toLowerCase] on it.
    So, as soon as the degree filter is set, [applyFilters] shows no
    record at all: it either throws a TypeError or gives the empty
    list.  With the degree as the only filter and at least one record,
    it throws, and so does [applyClientSideFilters]. *)
Theorem page_degree_filter_throws (l : list Scholarship) (st : FilterState.state) :
  FilterState.degree st <> [] ->
  let result := fst (Page.applyFilters env now l st) in
  (forall shown, result = Returns shown -> shown = []) /\
  (forall e, result = Throws e -> errName e = lit "TypeError") /\
  (l <> [] ->
   Page.applyFilters env now l (onlyDegree (FilterState.degree st))
   = (Throws (Page.notAFunction "scholarship.degree.toLowerCase"), []) /\
   Page.applyClientSideFilters env now l (onlyDegree (FilterState.degree st))
   = (Throws (Page.notAFunction "scholarship.degree.toLowerCase"), [])).
Proof.
  intros Hg result.
  assert (Hres : exists stage3,
            result = bind stage3 (fun filtered3 =>
                       Page.filterByDegree filtered3 (FilterState.degree st)) /\
            forall e, stage3 = Throws e ->
                      e = Page.notAFunction "scholarship.country.toLowerCase").
  { unfold result, Page.applyFilters. rewrite !bind_fst. cbn [fst Log.ret].
    rewrite (active_nonempty _ Hg).
    eexists. split; [reflexivity|].
    intros e. destruct (FilterEngine.active (FilterState.country st) []);
      [apply filterByCountry_throws | discriminate]. }
  destruct Hres as (stage3 & Hres & Hthrow).
  refine (conj _ (conj _ _)).
  - intros shown. rewrite Hres. destruct stage3 as [f3|e]; [|discriminate].
    cbn [bind]. rewrite (filterByDegree_outcome _ _ Hg).
    destruct f3; [|discriminate]. intros H. injection H as <-. reflexivity.
  - intros e. rewrite Hres. destruct stage3 as [f3|e'].
    + cbn [bind]. rewrite (filterByDegree_outcome _ _ Hg).
      destruct f3; [discriminate|]. intros H. injection H as <-. reflexivity.
    + cbn [bind]. intros H. injection H as <-. rewrite (Hthrow e' eq_refl). reflexivity.
  - intros Hl.
    assert (Ha : Page.applyFilters env now l (onlyDegree (FilterState.degree st))
                 = (Throws (Page.notAFunction "scholarship.degree.toLowerCase"), [])).
    { unfold Page.applyFilters, onlyDegree.
      cbn [FilterState.amountRange FilterState.deadlineRange FilterState.country
           FilterState.degree].
      rewrite (active_nonempty _ Hg).
      change (FilterEngine.active (lit "any") (lit "any")) with false.
      change (FilterEngine.active [] []) with false.
      cbn [Log.bind Log.ret bind app]. rewrite (filterByDegree_outcome _ _ Hg).
      destruct l; [congruence | reflexivity]. }
    split; [exact Ha|].
    unfold Page.applyClientSideFilters. destruct l as [|s l']; [congruence|].
    rewrite Ha. reflexivity.
Qed.

(** X23. With the country as the only filter, the page keeps the
    records whose country is the one asked for, letter case and outer
    white space apart -- as long as every record has a single country.
    A record with several countries has an array as its country:
    [filterByCountry] throws a TypeError as soon as the list holds
    one. *)
Theorem page_country_filter (l : list Scholarship) (c : jsstring) :
  c <> [] ->
  let result := fst (Page.applyFilters env now l (onlyCountry c)) in
  (forallb singleCountry l = true ->
   result = Returns (filter (fun s =>
                               match country s with
                               | One [] | Many _ => false
                               | One text =>
                                   streq (trim (toLowerCase text)) (trim (toLowerCase c))
                               end) l)) /\
  (forallb singleCountry l = false ->
   result = Throws (Page.notAFunction "scholarship.country.toLowerCase")).
Proof.
  intros Hc result.
  assert (Hres : result = Page.filterByCountry l c).
  { unfold result, Page.applyFilters, onlyCountry.
    cbn [FilterState.amountRange FilterState.deadlineRange FilterState.country
         FilterState.degree].
    rewrite (active_nonempty _ Hc).
    change (FilterEngine.active (lit "any") (lit "any")) with false.
    change (FilterEngine.active [] []) with false.
    cbn [Log.bind Log.ret fst].
    destruct (Page.filterByCountry l c); reflexivity. }
  rewrite Hres. clear Hres result. destruct c as [|x c]; [congruence|].
  unfold Page.filterByCountry. split.
  - intros Hall. apply filterE_returns. intros s Hs.
    rewrite forallb_forall in Hall. specialize (Hall s Hs).
    unfold singleCountry in Hall. unfold Page.keepCountry.
    destruct (country s) as [[|y t]|cs]; [reflexivity | reflexivity | discriminate].
  - intros Hsome. induction l as [|s l IH]; [discriminate|].
    cbn [forallb] in Hsome. cbn [Page.filterE]. unfold Page.keepCountry at 1.
    unfold singleCountry at 1 in Hsome.
    destruct (country s) as [[|y t]|cs]; cbn [bind andb] in *.
    + rewrite (IH Hsome). reflexivity.
    + rewrite (IH Hsome). reflexivity.
    + reflexivity.
Qed.

End PageFacts.

Section PageScenario.

Import Exn DataNormalizer.

(** The theorem for one record of a run and the degree "Masters". *)
Lemma page_degree_filter_throws_witness :
  degree recordOfRun = [lit "Masters"; lit "PhD"] /\
  Page.applyClientSideFilters hostUTC 0 [recordOfRun] (onlyDegree (lit "Masters"))
  = (Throws (Page.notAFunction "scholarship.degree.toLowerCase"), []).
Proof.
  split; [vm_compute; reflexivity|].
  refine (proj2 (proj2 (proj2 (page_degree_filter_throws hostUTC 0 [recordOfRun]
                                 (onlyDegree (lit "Masters")) _)) _));
    discriminate.
Defined.

(** The theorem for the same record, which has two countries, and the
    country "Germany". *)
Lemma page_country_filter_witness :
  country recordOfRun = Many [lit "Germany"; lit "Austria"] /\
  fst (Page.applyFilters hostUTC 0 [recordOfRun] (onlyCountry (lit "Germany")))
  = Throws (Page.notAFunction "scholarship.country.toLowerCase").
Proof.
  split; [vm_compute; reflexivity|].
  refine (proj2 (page_country_filter hostUTC 0 [recordOfRun] (lit "Germany") _) _).
  - discriminate.
  - vm_compute. reflexivity.
Defined.

End PageScenario.
